(** * TradingView -> IBKR trading bridge: a shallow embedding of the trading core

    The Python sources are embedded component by component, one module per
    source file:

    - [Py]           the few Python built-ins the code relies on (floats,
                     [str.upper], [str.strip], ordered dicts);
    - [Float64]      binary64 arithmetic, as far as the limit price needs it;
    - [MarketHours]  src/market_hours.py  (session oracle, trading decision);
    - [IBKR]         src/ibkr_client.py   (gateway client over ib_insync);
    - [Engine]       src/trading_engine.py (validator, executor, sweep);
    - [Webhook]      src/webhook.py and the callback of src/trading_bot.py;
    - [Monitor]      src/order_manager.py (order statistics);
    - [SessionQueries], [MonitorQueries]  the remaining predicates of
                     src/market_hours.py and queries of src/order_manager.py.

    The theorems about them follow the definitions.

    Modelling conventions.
    - Python [int] is [Z].  A finite Python [float] is modelled by the
      rational it denotes; [nan] is kept as a value of its own because
      ib_insync uses it for "no data".  The limit price is computed in
      binary64 arithmetic ([Float64]: every operation rounds to the nearest
      double, ties to even); elsewhere (the midpoint of bid and ask, the
      average fill time) arithmetic on finite floats is exact.
      Magnitudes of 2^1024 and beyond, where a double is infinite, are
      outside [Float64]; the parser of the webhook, which meets infinite
      floats in its input, has them in its own float type.
    - [datetime] values are microsecond counts ([Z]); a [timedelta] is their
      difference.
    - ib_insync, pytz, hmac/json and the system clock are the outside world:
      they are taken as an oracle, a record of functions over an abstract
      world state.
    - Each entry point of the engine runs to completion before the next one
      starts (broker events are delivered between them). *)

From Stdlib Require Import ZArith QArith Qround Qabs Qpower Lqa String Ascii List Bool
  Lia DecimalString.
From stdpp Require Import base list gmap strings.
Import ListNotations.

Local Open Scope string_scope.
Local Open Scope Z_scope.

(** ** Python built-ins *)

Module Py.

(** A Python float: [nan], or a finite value. *)
Inductive pyfloat : Type :=
| NaN
| Fin (q : Q).

(** [bool(x)]: only zero is falsy ([nan] is truthy).  A rational is zero
    when its numerator is. *)
Definition truthy (x : pyfloat) : bool :=
  match x with
  | NaN => true
  | Fin q => negb (Qnum q =? 0)
  end.

(** [x > 0]; every comparison with [nan] is false.  The denominator of a
    rational is positive, so the numerator carries the sign. *)
Definition gt0 (x : pyfloat) : bool :=
  match x with
  | NaN => false
  | Fin q => 0 <? Qnum q
  end.

Definition fadd (x y : pyfloat) : pyfloat :=
  match x, y with
  | Fin a, Fin b => Fin (a + b)
  | _, _ => NaN
  end.

Definition fmul (x y : pyfloat) : pyfloat :=
  match x, y with
  | Fin a, Fin b => Fin (a * b)
  | _, _ => NaN
  end.

(** [x / n] for a float [x] and an int [n]: ZeroDivisionError when [n = 0]. *)
Definition fdiv_int (x : pyfloat) (n : Z) : option pyfloat :=
  if n =? 0 then None
  else Some (match x with
             | NaN => NaN
             | Fin a => Fin (a / inject_Z n)
             end).

Definition of_int (n : Z) : pyfloat := Fin (inject_Z n).

(** Round half to even, to the nearest integer. *)
Definition round_half_even (x : Q) : Z :=
  let n := Qfloor x in
  match Qcompare (x - inject_Z n) (1 # 2) with
  | Lt => n
  | Gt => n + 1
  | Eq => if Z.even n then n else n + 1
  end.

(** [str.upper] and [str.lower] on ASCII text. *)
Definition upper_ascii (c : ascii) : ascii :=
  let n := nat_of_ascii c in
  if ((97 <=? n) && (n <=? 122))%nat then ascii_of_nat (n - 32) else c.

Definition lower_ascii (c : ascii) : ascii :=
  let n := nat_of_ascii c in
  if ((65 <=? n) && (n <=? 90))%nat then ascii_of_nat (n + 32) else c.

Fixpoint upper (s : string) : string :=
  match s with
  | EmptyString => EmptyString
  | String c r => String (upper_ascii c) (upper r)
  end.

Fixpoint lower (s : string) : string :=
  match s with
  | EmptyString => EmptyString
  | String c r => String (lower_ascii c) (lower r)
  end.

(** The ASCII characters [str.strip()] removes. *)
Definition is_space (c : ascii) : bool :=
  let n := nat_of_ascii c in
  ((n =? 32) || ((9 <=? n) && (n <=? 13)) || ((28 <=? n) && (n <=? 31)))%nat.

Fixpoint lstrip (s : string) : string :=
  match s with
  | EmptyString => EmptyString
  | String c r => if is_space c then lstrip r else s
  end.

Fixpoint rstrip (s : string) : string :=
  match s with
  | EmptyString => EmptyString
  | String c r =>
      match rstrip r with
      | EmptyString => if is_space c then EmptyString else String c EmptyString
      | r' => String c r'
      end
  end.

Definition strip (s : string) : string := rstrip (lstrip s).

(** [str(n)] for an int. *)
Definition str_of_int (n : Z) : string := NilZero.string_of_int (Z.to_int n).

(** [x in xs] for a list of strings. *)
Definition str_in (x : string) (xs : list string) : bool :=
  existsb (String.eqb x) xs.

(** A Python [dict] with string keys: insertion ordered, one entry per key. *)
Definition dict (V : Type) : Type := list (string * V).

Fixpoint dict_get {V} (d : dict V) (k : string) : option V :=
  match d with
  | [] => None
  | (k', v) :: r => if String.eqb k' k then Some v else dict_get r k
  end.

(** [d[k] = v]: an existing key keeps its place, a new one goes last. *)
Fixpoint dict_set {V} (d : dict V) (k : string) (v : V) : dict V :=
  match d with
  | [] => [(k, v)]
  | (k', v') :: r =>
      if String.eqb k' k then (k', v) :: r else (k', v') :: dict_set r k v
  end.

(** [del d[k]] once the key is known to be present. *)
Fixpoint dict_del {V} (d : dict V) (k : string) : dict V :=
  match d with
  | [] => []
  | (k', v') :: r => if String.eqb k' k then r else (k', v') :: dict_del r k
  end.

Definition dict_mem {V} (d : dict V) (k : string) : bool :=
  match dict_get d k with Some _ => true | None => false end.

End Py.

(** ** Binary64 arithmetic *)

Module Float64.
Import Py.

(** [2^e] *)
Definition pow2 (e : Z) : Q := Qpower 2 e.

(** The binary exponent of a positive rational: the [e] with
    [2^e <= x < 2^(e+1)]. *)
Definition floor_log2 (x : Q) : Z :=
  let e := Z.log2 (Qnum x) - Z.log2 (Z.pos (Qden x)) in
  if Qle_bool (pow2 e) x then e else e - 1.

(** The spacing of the doubles at the magnitude [a]: 52 bits below the
    leading one, and never finer than [2^-1074] (subnormal numbers). *)
Definition ulp (a : Q) : Q := pow2 (Z.max (floor_log2 a - 52) (-1074)).

(** The double nearest to [x], ties to the even significand, for
    [|x| < 2^1024 - 2^970] (beyond that a double overflows); the result is
    in lowest terms. *)
Definition RN (x : Q) : Q :=
  let a := Qabs x in
  let m := (inject_Z (round_half_even (a / ulp a)) * ulp a)%Q in
  Qred (if 0 <=? Qnum x then m else - m).

(** A decimal literal such as [0.001]. *)
Definition literal (q : Q) : pyfloat := Fin (RN q).

(** [x + y], [x - y] and [x * y] on floats. *)
Definition add (x y : pyfloat) : pyfloat :=
  match x, y with
  | Fin a, Fin b => Fin (RN (a + b))
  | _, _ => NaN
  end.

Definition sub (x y : pyfloat) : pyfloat :=
  match x, y with
  | Fin a, Fin b => Fin (RN (a - b))
  | _, _ => NaN
  end.

Definition mul (x y : pyfloat) : pyfloat :=
  match x, y with
  | Fin a, Fin b => Fin (RN (a * b))
  | _, _ => NaN
  end.

(** [round(x, 2)] on a float: the decimal with two places nearest to the
    exact value of [x], ties to the even last digit, and then the double
    nearest to that decimal; [nan] is returned unchanged. *)
Definition round2 (x : pyfloat) : pyfloat :=
  match x with
  | NaN => NaN
  | Fin q => Fin (RN (inject_Z (round_half_even (q * 100)) / 100))
  end.

(** [float(n)] for an int: [None] stands for OverflowError, raised when
    the nearest double would be [2^1024] or beyond. *)
Definition float_of_int (n : Z) : option pyfloat :=
  if 2 ^ 1024 - 2 ^ 970 <=? Z.abs n then None else Some (Fin (RN (inject_Z n))).

End Float64.

(** ** src/market_hours.py *)

Module MarketHours.

Inductive MarketSession : Type :=
| PRE_MARKET
| MARKET
| POST_MARKET
| CLOSED.

(** [MarketSession.value] *)
Definition session_value (s : MarketSession) : string :=
  match s with
  | PRE_MARKET => "pre_market"
  | MARKET => "market"
  | POST_MARKET => "post_market"
  | CLOSED => "closed"
  end.

Definition session_eqb (a b : MarketSession) : bool :=
  match a, b with
  | PRE_MARKET, PRE_MARKET | MARKET, MARKET
  | POST_MARKET, POST_MARKET | CLOSED, CLOSED => true
  | _, _ => false
  end.

(** [datetime.time]: naive times compare as the tuples
    (hour, minute, second, microsecond). *)
Record time : Type := mk_time {
  hour : nat;
  minute : nat;
  second : nat;
  microsecond : nat
}.

Definition lex (c : comparison) (k : comparison) : comparison :=
  match c with
  | Eq => k
  | _ => c
  end.

Definition time_cmp (a b : time) : comparison :=
  lex (Nat.compare (hour a) (hour b))
   (lex (Nat.compare (minute a) (minute b))
    (lex (Nat.compare (second a) (second b))
         (Nat.compare (microsecond a) (microsecond b)))).

Definition time_le (a b : time) : bool :=
  match time_cmp a b with Gt => false | _ => true end.

Definition time_lt (a b : time) : bool :=
  match time_cmp a b with Lt => true | _ => false end.

(** An instant as seen in the exchange timezone: what
    [dt.astimezone(self.eastern_tz)] yields, reduced to the two components
    the code reads.  [weekday] is [datetime.weekday()]: Monday is 0 and
    Sunday is 6. *)
Record local_datetime : Type := mk_local {
  weekday : nat;
  time_of : time
}.

Record MarketHours : Type := mk_hours {
  pre_market_start : time;
  market_open : time;
  market_close : time;
  post_market_end : time
}.

Section Sessions.

(** A Python [datetime] handed to the oracle, and its conversion to the
    exchange timezone (pytz; a naive value is first taken as UTC). *)
Context {instant : Type} (to_eastern : instant -> local_datetime).

Definition get_current_session (mh : MarketHours) (dt : instant) : MarketSession :=
  let dt := to_eastern dt in
  if (5 <=? weekday dt)%nat then CLOSED
  else
    let current_time := time_of dt in
    if time_le (pre_market_start mh) current_time
       && time_lt current_time (market_open mh)
    then PRE_MARKET
    else if time_le (market_open mh) current_time
            && time_lt current_time (market_close mh)
    then MARKET
    else if time_le (market_close mh) current_time
            && time_lt current_time (post_market_end mh)
    then POST_MARKET
    else CLOSED.

(** The dictionary of [get_session_info], without its formatted
    [current_time] string. *)
Record SessionInfo : Type := mk_info {
  session : string;
  is_market_open : bool;
  is_extended_hours : bool;
  is_trading_allowed : bool;
  is_weekend : bool
}.

Definition get_session_info (mh : MarketHours) (dt : instant) : SessionInfo :=
  let s := get_current_session mh dt in
  {| session := session_value s;
     is_market_open := session_eqb s MARKET;
     is_extended_hours := session_eqb s PRE_MARKET || session_eqb s POST_MARKET;
     is_trading_allowed := negb (session_eqb s CLOSED);
     is_weekend := (5 <=? weekday (to_eastern dt))%nat |}.

Record TradingSessionManager : Type := mk_manager {
  market_hours : MarketHours;
  enable_pre_market : bool;
  enable_post_market : bool
}.

Definition can_trade_now (m : TradingSessionManager) (dt : instant) : bool :=
  match get_current_session (market_hours m) dt with
  | MARKET => true
  | PRE_MARKET => enable_pre_market m
  | POST_MARKET => enable_post_market m
  | CLOSED => false
  end.

Definition get_order_type (m : TradingSessionManager) (dt : instant) : string :=
  match get_current_session (market_hours m) dt with
  | MARKET => "MKT"
  | PRE_MARKET | POST_MARKET => "LMT"
  | CLOSED => "LMT"
  end.

Definition _get_trading_reason (m : TradingSessionManager) (session : string)
    (can_trade : bool) : string :=
  if negb can_trade then
    if String.eqb session "closed" then "Market is closed"
    else if String.eqb session "pre_market" && negb (enable_pre_market m)
    then "Pre-market trading disabled"
    else if String.eqb session "post_market" && negb (enable_post_market m)
    then "Post-market trading disabled"
    else "Unknown"
  else
    if String.eqb session "market" then "Regular market hours - using market orders"
    else if Py.str_in session ["pre_market"; "post_market"]
    then ("Extended hours (" ++ session ++ ") - using limit orders")%string
    else "Unknown".

Record TradingDecision : Type := mk_decision {
  info : SessionInfo;
  can_trade : bool;
  recommended_order_type : option string;
  reason : string
}.

Definition get_trading_decision (m : TradingSessionManager) (dt : instant)
    : TradingDecision :=
  let session_info := get_session_info (market_hours m) dt in
  let can := can_trade_now m dt in
  let order_type := if can then Some (get_order_type m dt) else None in
  {| info := session_info;
     can_trade := can;
     recommended_order_type := order_type;
     reason := _get_trading_reason m (session session_info) can |}.

End Sessions.

End MarketHours.

(** ** The outside world: ib_insync objects, the gateway and the clocks *)

Module World.

(** ib_insync value objects, with the fields the code reads. *)
Record Contract : Type := mk_contract {
  con_symbol : string;
  conId : Z
}.

Record Order : Type := mk_order {
  orderId : Z;
  action : string;
  totalQuantity : Z;
  orderType : option string;
  account : string;
  lmtPrice : option Py.pyfloat
}.

Record Trade : Type := mk_trade {
  tr_contract : Contract;
  tr_order : Order;
  tr_status : string            (* trade.orderStatus.status *)
}.

Record Position : Type := mk_position {
  pos_contract : Contract;
  position : Z;
  avgCost : Py.pyfloat
}.

Record Fill : Type := mk_fill {
  fill_contract : Contract;
  fill_orderId : Z              (* fill.execution.orderId *)
}.

(** A ticker as it reads once the two-second wait is over;
    [marketPrice] is the value of [ticker.marketPrice()]. *)
Record Ticker : Type := mk_ticker {
  marketPrice : Py.pyfloat;
  bid : Py.pyfloat;
  ask : Py.pyfloat;
  last : Py.pyfloat
}.

(** A library call returns a value or raises. *)
Inductive res (A : Type) : Type :=
| Ok (a : A)
| Exc.
Arguments Ok {A} a.
Arguments Exc {A}.

(** The gateway and the clocks, as functions over the world state [W].
    [isConnected] answers [self.connected and self.ib.isConnected()]. *)
Record Gateway (W : Type) : Type := mk_gateway {
  qualifyContractsAsync : string -> W -> res (list Contract) * W;
  reqMktData : Contract -> W -> res Ticker * W;
  cancelMktData : Contract -> W -> res unit * W;
  isConnected : W -> bool * W;
  placeOrder : Contract -> Order -> W -> res Trade * W;
  cancelOrder : Order -> W -> res unit * W;
  positions : W -> res (list Position) * W;
  openTrades : W -> res (list Trade) * W;
  utcnow : W -> Z * W;
  now_eastern : W -> MarketHours.local_datetime * W
}.
Arguments qualifyContractsAsync {W}.
Arguments reqMktData {W}.
Arguments cancelMktData {W}.
Arguments isConnected {W}.
Arguments placeOrder {W}.
Arguments cancelOrder {W}.
Arguments positions {W}.
Arguments openTrades {W}.
Arguments utcnow {W}.
Arguments now_eastern {W}.

(** The gateway calls issued so far.  [PlaceOrder] records on whose behalf
    the order went out ([intent]: the PendingOrder object that tracks, or
    will track, the placement; [None] for a market order) and whether the
    gateway accepted it. *)
Inductive IBCall : Type :=
| QualifyContracts (symbol : string)
| ReqMktData (c : Contract)
| CancelMktData (c : Contract)
| IsConnected
| PlaceOrder (intent : option nat) (c : Contract) (o : Order) (accepted : bool)
| CancelOrder (o : Order)
| Positions
| OpenTrades.

(** Log records: the level and the message template with its arguments. *)
Inductive Level : Type := INFO | WARNING | ERROR.

Inductive LogMsg : Type :=
(* ibkr_client.py *)
| ContractNotFound (symbol : string)
| ErrorGettingContract (symbol : string)
| NoValidPriceData (symbol : string)
| ErrorGettingMarketPrice (symbol : string)
| NotConnected
| OrderPlaced (id : Z) (action symbol : string) (quantity : Z)
    (order_type : option string)
    (limit : option Py.pyfloat)
| ErrorPlacingOrder
| OrderCancelled (id : Z)
| ErrorCancellingOrder (id : Z)
| ErrorGettingPositions
| ErrorGettingOpenOrders
(* trading_engine.py *)
| EngineInitialized
| DefaultQuantity (quantity : Z)
| MaxPositionSize (size : Z)
| ProcessingAlert (action : string) (quantity : Z) (symbol : string)
| TradingNotAllowed (reason : string)
| AlertProcessed (action : string) (quantity : Z) (symbol : string)
| FailedToProcessAlert (action : string) (quantity : Z) (symbol : string)
| InvalidAction (action state symbol : string) (valid : list string)
| CouldNotGetContract (symbol : string)
| QuantityExceedsMax (quantity max_position_size : Z)
| CouldNotGetMarketPrice (symbol : string)
| TrackingPendingOrder (trade_id : string)
| PositionUpdate (symbol : string) (quantity : Z) (avg_price : Py.pyfloat)
| OrderFilled (symbol : string)
| RemovedFilledOrder (order_id : string)
| RemovedOrder (status order_id : string)
| CouldNotGetContractForResubmission (symbol : string)
| CouldNotGetMarketPriceForResubmission (symbol : string)
| OrderResubmitted (trade_id symbol : string) (new_price : Py.pyfloat) (attempt : Z)
| FailedToResubmit (symbol : string)
| ErrorResubmittingOrder.

Record Env (W : Type) : Type := mk_env {
  world : W;
  calls : list IBCall;
  logs : list (Level * LogMsg)
}.
Arguments mk_env {W}.
Arguments world {W}.
Arguments calls {W}.
Arguments logs {W}.

End World.

(** ** src/ibkr_client.py *)

Module IBKR.
Import Py World.

Section Client.
Context {W : Type} (ib : Gateway W).

(** Client code runs in a state monad over the environment. *)
Definition M (A : Type) : Type := Env W -> A * Env W.

Definition ret {A} (a : A) : M A := fun e => (a, e).

Definition bind {A B} (m : M A) (k : A -> M B) : M B :=
  fun e => let (a, e') := m e in k a e'.

Notation "'let*' x ':=' m 'in' k" := (bind m (fun x => k))
  (at level 10, x name, m at level 100, k at level 200, only parsing).

(** Ask the oracle. *)
Definition oracle {A} (f : W -> A * W) : M A :=
  fun e => let (a, w) := f (world e) in (a, mk_env w (calls e) (logs e)).

(** Note a gateway call. *)
Definition call (c : IBCall) : M unit :=
  fun e => (tt, mk_env (world e) (calls e ++ [c]) (logs e)).

Definition log (l : Level) (m : LogMsg) : M unit :=
  fun e => (tt, mk_env (world e) (calls e) (logs e ++ [(l, m)])).

Definition is_connected : M bool :=
  let* _ := call IsConnected in oracle (isConnected ib).

Definition get_contract (symbol : string) : M (option Contract) :=
  let* _ := call (QualifyContracts symbol) in
  let* r := oracle (qualifyContractsAsync ib symbol) in
  match r with
  | Ok (c :: _) => ret (Some c)
  | Ok [] => let* _ := log ERROR (ContractNotFound symbol) in ret None
  | Exc => let* _ := log ERROR (ErrorGettingContract symbol) in ret None
  end.

(** The price selection of [get_market_price], on the ticker it reads. *)
Definition price_of_ticker (ticker : Ticker) : option pyfloat :=
  let price := marketPrice ticker in
  if truthy price && gt0 price then Some price
  else if truthy (bid ticker) && truthy (ask ticker)
          && gt0 (bid ticker) && gt0 (ask ticker)
  then fdiv_int (fadd (bid ticker) (ask ticker)) 2
  else if truthy (last ticker) && gt0 (last ticker) then Some (last ticker)
  else None.

Definition get_market_price (contract : Contract) : M (option pyfloat) :=
  let* _ := call (ReqMktData contract) in
  let* r := oracle (reqMktData ib contract) in
  let* result :=
    match r with
    | Ok ticker =>
        match price_of_ticker ticker with
        | Some p => ret (Some p)
        | None =>
            let* _ := log WARNING (NoValidPriceData (con_symbol contract)) in
            ret None
        end
    | Exc =>
        let* _ := log ERROR (ErrorGettingMarketPrice (con_symbol contract)) in
        ret None
    end in
  (* finally: cancel the market data subscription, ignoring any error *)
  let* _ := call (CancelMktData contract) in
  let* _ := oracle (cancelMktData ib contract) in
  ret result.

(** [place_order]; [intent] only labels the call in the trace. *)
Definition place_order (intent : option nat) (acct : string) (contract : Contract)
    (action : string) (quantity : Z) (order_type : option string)
    (limit_price : option pyfloat) : M (option Trade) :=
  let* conn := is_connected in
  if negb conn then let* _ := log ERROR NotConnected in ret None
  else
    let lmt := match order_type, limit_price with
               | Some t, Some p => if String.eqb t "LMT" && truthy p
                                   then Some p else None
               | _, _ => None
               end in
    let order := mk_order 0 (upper action) quantity order_type acct lmt in
    let* r := oracle (placeOrder ib contract order) in
    match r with
    | Ok trade =>
        let* _ := call (PlaceOrder intent contract order true) in
        let* _ := log INFO (OrderPlaced (orderId (tr_order trade)) action
                              (con_symbol contract) quantity order_type limit_price) in
        ret (Some trade)
    | Exc =>
        let* _ := call (PlaceOrder intent contract order false) in
        let* _ := log ERROR ErrorPlacingOrder in ret None
    end.

Definition cancel_order (trade : Trade) : M bool :=
  let* _ := call (CancelOrder (tr_order trade)) in
  let* r := oracle (cancelOrder ib (tr_order trade)) in
  match r with
  | Ok _ => let* _ := log INFO (OrderCancelled (orderId (tr_order trade))) in ret true
  | Exc =>
      let* _ := log ERROR (ErrorCancellingOrder (orderId (tr_order trade))) in
      ret false
  end.

Definition get_positions : M (list Position) :=
  let* conn := is_connected in
  if negb conn then ret []
  else
    let* _ := call Positions in
    let* r := oracle (positions ib) in
    match r with
    | Ok ps => ret (List.filter (fun p => negb (position p =? 0)) ps)
    | Exc => let* _ := log ERROR ErrorGettingPositions in ret []
    end.

Definition get_position (symbol : string) : M (option Position) :=
  let* ps := get_positions in
  ret (List.find (fun p => String.eqb (con_symbol (pos_contract p)) symbol) ps).

Definition get_open_orders : M (list Trade) :=
  let* conn := is_connected in
  if negb conn then ret []
  else
    let* _ := call OpenTrades in
    let* r := oracle (openTrades ib) in
    match r with
    | Ok ts => ret (List.filter
                      (fun t => str_in (tr_status t) ["Submitted"; "PreSubmitted"]) ts)
    | Exc => let* _ := log ERROR ErrorGettingOpenOrders in ret []
    end.

End Client.

End IBKR.

(** ** src/trading_engine.py *)

Module Engine.
Import Py World MarketHours.

Inductive PositionState : Type :=
| FLAT
| LONG
| SHORT.

(** [PositionState.value] *)
Definition state_value (s : PositionState) : string :=
  match s with
  | FLAT => "flat"
  | LONG => "long"
  | SHORT => "short"
  end.

Record PositionInfo : Type := mk_position_info {
  symbol : string;
  state : PositionState;
  quantity : Z;
  avg_price : pyfloat;
  last_updated : Z
}.

(** The dataclass constructor: [__post_init__] forces FLAT on a zero
    quantity. *)
Definition new_PositionInfo (symbol : string) (state : PositionState) (quantity : Z)
    (avg_price : pyfloat) (last_updated : Z) : PositionInfo :=
  mk_position_info symbol (if quantity =? 0 then FLAT else state) quantity
    avg_price last_updated.

Record PendingOrder : Type := mk_pending {
  trade_id : string;
  po_symbol : string;
  po_action : string;
  po_quantity : Z;
  original_price : option pyfloat;
  submitted_time : Z;
  resubmission_count : Z;
  last_resubmission : option Z
}.

(** The [config] dictionary of the engine, and the account of its client. *)
Record Config : Type := mk_config {
  default_quantity : Z;
  max_position_size : Z;
  limit_order_timeout : Z;       (* minutes *)
  max_resubmissions : Z;
  client_account : string
}.

(** An alert as [AlertParser.parse_alert] hands it over. *)
Record Alert : Type := mk_alert {
  alert_symbol : string;
  alert_action : string;
  alert_quantity : option Z
}.

(** The engine's state.  PendingOrder objects are mutable and shared between
    [pending_orders] and the sweep's work list, so they live in a store
    ([objects], addressed by position) and the dictionary holds addresses.
    [tasks] are the position refreshes scheduled with [asyncio.create_task]. *)
Record Sys (W : Type) : Type := mk_sys {
  env : Env W;
  positions : gmap string PositionInfo;
  objects : list PendingOrder;
  pending_orders : dict nat;
  tasks : list string
}.
Arguments mk_sys {W}.
Arguments env {W}.
Arguments positions {W}.
Arguments objects {W}.
Arguments pending_orders {W}.
Arguments tasks {W}.

(** The transition table of [_validate_sequential_action]. *)
Definition valid_transitions (s : PositionState) : list string :=
  match s with
  | FLAT => ["BUY"; "SHORT"]
  | LONG => ["SELL"]
  | SHORT => ["COVER"]
  end.

Definition _convert_action_to_ibkr (action : string) : string :=
  let a := upper action in
  if String.eqb a "BUY" then "BUY"
  else if String.eqb a "SELL" then "SELL"
  else if String.eqb a "SHORT" then "SELL"
  else if String.eqb a "COVER" then "BUY"
  else a.

(** [buffer = 0.001] *)
Definition buffer : pyfloat := Float64.literal (1 # 1000).

(** The limit price of [_execute_trade] (lines 215-222), in float
    arithmetic. *)
Definition execute_limit_price (ibkr_action : string) (market_price : pyfloat)
    : pyfloat :=
  let limit_price :=
    if String.eqb ibkr_action "BUY"
    then Float64.mul market_price (Float64.add (of_int 1) buffer)
    else Float64.mul market_price (Float64.sub (of_int 1) buffer) in
  Float64.round2 limit_price.

(** The limit price of [_resubmit_order] (lines 387-396). *)
Definition resubmit_limit_price (ibkr_action : string) (market_price : pyfloat)
    : pyfloat :=
  let new_limit_price :=
    if String.eqb ibkr_action "BUY"
    then Float64.mul market_price (Float64.add (of_int 1) buffer)
    else Float64.mul market_price (Float64.sub (of_int 1) buffer) in
  Float64.round2 new_limit_price.

(** Whether the sweep picks a pending order (lines 346-356). *)
Definition due_for_resubmission (cfg : Config) (current_time : Z)
    (pending_order : PendingOrder) : bool :=
  let time_since_submission := current_time - submitted_time pending_order in
  let time_since_last_resubmission :=
    match last_resubmission pending_order with
    | Some t => current_time - t
    | None => time_since_submission
    end in
  let timeout_minutes := limit_order_timeout cfg * 60000000 in
  (timeout_minutes <=? time_since_last_resubmission)
  && (resubmission_count pending_order <? max_resubmissions cfg).

Section WithGateway.
Context {W : Type} (ib : Gateway W) (cfg : Config) (tsm : TradingSessionManager).

Definition E (A : Type) : Type := Sys W -> A * Sys W.

Definition ret {A} (a : A) : E A := fun s => (a, s).

Definition bind {A B} (m : E A) (k : A -> E B) : E B :=
  fun s => let (a, s') := m s in k a s'.

Notation "'let*' x ':=' m 'in' k" := (bind m (fun x => k))
  (at level 10, x name, m at level 100, k at level 200, only parsing).

Definition get : E (Sys W) := fun s => (s, s).

(** Run client code: it sees the environment only. *)
Definition lift {A} (m : IBKR.M A) : E A :=
  fun s => let (a, e) := m (env s) in
           (a, mk_sys e (positions s) (objects s) (pending_orders s) (tasks s)).

Definition log (l : Level) (m : LogMsg) : E unit := lift (IBKR.log l m).

Definition clock {A} (f : W -> A * W) : E A := lift (IBKR.oracle f).

Definition set_positions (p : gmap string PositionInfo) : E unit :=
  fun s => (tt, mk_sys (env s) p (objects s) (pending_orders s) (tasks s)).

Definition set_objects (h : list PendingOrder) : E unit :=
  fun s => (tt, mk_sys (env s) (positions s) h (pending_orders s) (tasks s)).

Definition set_pending_orders (d : dict nat) : E unit :=
  fun s => (tt, mk_sys (env s) (positions s) (objects s) d (tasks s)).

Definition set_tasks (t : list string) : E unit :=
  fun s => (tt, mk_sys (env s) (positions s) (objects s) (pending_orders s) t).

(** [self.session_manager.get_trading_decision()] without an instant: every
    [get_current_session] behind it reads the clock for itself. *)
Definition get_trading_decision_now : E TradingDecision :=
  let* dt_info := clock (now_eastern ib) in
  let session_info := get_session_info id (market_hours tsm) dt_info in
  let* dt_can := clock (now_eastern ib) in
  let can := can_trade_now id tsm dt_can in
  let* order_type :=
    (if can
     then let* dt_type := clock (now_eastern ib) in
          ret (Some (get_order_type id tsm dt_type))
     else ret None) in
  ret {| info := session_info;
         can_trade := can;
         recommended_order_type := order_type;
         reason := _get_trading_reason tsm (session session_info) can |}.

Definition _update_position (symbol : string) : E unit :=
  let* position := lift (IBKR.get_position ib symbol) in
  let* now := clock (utcnow ib) in
  let position_info :=
    match position with
    | Some p =>
        if negb (World.position p =? 0)
        then new_PositionInfo symbol
               (if 0 <? World.position p then LONG else SHORT)
               (Z.abs (World.position p)) (avgCost p) now
        else new_PositionInfo symbol FLAT 0 (Fin 0) now
    | None => new_PositionInfo symbol FLAT 0 (Fin 0) now
    end in
  let* s := get in
  let* _ := set_positions (<[symbol := position_info]> (positions s)) in
  log INFO (PositionUpdate symbol (quantity position_info) (avg_price position_info)).

Definition _validate_sequential_action (position : PositionInfo) (action : string)
    : E bool :=
  let action := upper action in
  if negb (str_in action (valid_transitions (state position)))
  then let* _ := log ERROR (InvalidAction action (state_value (state position))
                              (symbol position) (valid_transitions (state position))) in
       ret false
  else ret true.

Definition _track_pending_order (trade : Trade) (symbol action : string)
    (quantity : Z) (limit_price : option pyfloat) : E unit :=
  let* now := clock (utcnow ib) in
  let pending_order :=
    mk_pending (str_of_int (orderId (tr_order trade))) symbol action quantity
      limit_price now 0 None in
  let* s := get in
  let* _ := set_objects (objects s ++ [pending_order]) in
  let* _ := set_pending_orders
              (dict_set (pending_orders s) (trade_id pending_order)
                 (length (objects s))) in
  log INFO (TrackingPendingOrder (trade_id pending_order)).

Definition is_limit (order_type : option string) : bool :=
  match order_type with
  | Some t => String.eqb t "LMT"
  | None => false
  end.

Definition _execute_trade (symbol action : string) (quantity : Z)
    (trading_decision : TradingDecision) : E bool :=
  let* contract := lift (IBKR.get_contract ib symbol) in
  match contract with
  | None => let* _ := log ERROR (CouldNotGetContract symbol) in ret false
  | Some contract =>
      let ibkr_action := _convert_action_to_ibkr action in
      if max_position_size cfg <? quantity
      then let* _ := log ERROR (QuantityExceedsMax quantity (max_position_size cfg)) in
           ret false
      else
        let order_type := recommended_order_type trading_decision in
        let* priced :=
          (if is_limit order_type
           then let* market_price := lift (IBKR.get_market_price ib contract) in
                match market_price with
                | None => let* _ := log ERROR (CouldNotGetMarketPrice symbol) in
                          ret None
                | Some market_price =>
                    ret (Some (Some (execute_limit_price ibkr_action market_price)))
                end
           else ret (Some None)) in
        match priced with
        | None => ret false
        | Some limit_price =>
            let* s := get in
            let intent := if is_limit order_type
                          then Some (length (objects s)) else None in
            let* trade := lift (IBKR.place_order ib intent (client_account cfg)
                                  contract ibkr_action quantity order_type
                                  limit_price) in
            match trade with
            | Some trade =>
                let* _ := (if is_limit order_type
                           then _track_pending_order trade symbol action quantity
                                  limit_price
                           else ret tt) in
                ret true
            | None => ret false
            end
        end
  end.

Definition process_alert (alert : Alert) : E bool :=
  let symbol := alert_symbol alert in
  let action := alert_action alert in
  let quantity := match alert_quantity alert with
                  | Some q => q
                  | None => default_quantity cfg
                  end in
  let* _ := log INFO (ProcessingAlert action quantity symbol) in
  let* trading_decision := get_trading_decision_now in
  if negb (can_trade trading_decision)
  then let* _ := log WARNING (TradingNotAllowed (reason trading_decision)) in
       ret false
  else
    let* _ := _update_position symbol in
    let* now := clock (utcnow ib) in
    let* s := get in
    let current_position :=
      match positions s !! symbol with
      | Some p => p
      | None => new_PositionInfo symbol FLAT 0 (Fin 0) now
      end in
    let* ok := _validate_sequential_action current_position action in
    if negb ok then ret false
    else
      let* success := _execute_trade symbol action quantity trading_decision in
      let* _ := (if success
                 then log INFO (AlertProcessed action quantity symbol)
                 else log ERROR (FailedToProcessAlert action quantity symbol)) in
      ret success.

Definition _on_fill (fill : Fill) : E unit :=
  let symbol := con_symbol (fill_contract fill) in
  let* _ := log INFO (OrderFilled symbol) in
  let* s := get in
  let* _ := set_tasks (tasks s ++ [symbol]) in
  let order_id := str_of_int (fill_orderId fill) in
  if dict_mem (pending_orders s) order_id
  then let* _ := set_pending_orders (dict_del (pending_orders s) order_id) in
       log INFO (RemovedFilledOrder order_id)
  else ret tt.

Definition _on_order_status (trade : Trade) : E unit :=
  let order_id := str_of_int (orderId (tr_order trade)) in
  let status := tr_status trade in
  if str_in status ["Cancelled"; "ApiCancelled"; "Rejected"]
  then let* s := get in
       if dict_mem (pending_orders s) order_id
       then let* _ := set_pending_orders (dict_del (pending_orders s) order_id) in
            log INFO (RemovedOrder (lower status) order_id)
       else ret tt
  else ret tt.

(** [_resubmit_order] on the PendingOrder object at address [a]. *)
Definition _resubmit_order (a : nat) : E unit :=
  let* s0 := get in
  match objects s0 !! a with
  | None => ret tt
  | Some pending_order =>
      let* contract := lift (IBKR.get_contract ib (po_symbol pending_order)) in
      match contract with
      | None =>
          log ERROR (CouldNotGetContractForResubmission (po_symbol pending_order))
      | Some contract =>
          let* market_price := lift (IBKR.get_market_price ib contract) in
          match market_price with
          | None =>
              log ERROR (CouldNotGetMarketPriceForResubmission (po_symbol pending_order))
          | Some market_price =>
              let* open_orders := lift (IBKR.get_open_orders ib) in
              let* _ :=
                match List.find
                        (fun trade => String.eqb (str_of_int (orderId (tr_order trade)))
                                        (trade_id pending_order)) open_orders with
                | Some trade => let* _ := lift (IBKR.cancel_order ib trade) in ret tt
                | None => ret tt
                end in
              let ibkr_action := _convert_action_to_ibkr (po_action pending_order) in
              let new_limit_price := resubmit_limit_price ibkr_action market_price in
              let* new_trade :=
                lift (IBKR.place_order ib (Some a) (client_account cfg) contract
                        ibkr_action (po_quantity pending_order) (Some "LMT")
                        (Some new_limit_price)) in
              match new_trade with
              | Some new_trade =>
                  let old_order_id := trade_id pending_order in
                  let* now := clock (utcnow ib) in
                  let updated :=
                    mk_pending (str_of_int (orderId (tr_order new_trade)))
                      (po_symbol pending_order) (po_action pending_order)
                      (po_quantity pending_order) (original_price pending_order)
                      (submitted_time pending_order)
                      (resubmission_count pending_order + 1) (Some now) in
                  let* s := get in
                  let* _ := set_objects (<[a := updated]> (objects s)) in
                  if dict_mem (pending_orders s) old_order_id
                  then
                    let* _ := set_pending_orders
                                (dict_set (dict_del (pending_orders s) old_order_id)
                                   (trade_id updated) a) in
                    log INFO (OrderResubmitted (trade_id updated) (po_symbol updated)
                                new_limit_price (resubmission_count updated))
                  else (* del raises KeyError *)
                    log ERROR ErrorResubmittingOrder
              | None => log ERROR (FailedToResubmit (po_symbol pending_order))
              end
          end
      end
  end.

Fixpoint for_each {A} (f : A -> E unit) (xs : list A) : E unit :=
  match xs with
  | [] => ret tt
  | x :: r => let* _ := f x in for_each f r
  end.

(** The first loop of the sweep: the objects due for resubmission. *)
Definition orders_to_resubmit (current_time : Z) (s : Sys W) : list nat :=
  omap (fun entry : string * nat =>
          match objects s !! entry.2 with
          | Some pending_order =>
              if due_for_resubmission cfg current_time pending_order
              then Some entry.2 else None
          | None => None
          end) (pending_orders s).

Definition check_and_resubmit_orders : E unit :=
  let* current_time := clock (utcnow ib) in
  let* s := get in
  for_each _resubmit_order (orders_to_resubmit current_time s).

(** What can happen to the engine, one event at a time. *)
Inductive Op : Type :=
| OpAlert (alert : Alert)
| OpFill (fill : Fill)
| OpOrderStatus (trade : Trade)
| OpSweep
| OpTask.

Definition step (op : Op) : E unit :=
  match op with
  | OpAlert alert => let* _ := process_alert alert in ret tt
  | OpFill fill => _on_fill fill
  | OpOrderStatus trade => _on_order_status trade
  | OpSweep => check_and_resubmit_orders
  | OpTask =>
      let* s := get in
      match tasks s with
      | [] => ret tt
      | symbol :: rest => let* _ := set_tasks rest in _update_position symbol
      end
  end.

Definition run (ops : list Op) : E unit := for_each step ops.

(** The engine as [__init__] leaves it: nothing tracked, three log lines. *)
Definition init (w : W) : Sys W :=
  mk_sys (mk_env w []
            [(INFO, EngineInitialized);
             (INFO, DefaultQuantity (default_quantity cfg));
             (INFO, MaxPositionSize (max_position_size cfg))])
    ∅ [] [] [].

End WithGateway.

End Engine.

(** ** src/webhook.py, and the alert callback of src/trading_bot.py *)

Module Webhook.
Import Py.

(** A float as the parser meets it.  Besides finite values and [nan],
    JSON carries infinite floats ([Infinity], [-Infinity], and numbers such
    as [1e999] that are too large for a double), and [float('inf')]
    parses. *)
Inductive xfloat : Type :=
| Finite (x : pyfloat)
| Inf (negative : bool).

(** A decoded JSON document. *)
#[local] Unset Elimination Schemes.
Inductive json : Type :=
| JNull
| JBool (b : bool)
| JInt (n : Z)
| JFloat (x : xfloat)
| JStr (s : string)
| JList (l : list json)
| JObj (d : list (string * json)).
#[local] Set Elimination Schemes.

(** [bool(data)] *)
Definition json_truthy (j : json) : bool :=
  match j with
  | JNull => false
  | JBool b => b
  | JInt n => negb (n =? 0)
  | JFloat (Finite x) => truthy x
  | JFloat (Inf _) => true
  | JStr s => negb (String.eqb s "")
  | JList l => match l with [] => false | _ => true end
  | JObj d => match d with [] => false | _ => true end
  end.

Inductive exn : Type :=
| ValueError (msg : string)
| AttributeError
| TypeError
| OverflowError.

Inductive result (A : Type) : Type :=
| Return (a : A)
| Raise (e : exn).
Arguments Return {A} a.
Arguments Raise {A} e.

(** [data.get(key, default)]: only a dict has [get]. *)
Definition py_get (data : json) (key : string) (default : json) : result json :=
  match data with
  | JObj d => Return (match dict_get d key with Some v => v | None => default end)
  | _ => Raise AttributeError
  end.

Record ParsedAlert : Type := mk_parsed {
  action : string;
  symbol : string;
  quantity : Z;
  price : option xfloat;
  message : string;
  timestamp : string;
  raw_data : json
}.

(** [s.replace('Z', '+00:00')] *)
Fixpoint replace_Z (s : string) : string :=
  match s with
  | EmptyString => EmptyString
  | String c r =>
      if Ascii.eqb c "Z"%char then ("+00:00" ++ replace_Z r)%string
      else String c (replace_Z r)
  end.

Section Builtins.

(** Python built-ins left abstract: [int(str)], [float(str)], [str(obj)],
    whether [datetime.fromisoformat] accepts a string, the ISO rendering of
    the current time, [json.dumps(sort_keys=True)] and HMAC-SHA256 in hex. *)
Context (int_of_str : string -> option Z)
        (float_of_str : string -> option xfloat)
        (py_str : json -> string)
        (fromisoformat_ok : string -> bool)
        (utcnow_iso : string)
        (json_dumps : json -> string)
        (hmac_sha256_hex : string -> string -> string).

(** [int(quantity)]: a finite float is truncated towards zero, [nan] is
    a ValueError and an infinite float an OverflowError. *)
Definition py_int (j : json) : result Z :=
  match j with
  | JNull => Raise TypeError
  | JBool b => Return (if b then 1 else 0)
  | JInt n => Return n
  | JFloat (Finite NaN) => Raise (ValueError "cannot convert float NaN to integer")
  | JFloat (Finite (Fin q)) => Return (Z.quot (Qnum q) (Z.pos (Qden q)))
  | JFloat (Inf _) => Raise OverflowError
  | JStr s => match int_of_str s with
              | Some n => Return n
              | None => Raise (ValueError "invalid literal for int()")
              end
  | JList _ | JObj _ => Raise TypeError
  end.

(** [float(price)]: an int is rounded to the nearest double, and is an
    OverflowError when it is too large for one. *)
Definition py_float (j : json) : result xfloat :=
  match j with
  | JNull => Raise TypeError
  | JBool b => Return (Finite (of_int (if b then 1 else 0)))
  | JInt n => match Float64.float_of_int n with
              | Some x => Return (Finite x)
              | None => Raise OverflowError
              end
  | JFloat x => Return x
  | JStr s => match float_of_str s with
              | Some x => Return x
              | None => Raise (ValueError "could not convert string to float")
              end
  | JList _ | JObj _ => Raise TypeError
  end.

(** [AlertParser.parse_alert].  The two [try] blocks catch ValueError
    and TypeError only: any other exception of [int] or [float] leaves the
    parser as it is. *)
Definition parse_alert (data : json) : result ParsedAlert :=
  (* Extract action *)
  match py_get data "action" (JStr "") with
  | Raise e => Raise e
  | Return (JStr a) =>
      let action := strip (lower a) in
      if str_in action ["buy"; "sell"; "short"; "cover"] then
        (* Extract symbol *)
        match py_get data "symbol" (JStr "") with
        | Raise e => Raise e
        | Return (JStr sy) =>
            let symbol := strip (upper sy) in
            if String.eqb symbol "" then Raise (ValueError "Missing symbol")
            else
              (* Extract quantity *)
              match py_get data "quantity" JNull with
              | Raise e => Raise e
              | Return JNull => Raise (ValueError "Missing quantity")
              | Return quantity =>
                  match py_int quantity with
                  | Return q =>
                      if q <=? 0
                      then Raise (ValueError ("Invalid quantity: " ++ py_str quantity))
                      else
                        (* Extract optional price *)
                        let price_result :=
                          match py_get data "price" JNull with
                          | Raise e => Raise e
                          | Return JNull => Return None
                          | Return price =>
                              match py_float price with
                              | Return x => Return (Some x)
                              | Raise (ValueError _) | Raise TypeError =>
                                  Raise (ValueError ("Invalid price: " ++ py_str price))
                              | Raise e => Raise e
                              end
                          end in
                        match price_result with
                        | Raise e => Raise e
                        | Return price =>
                            let message :=
                              match py_get data "message" (JStr "") with
                              | Return m => py_str m
                              | Raise _ => ""
                              end in
                            (* Extract optional timestamp *)
                            match py_get data "timestamp" JNull with
                            | Raise e => Raise e
                            | Return ts =>
                                if json_truthy ts then
                                  match ts with
                                  | JStr t =>
                                      Return (mk_parsed action symbol q price message
                                                (if fromisoformat_ok (replace_Z t)
                                                 then t else utcnow_iso) data)
                                  | _ => Raise AttributeError
                                  end
                                else
                                  Return (mk_parsed action symbol q price message
                                            utcnow_iso data)
                            end
                        end
                  | Raise (ValueError _) | Raise TypeError =>
                      Raise (ValueError ("Invalid quantity: " ++ py_str quantity))
                  | Raise e => Raise e
                  end
              end
        | Return _ => Raise AttributeError
        end
      else Raise (ValueError ("Invalid or missing action: " ++ action))
  | Return _ => Raise AttributeError
  end.

(** The Flask request, as far as the handler reads it. *)
Record Request : Type := mk_request {
  remote_addr : string;
  is_json : bool;
  get_json : World.res json;          (* [request.get_json()] may raise *)
  x_signature : option string
}.

(** How a call of the alert callback ends. *)
Inductive Outcome : Type :=
| Returned
| Raised.

Record WebhookServer : Type := mk_server {
  secret : string;
  allowed_ips : list string;
  alert_callback : option (json -> Outcome)
}.

Inductive Body : Type :=
| ErrorBody (error : string)
| StatusBody (status message : string).

Definition Response : Type := (Body * Z)%type.

Definition startswith (pre s : string) : bool := String.prefix pre s.

Definition _verify_signature (self : WebhookServer) (payload : string)
    (signature : option string) : bool :=
  match signature with
  | None => false
  | Some signature =>
      if String.eqb signature "" then false
      else if negb (startswith "sha256=" signature) then false
      else
        let expected_signature :=
          String.substring 7 (String.length signature - 7) signature in
        let calculated_signature := hmac_sha256_hex (secret self) payload in
        String.eqb expected_signature calculated_signature
  end.

(** The [/webhook] route. *)
Definition webhook (self : WebhookServer) (request : Request) : Response :=
  if negb (match allowed_ips self with [] => true | _ => false end)
     && negb (str_in (remote_addr request) (allowed_ips self))
  then (ErrorBody "Unauthorized IP", 403)
  else if negb (is_json request)
  then (ErrorBody "Content-Type must be application/json", 400)
  else
    match get_json request with
    | World.Exc => (ErrorBody "Internal server error", 500)
    | World.Ok data =>
        if negb (json_truthy data) then (ErrorBody "Empty JSON data", 400)
        else if negb (String.eqb (secret self) "")
                && negb (_verify_signature self (json_dumps data) (x_signature request))
        then (ErrorBody "Invalid signature", 403)
        else
          match alert_callback self with
          | Some callback =>
              match callback data with
              | Returned => (StatusBody "success" "Alert processed", 200)
              | Raised => (ErrorBody "Failed to process alert", 500)
              end
          | None => (ErrorBody "No alert processor configured", 500)
          end
    end.

(** [TradingBot._process_alert]: the callback trading_bot.py hands to the
    server.  Its body is one [try] whose [except Exception] returns an error
    dictionary, so every path returns.  [engine] stands for
    [asyncio.run(self.trading_engine.process_alert(parsed_alert))], which
    yields a [bool]; subscripting it ([result['success']]) raises TypeError
    inside the [try]. *)
Definition _process_alert (engine : ParsedAlert -> bool) (alert_data : json)
    : string * string :=
  match parse_alert alert_data with
  | Raise (ValueError msg) => ("error", "Exception processing alert: " ++ msg)%string
  | Raise _ => ("error", "Exception processing alert")
  | Return parsed_alert =>
      let result := engine parsed_alert in
      ("error", "Exception processing alert: 'bool' object is not subscriptable")
  end.

Definition bot_callback (engine : ParsedAlert -> bool) (alert_data : json) : Outcome :=
  let _ := _process_alert engine alert_data in Returned.

End Builtins.

End Webhook.

(** ** src/order_manager.py: OrderMonitor *)

Module Monitor.
Import Py.

Record OrderRecord : Type := mk_record {
  order_id : string;
  symbol : string;
  action : string;
  quantity : Z;
  order_type : string;
  price : option pyfloat;
  placed_time : option Z;
  status : string;
  fill_time : option Z;
  fill_price : option pyfloat;
  resubmission_count : Z
}.

Record OrderStats : Type := mk_stats {
  total_orders : Z;
  filled_orders : Z;
  cancelled_orders : Z;
  rejected_orders : Z;
  resubmitted_orders : Z;
  avg_fill_time_seconds : pyfloat
}.

Record OrderMonitor : Type := mk_monitor {
  order_stats : OrderStats;
  order_history : list OrderRecord;
  max_history_size : nat
}.

(** [OrderMonitor()] *)
Definition new_monitor : OrderMonitor :=
  mk_monitor (mk_stats 0 0 0 0 0 (Fin 0)) [] 1000.

(** A method returns, or raises ZeroDivisionError; either way the monitor is
    left as the method had made it by then. *)
Inductive outcome : Type :=
| Done (m : OrderMonitor)
| ZeroDivisionError (m : OrderMonitor).

Definition _add_to_history (self : OrderMonitor) (record : OrderRecord) : OrderMonitor :=
  let history := (order_history self ++ [record])%list in
  mk_monitor (order_stats self)
    (if (max_history_size self <? length history)%nat
     then skipn (length history - max_history_size self) history
     else history)
    (max_history_size self).

Definition record_order_placed (self : OrderMonitor) (now : Z)
    (order_id symbol action : string) (quantity : Z) (order_type : string)
    (price : option pyfloat) : OrderMonitor :=
  let order_record :=
    mk_record order_id symbol action quantity order_type price (Some now)
      "placed" None None 0 in
  let self := _add_to_history self order_record in
  let st := order_stats self in
  mk_monitor
    (mk_stats (total_orders st + 1) (filled_orders st) (cancelled_orders st)
       (rejected_orders st) (resubmitted_orders st) (avg_fill_time_seconds st))
    (order_history self) (max_history_size self).

(** The divisor of [_update_avg_fill_time]: the filled-orders counter as it
    stands when the method is entered. *)
Definition fill_time_divisor (self : OrderMonitor) : Z :=
  filled_orders (order_stats self).

(** [_update_avg_fill_time]; [None] is ZeroDivisionError. *)
Definition _update_avg_fill_time (self : OrderMonitor) (fill_duration_seconds : pyfloat)
    : option OrderMonitor :=
  let filled_count := filled_orders (order_stats self) in
  let current_avg := avg_fill_time_seconds (order_stats self) in
  match fdiv_int (fadd (fmul current_avg (of_int (filled_count - 1)))
                    fill_duration_seconds) filled_count with
  | Some new_avg =>
      let st := order_stats self in
      Some (mk_monitor
              (mk_stats (total_orders st) (filled_orders st) (cancelled_orders st)
                 (rejected_orders st) (resubmitted_orders st) new_avg)
              (order_history self) (max_history_size self))
  | None => None
  end.

(** [(fill_time - placed_time).total_seconds()] *)
Definition total_seconds (microseconds : Z) : pyfloat :=
  Fin (inject_Z microseconds / 1000000).

Definition mark_filled (record : OrderRecord) (fill_price : pyfloat) (fill_time : Z)
    : OrderRecord :=
  mk_record (order_id record) (symbol record) (action record) (quantity record)
    (order_type record) (price record) (placed_time record) "filled"
    (Some fill_time) (Some fill_price) (resubmission_count record).

(** The loop of [record_order_filled] over [reversed(self.order_history)]:
    [rev_rest] are the records still to visit, newest first, and [later]
    those already passed over, in history order. *)
Fixpoint find_and_fill (self : OrderMonitor) (oid : string) (fill_price : pyfloat)
    (fill_time : Z) (later rev_rest : list OrderRecord) : outcome :=
  match rev_rest with
  | [] => Done self
  | record :: older =>
      if String.eqb (order_id record) oid then
        let record' := mark_filled record fill_price fill_time in
        let self' := mk_monitor (order_stats self)
                       (rev older ++ record' :: later)
                       (max_history_size self) in
        match placed_time record' with
        | Some placed =>
            match _update_avg_fill_time self' (total_seconds (fill_time - placed)) with
            | Some self'' => Done self''
            | None => ZeroDivisionError self'
            end
        | None => Done self'
        end
      else find_and_fill self oid fill_price fill_time (record :: later) older
  end.

Definition record_order_filled (self : OrderMonitor) (oid : string)
    (fill_price : pyfloat) (fill_time : Z) : outcome :=
  match find_and_fill self oid fill_price fill_time [] (rev (order_history self)) with
  | Done self' =>
      let st := order_stats self' in
      Done (mk_monitor
              (mk_stats (total_orders st) (filled_orders st + 1) (cancelled_orders st)
                 (rejected_orders st) (resubmitted_orders st)
                 (avg_fill_time_seconds st))
              (order_history self') (max_history_size self'))
  | ZeroDivisionError self' => ZeroDivisionError self'
  end.

End Monitor.

(** ** src/market_hours.py: the session predicates *)

Module SessionQueries.
Import MarketHours.

Section Queries.
Context {instant : Type} (to_eastern : instant -> local_datetime).

(** [session in [...]] *)
Definition session_in (s : MarketSession) (l : list MarketSession) : bool :=
  existsb (session_eqb s) l.

Definition is_market_open (mh : MarketHours) (dt : instant) : bool :=
  session_eqb (get_current_session to_eastern mh dt) MARKET.

Definition is_extended_hours (mh : MarketHours) (dt : instant) : bool :=
  let session := get_current_session to_eastern mh dt in
  session_in session [PRE_MARKET; POST_MARKET].

Definition is_trading_allowed (mh : MarketHours) (dt : instant) : bool :=
  let session := get_current_session to_eastern mh dt in
  session_in session [PRE_MARKET; MARKET; POST_MARKET].

Definition should_use_limit_order (mh : MarketHours) (dt : instant) : bool :=
  let session := get_current_session to_eastern mh dt in
  session_in session [PRE_MARKET; POST_MARKET].

Definition should_use_market_order (mh : MarketHours) (dt : instant) : bool :=
  session_eqb (get_current_session to_eastern mh dt) MARKET.

End Queries.

End SessionQueries.

(** ** src/order_manager.py: the other records and queries of OrderMonitor *)

Module MonitorQueries.
Import Py Monitor.

(** [l[start:]] for an int [start], as [slice.indices] resolves it: a
    negative start counts from the end, and both ends are clipped. *)
Definition slice_from {A} (start : Z) (l : list A) : list A :=
  let len := Z.of_nat (length l) in
  let i := if start <? 0 then Z.max (start + len) 0 else Z.min start len in
  skipn (Z.to_nat i) l.

Definition mark_cancelled (record : OrderRecord) : OrderRecord :=
  mk_record (order_id record) (symbol record) (action record) (quantity record)
    (order_type record) (price record) (placed_time record) "cancelled"
    (fill_time record) (fill_price record) (resubmission_count record).

(** The loop of [record_order_cancelled] over [reversed(self.order_history)];
    the arguments are those of [find_and_fill].  The result is the history. *)
Fixpoint find_and_cancel (oid : string) (later rev_rest : list OrderRecord)
    : list OrderRecord :=
  match rev_rest with
  | [] => later
  | record :: older =>
      if String.eqb (order_id record) oid
      then (rev older ++ mark_cancelled record :: later)%list
      else find_and_cancel oid (record :: later) older
  end.

Definition record_order_cancelled (self : OrderMonitor) (oid : string) : OrderMonitor :=
  let history := find_and_cancel oid [] (rev (order_history self)) in
  let st := order_stats self in
  mk_monitor
    (mk_stats (total_orders st) (filled_orders st) (cancelled_orders st + 1)
       (rejected_orders st) (resubmitted_orders st) (avg_fill_time_seconds st))
    history (max_history_size self).

Definition get_recent_orders (self : OrderMonitor) (limit : Z) : list OrderRecord :=
  match order_history self with
  | [] => []
  | _ => slice_from (- limit) (order_history self)
  end.

(** The loop of [_count_orders_in_period] over the history, newest first;
    [None] is the TypeError of comparing a missing [placed_time] with a
    datetime. *)
Fixpoint count_from_newest (cutoff_time : Z) (count : nat)
    (rev_history : list OrderRecord) : option nat :=
  match rev_history with
  | [] => Some count
  | record :: older =>
      match placed_time record with
      | None => None
      | Some placed =>
          if cutoff_time <=? placed
          then count_from_newest cutoff_time (count + 1) older
          else Some count
      end
  end.

(** [_count_orders_in_period]; [now] is [datetime.utcnow()] and a
    [timedelta(hours=1)] is 3 600 000 000 microseconds. *)
Definition _count_orders_in_period (self : OrderMonitor) (now : Z) (hours : Z)
    : option nat :=
  let cutoff_time := now - hours * 3600000000 in
  count_from_newest cutoff_time 0 (rev (order_history self)).

End MonitorQueries.

(** * The vocabulary of the statements *)

Local Open Scope list_scope.
#[local] Set Warnings "-clear-no-such-hyp".

(** ** Sessions *)

(** [t] lies in the half-open interval from [lo] to [hi]. *)
Definition within (lo hi t : MarketHours.time) : bool :=
  MarketHours.time_le lo t && MarketHours.time_lt t hi.

(** The order the specification assumes of the four boundaries. *)
Definition boundaries_ordered (mh : MarketHours.MarketHours) : Prop :=
  MarketHours.time_lt (MarketHours.pre_market_start mh) (MarketHours.market_open mh)
  = true /\
  MarketHours.time_lt (MarketHours.market_open mh) (MarketHours.market_close mh)
  = true /\
  MarketHours.time_lt (MarketHours.market_close mh) (MarketHours.post_market_end mh)
  = true.

(** The tradability and order type the specification gives per session. *)
Definition policy_as_stated (m : MarketHours.TradingSessionManager)
    (s : MarketHours.MarketSession) : bool * option string :=
  match s with
  | MarketHours.MARKET => (true, Some "MKT")
  | MarketHours.PRE_MARKET => (MarketHours.enable_pre_market m, Some "LMT")
  | MarketHours.POST_MARKET => (MarketHours.enable_post_market m, Some "LMT")
  | MarketHours.CLOSED => (false, None)
  end.

(** The same with no order type for a disabled extended session. *)
Definition policy (m : MarketHours.TradingSessionManager)
    (s : MarketHours.MarketSession) : bool * option string :=
  match s with
  | MarketHours.MARKET => (true, Some "MKT")
  | MarketHours.PRE_MARKET =>
      (MarketHours.enable_pre_market m,
       if MarketHours.enable_pre_market m then Some "LMT" else None)
  | MarketHours.POST_MARKET =>
      (MarketHours.enable_post_market m,
       if MarketHours.enable_post_market m then Some "LMT" else None)
  | MarketHours.CLOSED => (false, None)
  end.

(** ** Signals *)

(** The four business actions of a signal and the transition table of the
    specification. *)
Module Signal.

Inductive Action : Type :=
| BUY
| SELL
| SHORT
| COVER.

Definition name (a : Action) : string :=
  match a with
  | BUY => "BUY"
  | SELL => "SELL"
  | SHORT => "SHORT"
  | COVER => "COVER"
  end.

Definition accepted (s : Engine.PositionState) (a : Action) : bool :=
  match s, a with
  | Engine.FLAT, BUY | Engine.FLAT, SHORT => true
  | Engine.LONG, SELL => true
  | Engine.SHORT, COVER => true
  | _, _ => false
  end.

End Signal.

(** ** Limit prices *)

(** The limit price as the specification words it: the quote times 1.001
    or 0.999 in exact decimal arithmetic, rounded to cents with banker's
    rounding. *)
Definition limit_buy (q : Q) : Q :=
  inject_Z (Py.round_half_even (q * (1 + (1 # 1000)) * 100)) / 100.

Definition limit_sell (q : Q) : Q :=
  inject_Z (Py.round_half_even (q * (1 - (1 # 1000)) * 100)) / 100.

(** The doubles: the numbers m x 2^e with |m| < 2^53 and
    -1074 <= e <= 971. *)
Definition is_double (d : Q) : Prop :=
  exists m e : Z,
    Z.abs m < 2 ^ 53 /\ -1074 <= e <= 971 /\ (d == inject_Z m * Float64.pow2 e)%Q.

(** The buffered quote, before any rounding. *)
Definition buffered (side : string) (q : Q) : Q :=
  if String.eqb side "BUY" then q * (1 + (1 # 1000)) else q * (1 - (1 # 1000)).

(** The doubles [1 + 0.001] and [1 - 0.001] the code multiplies by. *)
Definition factor (side : string) : Q :=
  if String.eqb side "BUY" then 2254051613498933 # 2251799813685248
  else 8998192055486251 # 9007199254740992.

(** The whole number of cents the limit price of a quote stands for. *)
Definition limit_cents (side : string) (q : Q) : Z :=
  Py.round_half_even (Float64.RN (q * factor side) * 100).

(** The limit price as the client puts it on the order: a price of zero
    is false in Python and leaves the order without one. *)
Definition price_on_order (limit : Py.pyfloat) : option Py.pyfloat :=
  if Py.truthy limit then Some limit else None.

(** ** The tracker *)

(** How many accepted placements the trace holds for the PendingOrder
    object at address [a]. *)
Definition is_placement (a : nat) (c : World.IBCall) : bool :=
  match c with
  | World.PlaceOrder (Some b) _ _ true => Nat.eqb b a
  | _ => false
  end.

Definition placed (a : nat) (trace : list World.IBCall) : nat :=
  length (List.filter (is_placement a) trace).

Definition placed_for {W} (s : Engine.Sys W) (a : nat) : nat :=
  placed a (World.calls (Engine.env s)).

(** Client code that places no order. *)
Definition quiet {W A} (m : @IBKR.M W A) : Prop :=
  forall (e : World.Env W) a,
    placed a (World.calls (snd (m e))) = placed a (World.calls e).

(** Two states that agree on what the tracker's invariants read: the object
    store, the dictionary and the placement counts. *)
Record same_core {W} (s s' : Engine.Sys W) : Prop := mk_same_core {
  same_objects : Engine.objects s' = Engine.objects s;
  same_pending : Engine.pending_orders s' = Engine.pending_orders s;
  same_placed : forall a, placed_for s' a = placed_for s a
}.

(** [post m s Q]: running [m] from [s] ends in a result and a state that
    satisfy [Q]. *)
Definition post {W A} (m : @Engine.E W A) (s : Engine.Sys W)
    (Q : A -> Engine.Sys W -> Prop) : Prop :=
  Q (fst (m s)) (snd (m s)).

(** Engine code that leaves the core alone. *)
Definition core_quiet {W A} (m : @Engine.E W A) : Prop :=
  forall s, same_core s (snd (m s)).

(** The dictionary is well formed: one entry per key, and every key is the
    [trade_id] of the object it leads to. *)
Record tracked_ok {W} (s : Engine.Sys W) : Prop := mk_tracked_ok {
  keys_nodup : NoDup (Engine.pending_orders s).*1;
  keys_are_ids :
    forall k a, (k, a) ∈ Engine.pending_orders s ->
                exists po, Engine.objects s !! a = Some po /\ Engine.trade_id po = k
}.

(** Since when a pending order has been waiting: its last resubmission,
    or its submission when it has never been resubmitted. *)
Definition idle_since (po : Engine.PendingOrder) : Z :=
  match Engine.last_resubmission po with
  | Some t => t
  | None => Engine.submitted_time po
  end.

(** The idle timeout of the order has elapsed at [now]: times are in
    microseconds, the configured timeout in minutes. *)
Definition timed_out (cfg : Engine.Config) (now : Z) (po : Engine.PendingOrder)
    : Prop :=
  Engine.limit_order_timeout cfg * 60000000 <= now - idle_since po.

(** The order has resubmissions left. *)
Definition below_cap (cfg : Engine.Config) (po : Engine.PendingOrder) : Prop :=
  Engine.resubmission_count po < Engine.max_resubmissions cfg.

(** The object after a successful replace. *)
Definition resubmitted (po : Engine.PendingOrder) (new_id : string) (now : Z)
    : Engine.PendingOrder :=
  Engine.mk_pending new_id (Engine.po_symbol po) (Engine.po_action po)
    (Engine.po_quantity po) (Engine.original_price po) (Engine.submitted_time po)
    (Engine.resubmission_count po + 1) (Some now).

(** What one call of [_resubmit_order] does to the core: nothing, or one
    accepted placement for the object, which is updated in place and
    re-keyed (unless its old key is gone, in which case [del] raises and the
    dictionary stays as it is). *)
Inductive resubmit_effect {W} (a : nat) (s s' : Engine.Sys W) : Prop :=
| effect_none : same_core s s' -> resubmit_effect a s s'
| effect_replaced (po : Engine.PendingOrder) (new_id : string) (now : Z) :
    Engine.objects s !! a = Some po ->
    Engine.objects s' = <[a := resubmitted po new_id now]> (Engine.objects s) ->
    Engine.pending_orders s'
    = (if Py.dict_mem (Engine.pending_orders s) (Engine.trade_id po)
       then Py.dict_set (Py.dict_del (Engine.pending_orders s) (Engine.trade_id po))
              new_id a
       else Engine.pending_orders s) ->
    (forall b, placed_for s' b
               = (placed_for s b + if Nat.eqb a b then 1 else 0)%nat) ->
    resubmit_effect a s s'.

(** Every object has been placed once more than it has been resubmitted,
    and never beyond the cap. *)
Record counted {W} (cfg : Engine.Config) (s : Engine.Sys W) : Prop := mk_counted {
  counted_objects :
    forall a po, Engine.objects s !! a = Some po ->
                 Z.of_nat (placed_for s a) = Engine.resubmission_count po + 1
                 /\ 0 <= Engine.resubmission_count po <= Engine.max_resubmissions cfg;
  counted_fresh :
    forall a, (length (Engine.objects s) <= a)%nat -> placed_for s a = 0%nat
}.

Definition Inv {W} (cfg : Engine.Config) (s : Engine.Sys W) : Prop :=
  tracked_ok s /\ counted cfg s.

(** ** The webhook *)

(** A request that passes the IP filter, carries non-empty JSON and, when a
    secret is configured, a valid signature. *)
Definition authenticated (json_dumps : Webhook.json -> string)
    (hmac_sha256_hex : string -> string -> string)
    (self : Webhook.WebhookServer) (request : Webhook.Request) (data : Webhook.json)
    : Prop :=
  (Webhook.allowed_ips self = []
   \/ Py.str_in (Webhook.remote_addr request) (Webhook.allowed_ips self) = true) /\
  Webhook.is_json request = true /\
  Webhook.get_json request = World.Ok data /\
  Webhook.json_truthy data = true /\
  (Webhook.secret self = ""
   \/ Webhook._verify_signature hmac_sha256_hex self (json_dumps data)
        (Webhook.x_signature request) = true).

(** ** Scenarios *)

(** The default boundaries of the configuration: 04:00, 09:30, 16:00, 20:00. *)
Definition default_hours : MarketHours.MarketHours :=
  MarketHours.mk_hours (MarketHours.mk_time 4 0 0 0) (MarketHours.mk_time 9 30 0 0)
    (MarketHours.mk_time 16 0 0 0) (MarketHours.mk_time 20 0 0 0).

Definition tuesday_5am : MarketHours.local_datetime :=
  MarketHours.mk_local 1 (MarketHours.mk_time 5 0 0 0).

Definition pre_market_manager : MarketHours.TradingSessionManager :=
  MarketHours.mk_manager default_hours true true.

Definition regular_decision : MarketHours.TradingDecision :=
  MarketHours.mk_decision
    (MarketHours.mk_info "market" true false true false) true (Some "MKT")
    "Regular market hours - using market orders".

Definition quiet_ticker : World.Ticker :=
  World.mk_ticker (Py.Fin 150) (Py.Fin 149) (Py.Fin 151) (Py.Fin 150).

(** A gateway that answers every call the same way: it qualifies every
    symbol, is connected, quotes [ticker], reports no position and no open
    order, and accepts every order under the id [next_id]. *)
Definition steady_gateway (ticker : World.Ticker) (next_id : Z)
    (now : Z) (local : MarketHours.local_datetime) : World.Gateway unit :=
  World.mk_gateway unit
    (fun symbol w => (World.Ok [World.mk_contract symbol 1], w))
    (fun _ w => (World.Ok ticker, w))
    (fun _ w => (World.Ok tt, w))
    (fun w => (true, w))
    (fun c o w =>
       (World.Ok (World.mk_trade c
                    (World.mk_order next_id (World.action o) (World.totalQuantity o)
                       (World.orderType o) (World.account o) (World.lmtPrice o))
                    "Submitted"), w))
    (fun _ w => (World.Ok tt, w))
    (fun w => (World.Ok [], w))
    (fun w => (World.Ok [], w))
    (fun w => (now, w))
    (fun w => (local, w)).

(** The configuration defaults of [TradingEngine.__init__]. *)
Definition default_config : Engine.Config := Engine.mk_config 100 1000 5 3 "DU1".

(** Limit orders that time out at once, so that every sweep replaces the
    tracked order until the cap stops it. *)
Definition eager_config : Engine.Config := Engine.mk_config 100 1000 0 3 "DU1".

Definition buy_then_sweeps : list Engine.Op :=
  [Engine.OpAlert (Engine.mk_alert "AAPL" "buy" (Some 100));
   Engine.OpSweep; Engine.OpSweep; Engine.OpSweep; Engine.OpSweep; Engine.OpSweep].

(** An order that has used up its three resubmissions and has been idle for
    ten thousand seconds, with the default five-minute timeout (scenario S2
    of the specification at its end). *)
Definition exhausted_order : Engine.PendingOrder :=
  Engine.mk_pending "7" "MSFT" "sell" 50 (Some (Py.Fin (30969 # 100))) 0 3 (Some 0).

Definition exhausted_state : Engine.Sys unit :=
  Engine.mk_sys (World.mk_env tt [] []) ∅ [exhausted_order] [("7", 0%nat)] [].

Definition late_gateway : World.Gateway unit :=
  steady_gateway quiet_ticker 8 10000000000 tuesday_5am.

(** {"action": "hold", "symbol": "AAPL", "quantity": 100} *)
Definition hold_alert : Webhook.json :=
  Webhook.JObj [("action", Webhook.JStr "hold"); ("symbol", Webhook.JStr "AAPL");
                ("quantity", Webhook.JInt 100)].

Definition hold_request : Webhook.Request :=
  Webhook.mk_request "10.0.0.1" true (World.Ok hold_alert) None.

(** A server without secret or IP list, wired to the bot's callback. *)
Definition open_server : Webhook.WebhookServer :=
  Webhook.mk_server "" []
    (Some (Webhook.bot_callback (fun _ => None) (fun _ => None) (fun _ => "")
             (fun _ => false) "" (fun _ => true))).

(** The same server with a callback that parses the alert and lets the
    parser's exception escape. *)
Definition strict_server : Webhook.WebhookServer :=
  Webhook.mk_server "" []
    (Some (fun data =>
             match Webhook.parse_alert (fun _ => None) (fun _ => None) (fun _ => "")
                     (fun _ => false) "" data with
             | Webhook.Return _ => Webhook.Returned
             | Webhook.Raise _ => Webhook.Raised
             end)).

(** ** Histories *)

(** A history whose records all carry their placement time, oldest first. *)
Fixpoint chronological (h : list Monitor.OrderRecord) : Prop :=
  match h with
  | [] => True
  | r :: rest =>
      (exists t, Monitor.placed_time r = Some t /\
                 forall r' t', r' ∈ rest -> Monitor.placed_time r' = Some t' -> t <= t')
      /\ chronological rest
  end.

(** The records placed at or after [cutoff]. *)
Definition placed_since (cutoff : Z) (h : list Monitor.OrderRecord)
    : list Monitor.OrderRecord :=
  List.filter (fun r => match Monitor.placed_time r with
                        | Some t => cutoff <=? t
                        | None => false
                        end) h.

(** ** Books and gateway calls *)

(** Two states that differ at most in the environment: the world, the
    trace of gateway calls and the log. *)
Record same_books {W} (s s' : Engine.Sys W) : Prop := mk_same_books {
  books_positions : Engine.positions s' = Engine.positions s;
  books_objects : Engine.objects s' = Engine.objects s;
  books_pending : Engine.pending_orders s' = Engine.pending_orders s;
  books_tasks : Engine.tasks s' = Engine.tasks s
}.

(** The gateway calls [s'] has on top of those of [s]. *)
Definition added_calls {W} (s s' : Engine.Sys W) (added : list World.IBCall) : Prop :=
  World.calls (Engine.env s') = World.calls (Engine.env s) ++ added.

(** The orders the gateway accepted, whoever they were for. *)
Definition is_accepted (c : World.IBCall) : bool :=
  match c with
  | World.PlaceOrder _ _ _ true => true
  | _ => false
  end.

Definition accepted_orders (trace : list World.IBCall) : nat :=
  length (List.filter is_accepted trace).

(** What the executor asks the gateway before it places an order: the
    qualification and, for a limit order, the quote and its release. *)
Definition approach (symbol : string) (limit : bool) (c : World.Contract)
    : list World.IBCall :=
  World.QualifyContracts symbol
  :: (if limit then [World.ReqMktData c; World.CancelMktData c] else []).

(** The order the executor hands to the client for a signal. *)
Definition order_sent (cfg : Engine.Config) (action : string) (quantity : Z)
    (order_type : option string) (o : World.Order) : Prop :=
  World.action o = Py.upper (Engine._convert_action_to_ibkr action)
  /\ World.totalQuantity o = quantity
  /\ World.orderType o = order_type
  /\ World.account o = Engine.client_account cfg.

(** The PendingOrder object of a fresh limit order. *)
Definition fresh_pending (symbol action : string) (quantity : Z)
    (po : Engine.PendingOrder) : Prop :=
  Engine.po_symbol po = symbol
  /\ Engine.po_action po = action
  /\ Engine.po_quantity po = quantity
  /\ Engine.resubmission_count po = 0
  /\ Engine.last_resubmission po = None
  /\ exists market_price,
       Engine.original_price po
       = Some (Engine.execute_limit_price (Engine._convert_action_to_ibkr action)
                 market_price).

(** The ways one run of the executor can go: its result and the gateway
    calls it makes, in order, with what happens to the books. *)
Inductive execution {W} (cfg : Engine.Config) (symbol action : string) (quantity : Z)
    (order_type : option string) (s s' : Engine.Sys W)
    : bool -> list World.IBCall -> Prop :=
| exec_rejected :
    same_books s s' ->
    execution cfg symbol action quantity order_type s s' false
      [World.QualifyContracts symbol]
| exec_unpriced (c : World.Contract) :
    Engine.is_limit order_type = true ->
    same_books s s' ->
    execution cfg symbol action quantity order_type s s' false (approach symbol true c)
| exec_offline (c : World.Contract) :
    same_books s s' ->
    execution cfg symbol action quantity order_type s s' false
      (approach symbol (Engine.is_limit order_type) c ++ [World.IsConnected])
| exec_refused (c : World.Contract) (o : World.Order) :
    same_books s s' ->
    order_sent cfg action quantity order_type o ->
    (Engine.is_limit order_type = false -> World.lmtPrice o = None) ->
    execution cfg symbol action quantity order_type s s' false
      (approach symbol (Engine.is_limit order_type) c
       ++ [World.IsConnected;
           World.PlaceOrder (if Engine.is_limit order_type
                             then Some (length (Engine.objects s)) else None)
             c o false])
| exec_market (c : World.Contract) (o : World.Order) :
    Engine.is_limit order_type = false ->
    same_books s s' ->
    order_sent cfg action quantity order_type o ->
    World.lmtPrice o = None ->
    execution cfg symbol action quantity order_type s s' true
      (approach symbol false c ++ [World.IsConnected; World.PlaceOrder None c o true])
| exec_limit (c : World.Contract) (o : World.Order) (po : Engine.PendingOrder) :
    Engine.is_limit order_type = true ->
    order_sent cfg action quantity order_type o ->
    fresh_pending symbol action quantity po ->
    Engine.positions s' = Engine.positions s ->
    Engine.tasks s' = Engine.tasks s ->
    Engine.objects s' = Engine.objects s ++ [po] ->
    Engine.pending_orders s'
    = Py.dict_set (Engine.pending_orders s) (Engine.trade_id po)
        (length (Engine.objects s)) ->
    execution cfg symbol action quantity order_type s s' true
      (approach symbol true c
       ++ [World.IsConnected;
           World.PlaceOrder (Some (length (Engine.objects s))) c o true]).

(** A position record as [_update_position] writes it for [sym]: the state
    is FLAT exactly when the quantity is zero, and the quantity is never
    negative. *)
Definition well_formed_position (sym : string) (p : Engine.PositionInfo) : Prop :=
  Engine.symbol p = sym
  /\ 0 <= Engine.quantity p
  /\ (Engine.state p = Engine.FLAT <-> Engine.quantity p = 0).

Definition positions_ok {W} (s : Engine.Sys W) : Prop :=
  forall sym p, Engine.positions s !! sym = Some p -> well_formed_position sym p.

(** [s'] is [s] with the position of [sym] read afresh. *)
Record refreshed {W} (sym : string) (p : Engine.PositionInfo) (s s' : Engine.Sys W)
    : Prop := mk_refreshed {
  refreshed_positions : Engine.positions s' = <[sym := p]> (Engine.positions s);
  refreshed_objects : Engine.objects s' = Engine.objects s;
  refreshed_pending : Engine.pending_orders s' = Engine.pending_orders s;
  refreshed_tasks : Engine.tasks s' = Engine.tasks s
}.

(** The gateway calls of one position refresh. *)
Definition refresh_calls (calls : list World.IBCall) : Prop :=
  calls = [World.IsConnected] \/ calls = [World.IsConnected; World.Positions].

(** The ways the processing of one alert can go. *)
Inductive alert_run {W} (cfg : Engine.Config) (alert : Engine.Alert)
    (s s' : Engine.Sys W) : bool -> list World.IBCall -> Prop :=
| alert_not_tradable :
    same_books s s' ->
    alert_run cfg alert s s' false []
| alert_invalid (p : Engine.PositionInfo) (refresh : list World.IBCall) :
    refreshed (Engine.alert_symbol alert) p s s' ->
    well_formed_position (Engine.alert_symbol alert) p ->
    refresh_calls refresh ->
    Py.str_in (Py.upper (Engine.alert_action alert))
      (Engine.valid_transitions (Engine.state p)) = false ->
    alert_run cfg alert s s' false refresh
| alert_executed (p : Engine.PositionInfo) (refresh : list World.IBCall)
    (s1 : Engine.Sys W) (order_type : string) (ok : bool)
    (added : list World.IBCall) :
    refreshed (Engine.alert_symbol alert) p s s1 ->
    well_formed_position (Engine.alert_symbol alert) p ->
    refresh_calls refresh ->
    Py.str_in (Py.upper (Engine.alert_action alert))
      (Engine.valid_transitions (Engine.state p)) = true ->
    order_type = "MKT" \/ order_type = "LMT" ->
    execution cfg (Engine.alert_symbol alert) (Engine.alert_action alert)
      (match Engine.alert_quantity alert with
       | Some q => q
       | None => Engine.default_quantity cfg
       end) (Some order_type) s1 s' ok added ->
    alert_run cfg alert s s' ok (refresh ++ added).

(** Two PendingOrder records for the same intent: what was ordered, at
    what first price and when. *)
Definition same_intent (po po' : Engine.PendingOrder) : Prop :=
  Engine.po_symbol po' = Engine.po_symbol po
  /\ Engine.po_action po' = Engine.po_action po
  /\ Engine.po_quantity po' = Engine.po_quantity po
  /\ Engine.original_price po' = Engine.original_price po
  /\ Engine.submitted_time po' = Engine.submitted_time po.

(** The order the client builds for a limit price. *)
Definition limit_order (cfg : Engine.Config) (side : string) (quantity : Z)
    (limit : Py.pyfloat) : World.Order :=
  World.mk_order 0 (Py.upper side) quantity (Some "LMT") (Engine.client_account cfg)
    (price_on_order limit).

(** Whether the gateway answered with a value. *)
Definition is_ok {A} (r : World.res A) : bool :=
  match r with
  | World.Ok _ => true
  | World.Exc => false
  end.

(** The orders the gateway has working. *)
Definition working (t : World.Trade) : bool :=
  Py.str_in (World.tr_status t) ["Submitted"; "PreSubmitted"].

(** The open orders a listing yields in the world [w]: the working orders
    among those the gateway answers with; none when the client is
    disconnected or the gateway fails. *)
Definition listed_open {W} (ib : World.Gateway W) (w : W) : list World.Trade :=
  if fst (World.isConnected ib w)
  then match fst (World.openTrades ib (snd (World.isConnected ib w))) with
       | World.Ok ts => List.filter working ts
       | World.Exc => []
       end
  else [].

(** The gateway calls of that listing. *)
Definition listing {W} (ib : World.Gateway W) (w : W) : list World.IBCall :=
  if fst (World.isConnected ib w)
  then [World.IsConnected; World.OpenTrades]
  else [World.IsConnected].

(** The order a resubmission of [po] cancels: the first listed order that
    carries the id the object is filed under, if there is one. *)
Definition old_order (po : Engine.PendingOrder) (listed : list World.Trade)
    : option World.Trade :=
  List.find (fun t => String.eqb (Py.str_of_int (World.orderId (World.tr_order t)))
                        (Engine.trade_id po)) listed.

Definition cancellation (old : option World.Trade) : list World.IBCall :=
  match old with
  | Some t => [World.CancelOrder (World.tr_order t)]
  | None => []
  end.

(** The gateway calls of one resubmission of the object at address [a],
    in order, as the answers of the gateway determine them.  [e1], [e2]
    and [e4] are the environments after the qualification, after the quote
    and after the cancellation. *)
Inductive resubmission {W} (ib : World.Gateway W) (cfg : Engine.Config) (a : nat)
    (s : Engine.Sys W) : list World.IBCall -> Prop :=
| resub_missing :
    Engine.objects s !! a = None ->
    resubmission ib cfg a s []
| resub_unqualified (po : Engine.PendingOrder) (e1 : World.Env W) :
    Engine.objects s !! a = Some po ->
    IBKR.get_contract ib (Engine.po_symbol po) (Engine.env s) = (None, e1) ->
    resubmission ib cfg a s [World.QualifyContracts (Engine.po_symbol po)]
| resub_unpriced (po : Engine.PendingOrder) (c : World.Contract)
    (e1 e2 : World.Env W) :
    Engine.objects s !! a = Some po ->
    IBKR.get_contract ib (Engine.po_symbol po) (Engine.env s) = (Some c, e1) ->
    IBKR.get_market_price ib c e1 = (None, e2) ->
    resubmission ib cfg a s (approach (Engine.po_symbol po) true c)
| resub_attempted (po : Engine.PendingOrder) (c : World.Contract)
    (e1 e2 e4 : World.Env W) (market_price : Py.pyfloat) (old : option World.Trade)
    (o : World.Order) (placement : list World.IBCall) :
    Engine.objects s !! a = Some po ->
    IBKR.get_contract ib (Engine.po_symbol po) (Engine.env s) = (Some c, e1) ->
    IBKR.get_market_price ib c e1 = (Some market_price, e2) ->
    old = old_order po (listed_open ib (World.world e2)) ->
    e4 = match old with
         | Some t => snd (IBKR.cancel_order ib t (snd (IBKR.get_open_orders ib e2)))
         | None => snd (IBKR.get_open_orders ib e2)
         end ->
    o = limit_order cfg (Engine._convert_action_to_ibkr (Engine.po_action po))
          (Engine.po_quantity po)
          (Engine.resubmit_limit_price
             (Engine._convert_action_to_ibkr (Engine.po_action po)) market_price) ->
    placement
    = (if fst (World.isConnected ib (World.world e4))
       then [World.PlaceOrder (Some a) c o
               (is_ok (fst (World.placeOrder ib c o
                              (snd (World.isConnected ib (World.world e4))))))]
       else []) ->
    resubmission ib cfg a s
      (approach (Engine.po_symbol po) true c ++ listing ib (World.world e2)
       ++ cancellation old ++ World.IsConnected :: placement).

(** ** Further scenarios *)

Definition saturday_noon : MarketHours.local_datetime :=
  MarketHours.mk_local 5 (MarketHours.mk_time 12 0 0 0).

(** The steady gateway with the connection down. *)
Definition offline_gateway : World.Gateway unit :=
  World.mk_gateway unit
    (fun symbol w => (World.Ok [World.mk_contract symbol 1], w))
    (fun _ w => (World.Ok quiet_ticker, w))
    (fun _ w => (World.Ok tt, w))
    (fun w => (false, w))
    (fun c o w => (World.Ok (World.mk_trade c o "Submitted"), w))
    (fun _ w => (World.Ok tt, w))
    (fun w => (World.Ok [], w))
    (fun w => (World.Ok [], w))
    (fun w => (0, w))
    (fun w => (tuesday_5am, w)).

(** A connected gateway whose account is long 50 AAPL and holds a closed
    MSFT position. *)
Definition held_position : World.Position :=
  World.mk_position (World.mk_contract "AAPL" 1) 50 (Py.Fin 150).

Definition holding_gateway : World.Gateway unit :=
  World.mk_gateway unit
    (fun symbol w => (World.Ok [World.mk_contract symbol 1], w))
    (fun _ w => (World.Ok quiet_ticker, w))
    (fun _ w => (World.Ok tt, w))
    (fun w => (true, w))
    (fun c o w => (World.Ok (World.mk_trade c o "Submitted"), w))
    (fun _ w => (World.Ok tt, w))
    (fun w => (World.Ok [World.mk_position (World.mk_contract "MSFT" 2) 0 (Py.Fin 0);
                         held_position], w))
    (fun w => (World.Ok [], w))
    (fun w => (0, w))
    (fun w => (tuesday_5am, w)).

Definition fresh_env : World.Env unit := World.mk_env tt [] [].

Definition extended_decision : MarketHours.TradingDecision :=
  MarketHours.mk_decision
    (MarketHours.mk_info "pre_market" false true true false) true (Some "LMT")
    "Extended hours (pre_market) - using limit orders".

Definition buy_aapl : Engine.Alert := Engine.mk_alert "AAPL" "buy" (Some 100).

(** {"action": " Buy", "symbol": "aapl ", "quantity": 100} *)
Definition buy_alert : Webhook.json :=
  Webhook.JObj [("action", Webhook.JStr " Buy"); ("symbol", Webhook.JStr "aapl ");
                ("quantity", Webhook.JInt 100)].

(** {"action": "buy", "symbol": "AAPL", "quantity": 1e999} *)
Definition overflow_alert : Webhook.json :=
  Webhook.JObj [("action", Webhook.JStr "buy"); ("symbol", Webhook.JStr "AAPL");
                ("quantity", Webhook.JFloat (Webhook.Inf false))].

(** A monitor after two placements, at times 0 and 10 s. *)
Definition two_placements : Monitor.OrderMonitor :=
  Monitor.record_order_placed
    (Monitor.record_order_placed Monitor.new_monitor 0 "1" "AAPL" "BUY" 100 "MKT" None)
    10000000 "2" "MSFT" "SELL" 50 "LMT" (Some (Py.Fin 310)).

(** * Theorems *)

(** ** The session oracle (src/market_hours.py) *)

Section SessionOracle.
Import MarketHours.

Lemma lex_opp c k : CompOpp (lex c k) = lex (CompOpp c) (CompOpp k).
Proof. destruct c; reflexivity. Qed.

Lemma time_cmp_opp a b : time_cmp b a = CompOpp (time_cmp a b).
Proof.
  unfold time_cmp. rewrite !lex_opp, <- !Nat.compare_antisym. reflexivity.
Qed.

Lemma time_cmp_refl t : time_cmp t t = Eq.
Proof. unfold time_cmp. rewrite !Nat.compare_refl. reflexivity. Qed.

Ltac split_compare :=
  match goal with
  | |- context [Nat.compare ?x ?y] =>
      destruct (Nat.compare_spec x y); simpl; try discriminate; try lia
  | H : context [Nat.compare ?x ?y] |- _ =>
      destruct (Nat.compare_spec x y); simpl in H; try discriminate; try lia
  end.

Lemma time_cmp_lt_trans a b c :
  time_cmp a b = Lt -> time_cmp b c = Lt -> time_cmp a c = Lt.
Proof.
  unfold time_cmp, lex. intros Hab Hbc.
  repeat split_compare; reflexivity.
Qed.

Lemma time_lt_irrefl t : time_lt t t = false.
Proof. unfold time_lt. now rewrite time_cmp_refl. Qed.

Lemma time_le_refl t : time_le t t = true.
Proof. unfold time_le. now rewrite time_cmp_refl. Qed.

Lemma time_lt_not_le a b : time_lt a b = true -> time_le b a = false.
Proof.
  unfold time_lt, time_le. rewrite (time_cmp_opp a b).
  destruct (time_cmp a b); simpl; congruence.
Qed.

Lemma time_le_not_lt a b : time_le a b = true -> time_lt b a = false.
Proof.
  unfold time_lt, time_le. rewrite (time_cmp_opp a b).
  destruct (time_cmp a b); simpl; congruence.
Qed.

Lemma time_lt_trans a b c :
  time_lt a b = true -> time_lt b c = true -> time_lt a c = true.
Proof.
  unfold time_lt. intros Hab Hbc.
  rewrite (time_cmp_lt_trans a b c); [reflexivity | |].
  - destruct (time_cmp a b); congruence.
  - destruct (time_cmp b c); congruence.
Qed.

Lemma time_lt_asym a b : time_lt a b = true -> time_lt b a = false.
Proof.
  unfold time_lt. rewrite (time_cmp_opp a b).
  destruct (time_cmp a b); simpl; congruence.
Qed.

Context {instant : Type} (to_eastern : instant -> local_datetime).

(** C7. With the boundaries in order, an instant that falls on Saturday or
    Sunday in the exchange timezone is CLOSED; on the other days the session
    is PRE on [pre_start, open), REGULAR on [open, close), POST on
    [close, post_end) and CLOSED outside the three intervals, and each
    boundary instant belongs to the session that starts there. *)
Theorem session_at_half_open_intervals (mh : MarketHours) (dt : instant) :
  boundaries_ordered mh ->
  let d := to_eastern dt in
  let t := time_of d in
  let s := get_current_session to_eastern mh dt in
  (weekday d = 5%nat \/ weekday d = 6%nat -> s = CLOSED) /\
  ((weekday d < 5)%nat ->
   (within (pre_market_start mh) (market_open mh) t = true -> s = PRE_MARKET) /\
   (within (market_open mh) (market_close mh) t = true -> s = MARKET) /\
   (within (market_close mh) (post_market_end mh) t = true -> s = POST_MARKET) /\
   (within (pre_market_start mh) (market_open mh) t = false ->
    within (market_open mh) (market_close mh) t = false ->
    within (market_close mh) (post_market_end mh) t = false -> s = CLOSED) /\
   (t = pre_market_start mh -> s = PRE_MARKET) /\
   (t = market_open mh -> s = MARKET) /\
   (t = market_close mh -> s = POST_MARKET) /\
   (t = post_market_end mh -> s = CLOSED)).
Proof.
  intros (Hpo & Hoc & Hcp) d t s. subst s. unfold get_current_session.
  fold d. fold t. split.
  - intros [H | H]; rewrite H; reflexivity.
  - intros Hwd. replace (5 <=? weekday d)%nat with false
      by (symmetry; apply Nat.leb_gt; exact Hwd).
    unfold within.
    assert (Hpre_mkt : time_lt t (market_open mh) = true ->
                       time_le (market_open mh) t = false)
      by apply time_lt_not_le.
    assert (Hpre_post : time_lt t (market_open mh) = true ->
                        time_le (market_close mh) t = false)
      by (intros H; apply time_lt_not_le; exact (time_lt_trans _ _ _ H Hoc)).
    assert (Hmkt_post : time_lt t (market_close mh) = true ->
                        time_le (market_close mh) t = false)
      by apply time_lt_not_le.
    repeat split.
    + intros H. rewrite H. reflexivity.
    + intros H. apply andb_true_iff in H as [H1 H2].
      rewrite H1, H2, (time_le_not_lt _ _ H1).
      rewrite andb_false_r. reflexivity.
    + intros H. apply andb_true_iff in H as [H1 H2]. rewrite H1, H2.
      destruct (time_lt t (market_open mh)) eqn:E1.
      { rewrite (Hpre_post eq_refl) in H1. discriminate. }
      destruct (time_lt t (market_close mh)) eqn:E2.
      { rewrite (Hmkt_post eq_refl) in H1. discriminate. }
      rewrite !andb_false_r. reflexivity.
    + intros H1 H2 H3. rewrite H1, H2, H3. reflexivity.
    + intros ->. rewrite time_le_refl, Hpo. reflexivity.
    + intros ->. rewrite time_lt_irrefl, time_le_refl, Hoc, andb_false_r.
      reflexivity.
    + intros ->. rewrite (time_lt_asym _ _ Hoc), time_lt_irrefl, time_le_refl, Hcp.
      rewrite !andb_false_r. reflexivity.
    + intros ->.
      rewrite (time_lt_asym _ _ (time_lt_trans _ _ _ Hoc Hcp)),
        (time_lt_asym _ _ Hcp), time_lt_irrefl.
      rewrite !andb_false_r. reflexivity.
Qed.

(** C2, amended. For every instant the decision is: REGULAR gives
    (true, MKT); PRE gives (allow_pre, LMT when allow_pre and no order type
    otherwise); POST gives (allow_post, LMT when allow_post and no order
    type otherwise); CLOSED gives (false, none).  The order type is absent
    exactly when the decision is not tradable. *)
Theorem get_trading_decision_policy (m : TradingSessionManager) (dt : instant) :
  let d := get_trading_decision to_eastern m dt in
  (can_trade d, recommended_order_type d)
    = policy m (get_current_session to_eastern (market_hours m) dt)
  /\ (recommended_order_type d = None <-> can_trade d = false).
Proof.
  unfold get_trading_decision, can_trade_now, get_order_type, policy; simpl.
  destruct (get_current_session to_eastern (market_hours m) dt); simpl;
    try destruct (enable_pre_market m); try destruct (enable_post_market m);
    split; try reflexivity; split; congruence.
Qed.

End SessionOracle.


(** Tuesday 09:30:00: the opening bell belongs to the regular session. *)
Lemma session_at_half_open_intervals_witness :
  MarketHours.get_current_session id default_hours
    (MarketHours.mk_local 1 (MarketHours.mk_time 9 30 0 0)) = MarketHours.MARKET.
Proof.
  assert (Hord : boundaries_ordered default_hours) by (repeat split).
  destruct (session_at_half_open_intervals id default_hours
              (MarketHours.mk_local 1 (MarketHours.mk_time 9 30 0 0)) Hord)
    as [_ H].
  destruct H as (_ & _ & _ & _ & _ & H & _).
  - unfold id; simpl; lia.
  - apply H. reflexivity.
Defined.

(** C2 as stated fails: on Tuesday 05:00 with pre-market trading disabled
    the session is PRE, yet the decision carries no order type where the
    stated policy has LMT. *)
Lemma decision_pre_market_disabled_counterexample :
  let m := MarketHours.mk_manager default_hours false true in
  let dt := MarketHours.mk_local 1 (MarketHours.mk_time 5 0 0 0) in
  let d := MarketHours.get_trading_decision id m dt in
  MarketHours.get_current_session id default_hours dt = MarketHours.PRE_MARKET
  /\ MarketHours.recommended_order_type d = None
  /\ policy_as_stated m MarketHours.PRE_MARKET = (false, Some "LMT")
  /\ (MarketHours.can_trade d, MarketHours.recommended_order_type d)
       <> policy_as_stated m MarketHours.PRE_MARKET.
Proof. repeat split. discriminate. Qed.

(** ** The quote (src/ibkr_client.py) *)

Section Quote.
Import Py World.
Context {W : Type} (ib : Gateway W).





End Quote.



(** ** The action validator (src/trading_engine.py) *)


Section Validator.
Import Py World Engine.
Context {W : Type}.

(** C1. For every position state and every action, whatever its letter
    case, the validator accepts exactly the transitions of the table.  An
    accepted action leaves the engine as it was; a rejected one returns
    False to the caller and adds one error record naming the attempted
    transition, with positions, pending orders and the gateway untouched. *)
Theorem validate_sequential_action_table (position : PositionInfo)
    (a : Signal.Action) (text : string) (s : Sys W) :
  upper text = Signal.name a ->
  let r := _validate_sequential_action position text s in
  fst r = Signal.accepted (state position) a /\
  (fst r = true -> snd r = s) /\
  (fst r = false ->
   positions (snd r) = positions s /\
   objects (snd r) = objects s /\
   pending_orders (snd r) = pending_orders s /\
   tasks (snd r) = tasks s /\
   world (env (snd r)) = world (env s) /\
   calls (env (snd r)) = calls (env s) /\
   logs (env (snd r))
   = logs (env s)
     ++ [(ERROR, InvalidAction (Signal.name a) (state_value (state position))
                   (symbol position) (valid_transitions (state position)))]).
Proof.
  intros Hup r. subst r. unfold _validate_sequential_action. rewrite Hup.
  destruct (state position), a; simpl; repeat split; try discriminate;
    destruct s as [[w c l] p o d t]; reflexivity.
Qed.

End Validator.

(** A flat position and the lower-case action the parser hands over. *)
Lemma validate_sequential_action_table_witness :
  fst (Engine._validate_sequential_action
         (Engine.new_PositionInfo "AAPL" Engine.FLAT 0 (Py.Fin 0) 0) "buy"
         (Engine.init default_config tt))
  = true.
Proof.
  exact (proj1 (validate_sequential_action_table
                  (Engine.new_PositionInfo "AAPL" Engine.FLAT 0 (Py.Fin 0) 0)
                  Signal.BUY "buy" (Engine.init default_config tt) eq_refl)).
Defined.

(** ** The order executor *)

Section Executor.
Import Py World Engine.
Context {W : Type} (ib : Gateway W) (cfg : Config).

(** [get_contract] issues exactly one gateway call, the qualification. *)
Lemma get_contract_calls (symbol : string) (e : Env W) :
  calls (snd (IBKR.get_contract ib symbol e)) = calls e ++ [QualifyContracts symbol].
Proof.
  unfold IBKR.get_contract, IBKR.bind, IBKR.call, IBKR.oracle, IBKR.log, IBKR.ret.
  simpl. destruct (qualifyContractsAsync ib symbol (world e)) as [[[|c l]|] w];
    reflexivity.
Qed.

(** C3, amended. A signal whose quantity exceeds [max_position_size] is
    rejected without a quote request and without an order: the one gateway
    call the executor makes for it is the symbol qualification, which comes
    before the quantity check.  Nothing is tracked. *)
Theorem execute_trade_oversized (symbol action : string) (quantity : Z)
    (trading_decision : MarketHours.TradingDecision) (s : Sys W) :
  max_position_size cfg < quantity ->
  let r := _execute_trade ib cfg symbol action quantity trading_decision s in
  fst r = false /\
  calls (env (snd r)) = calls (env s) ++ [QualifyContracts symbol] /\
  objects (snd r) = objects s /\
  pending_orders (snd r) = pending_orders s /\
  positions (snd r) = positions s.
Proof.
  intros Hq r. subst r. unfold _execute_trade, bind, lift.
  pose proof (get_contract_calls symbol (env s)) as Hc.
  destruct (IBKR.get_contract ib symbol (env s)) as [[contract|] e]; simpl in *.
  - replace (max_position_size cfg <? quantity) with true
      by (symmetry; apply Z.ltb_lt; exact Hq).
    unfold log, lift, IBKR.log, ret; simpl. auto.
  - unfold log, lift, IBKR.log, ret; simpl. auto.
Qed.

End Executor.


(** C3 as stated fails: for BUY 5000 AAPL against a cap of 1000 the executor
    returns False, but only after it has sent the qualification to the
    gateway. *)
Lemma execute_trade_oversized_counterexample :
  let r := Engine._execute_trade (steady_gateway quiet_ticker 7 0 tuesday_5am)
             default_config "AAPL" "buy" 5000 regular_decision
             (Engine.init default_config tt) in
  fst r = false /\
  World.calls (Engine.env (snd r)) = [World.QualifyContracts "AAPL"].
Proof. split; reflexivity. Qed.

Lemma execute_trade_oversized_witness :
  let r := Engine._execute_trade (steady_gateway quiet_ticker 7 0 tuesday_5am)
             default_config "AAPL" "buy" 5000 regular_decision
             (Engine.init default_config tt) in
  fst r = false.
Proof.
  refine (proj1 (execute_trade_oversized (steady_gateway quiet_ticker 7 0 tuesday_5am)
                   default_config "AAPL" "buy" 5000 regular_decision
                   (Engine.init default_config tt) _)).
  simpl. lia.
Defined.

(** ** The limit price *)

Section LimitPrice.
Import Py Float64 Engine.
Local Open Scope Q_scope.

Lemma inject_Z_succ (n : Z) : inject_Z (n + 1) == inject_Z n + 1.
Proof. rewrite inject_Z_plus. reflexivity. Qed.

Lemma round_half_even_near (x : Q) :
  x - (1 # 2) <= inject_Z (round_half_even x) <= x + (1 # 2).
Proof.
  unfold round_half_even.
  pose proof (Qfloor_le x) as Hlo. pose proof (Qlt_floor x) as Hhi.
  rewrite inject_Z_succ in Hhi.
  destruct (Qcompare_spec (x - inject_Z (Qfloor x)) (1 # 2)) as [He | Hl | Hg].
  - destruct (Z.even (Qfloor x)); rewrite ?inject_Z_succ; lra.
  - lra.
  - rewrite inject_Z_succ. lra.
Qed.

Lemma round_half_even_ge (x : Q) (k : Z) :
  inject_Z k <= x -> (k <= round_half_even x)%Z.
Proof.
  intros H. unfold round_half_even.
  assert (Hk : (k <= Qfloor x)%Z).
  { rewrite <- (Qfloor_Z k). apply Qfloor_resp_le. exact H. }
  destruct (Qcompare _ _); [destruct (Z.even _) | |]; lia.
Qed.

Lemma round_half_even_le (x : Q) (k : Z) :
  x <= inject_Z k -> (round_half_even x <= k)%Z.
Proof.
  intros H. unfold round_half_even.
  pose proof (Qfloor_le x) as Hlo.
  assert (Hk : (Qfloor x <= k)%Z).
  { rewrite <- (Qfloor_Z k). apply Qfloor_resp_le. exact H. }
  destruct (Z.eq_dec (Qfloor x) k) as [-> | Hne].
  - assert (Hx : x - inject_Z k < 1 # 2) by lra.
    rewrite Qlt_alt in Hx. rewrite Hx. lia.
  - destruct (Qcompare _ _); [destruct (Z.even _) | |]; lia.
Qed.

Lemma pow2_pos (e : Z) : 0 < pow2 e.
Proof. apply Qpower_0_lt. reflexivity. Qed.

Lemma pow2_add (a b : Z) : pow2 (a + b) == pow2 a * pow2 b.
Proof. apply Qpower_plus. discriminate. Qed.

Lemma pow2_le (a b : Z) : (a <= b)%Z -> pow2 a <= pow2 b.
Proof. intros H. apply Qpower_le_compat_l; [exact H | discriminate]. Qed.

Lemma pow2_lt (a b : Z) : (a < b)%Z -> pow2 a < pow2 b.
Proof. intros H. apply Qpower_lt_compat_l; [exact H | reflexivity]. Qed.

Lemma pow2_Z (e : Z) : (0 <= e)%Z -> pow2 e == inject_Z (2 ^ e).
Proof. intros H. unfold pow2. rewrite Zpower_Qpower by exact H. reflexivity. Qed.

Lemma pow2_succ (e : Z) : pow2 (e + 1) == 2 * pow2 e.
Proof. rewrite pow2_add. change (pow2 1) with 2. ring. Qed.

Lemma pow2_pred (e : Z) : pow2 (e - 1) == pow2 e * (1 # 2).
Proof.
  replace e with ((e - 1) + 1)%Z at 2 by lia. rewrite pow2_succ. ring.
Qed.

(** The integer logarithm brackets a positive integer. *)
Lemma log2_bracket (n : Z) :
  (0 < n)%Z -> pow2 (Z.log2 n) <= inject_Z n /\ inject_Z n < pow2 (Z.log2 n + 1).
Proof.
  intros Hn. pose proof (Z.log2_nonneg n) as H0.
  destruct (Z.log2_spec n Hn) as [Hlo Hhi].
  rewrite !pow2_Z by lia. rewrite <- Zle_Qle, <- Zlt_Qlt.
  replace (Z.log2 n + 1)%Z with (Z.succ (Z.log2 n)) by lia. auto.
Qed.

Lemma floor_log2_spec (x : Q) :
  0 < x -> pow2 (floor_log2 x) <= x /\ x < pow2 (floor_log2 x + 1).
Proof.
  intros Hx. unfold floor_log2.
  destruct x as [n d]. 
  assert (Hn : (0 < n)%Z).
  { unfold Qlt in Hx. simpl in Hx. lia. }
  simpl Qnum. simpl Qden.
  set (a := Z.log2 n). set (b := Z.log2 (Z.pos d)).
  destruct (log2_bracket n Hn) as [Ha1 Ha2]. fold a in Ha1, Ha2.
  destruct (log2_bracket (Z.pos d) eq_refl) as [Hb1 Hb2]. fold b in Hb1, Hb2.
  assert (Hx' : n # d == inject_Z n / inject_Z (Z.pos d)) by apply Qmake_Qdiv.
  assert (Hd : 0 < inject_Z (Z.pos d)) by reflexivity.
  assert (Hxd : (n # d) * inject_Z (Z.pos d) == inject_Z n).
  { rewrite Hx'. field. intros H. rewrite H in Hd. inversion Hd. }
  assert (Hpa : pow2 a == pow2 (a - b) * pow2 b).
  { rewrite <- pow2_add. replace (a - b + b)%Z with a by lia. reflexivity. }
  pose proof (pow2_pos (a - b)) as Hp.
  pose proof (pow2_pos b) as Hpb.
  rewrite pow2_succ in Ha2, Hb2.
  (* upper: x < 2^(a-b+1) *)
  assert (Hup : n # d < 2 * pow2 (a - b)).
  { apply Qnot_le_lt. intros Hc.
    assert (2 * pow2 (a - b) * pow2 b <= (n # d) * inject_Z (Z.pos d)).
    { apply Qle_trans with ((n # d) * pow2 b).
      - apply Qmult_le_compat_r; [exact Hc | apply Qlt_le_weak, Hpb].
      - rewrite !(Qmult_comm (n # d)). apply Qmult_le_compat_r; [exact Hb1|].
        apply Qlt_le_weak, Hx. }
    rewrite Hxd in H. lra. }
  assert (Hlow : pow2 (a - b) * (1 # 2) < n # d).
  { apply Qnot_le_lt. intros Hc.
    assert ((n # d) * inject_Z (Z.pos d) < pow2 (a - b) * (1 # 2) * (2 * pow2 b)).
    { apply Qlt_le_trans with ((n # d) * (2 * pow2 b)).
      - apply Qmult_lt_l; [exact Hx | exact Hb2].
      - apply Qmult_le_compat_r; [exact Hc | lra]. }
    rewrite Hxd in H. lra. }
  destruct (Qle_bool (pow2 (a - b)) (n # d)) eqn:E.
  - apply Qle_bool_iff in E. rewrite pow2_succ. split; [exact E | exact Hup].
  - assert (Hlt : n # d < pow2 (a - b)).
    { apply Qnot_le_lt. intros Hc. apply Qle_bool_iff in Hc. congruence. }
    replace (a - b - 1 + 1)%Z with (a - b)%Z by lia.
    rewrite pow2_pred. split; [apply Qlt_le_weak, Hlow | exact Hlt].
Qed.

(** The logarithm is the only exponent that brackets [x]. *)
Lemma floor_log2_unique (x : Q) (e : Z) :
  pow2 e <= x -> x < pow2 (e + 1) -> floor_log2 x = e.
Proof.
  intros Hlo Hhi.
  assert (Hx : 0 < x) by (pose proof (pow2_pos e); lra).
  destruct (floor_log2_spec x Hx) as [Hlo' Hhi'].
  destruct (Z.lt_trichotomy (floor_log2 x) e) as [Hlt | [Heq | Hgt]]; [|exact Heq|].
  - assert (pow2 (floor_log2 x + 1) <= pow2 e) by (apply pow2_le; lia). lra.
  - assert (pow2 (e + 1) <= pow2 (floor_log2 x)) by (apply pow2_le; lia). lra.
Qed.


Lemma round_half_even_comp (x y : Q) : x == y -> round_half_even x = round_half_even y.
Proof.
  intros H. unfold round_half_even. rewrite (Qfloor_comp _ _ H).
  assert (E : x - inject_Z (Qfloor y) == y - inject_Z (Qfloor y)) by (rewrite H; reflexivity).
  rewrite (Qcompare_comp _ _ E _ _ (Qeq_refl (1 # 2))). reflexivity.
Qed.

(** Rounding stays below an integer it has not passed by a half. *)
Lemma round_half_even_below (x : Q) (k : Z) :
  x < inject_Z k + (1 # 2) -> (round_half_even x <= k)%Z.
Proof.
  intros H. destruct (round_half_even_near x) as [_ Hhi].
  assert (Hlt : inject_Z (round_half_even x) < inject_Z (k + 1)).
  { rewrite inject_Z_succ. lra. }
  rewrite <- Zlt_Qlt in Hlt. lia.
Qed.

Lemma Qabs_nonneg_eq (x : Q) : (0 <= Qnum x)%Z -> Qabs x = x.
Proof. destruct x as [n d]. simpl. intros H. rewrite Z.abs_eq by exact H. reflexivity. Qed.

Lemma Qnum_pos (x : Q) : 0 < x -> (0 < Qnum x)%Z.
Proof. unfold Qlt. simpl. lia. Qed.

Lemma Qnum_zero (x : Q) : Qnum x = 0%Z <-> x == 0.
Proof. unfold Qeq. simpl. lia. Qed.

(** On a positive number [RN] rounds the quotient by the spacing. *)
Lemma RN_pos (x : Q) :
  0 < x -> RN x == inject_Z (round_half_even (x / ulp x)) * ulp x.
Proof.
  intros Hx. unfold RN. pose proof (Qnum_pos x Hx) as Hn.
  rewrite Qred_correct, Qabs_nonneg_eq by lia.
  destruct (Z.leb_spec 0 (Qnum x)); [reflexivity | lia].
Qed.

Lemma ulp_pos (x : Q) : 0 < ulp x.
Proof. apply pow2_pos. Qed.

(** Rounding moves a number by at most half the spacing. *)
Lemma RN_near (x : Q) :
  0 < x -> Qabs (RN x - x) <= ulp x * (1 # 2).
Proof.
  intros Hx. rewrite (RN_pos x Hx).
  pose proof (ulp_pos x) as Hu.
  pose proof (round_half_even_near (x / ulp x)) as [Hlo Hhi].
  set (u := ulp x) in *. set (t := x / u) in *.
  set (m := inject_Z (round_half_even t)) in *.
  assert (E : x == t * u) by (unfold t; field; lra).
  assert (H1 : (t - (1 # 2)) * u <= m * u) by (apply Qmult_le_compat_r; lra).
  assert (H2 : m * u <= (t + (1 # 2)) * u) by (apply Qmult_le_compat_r; lra).
  apply Qabs_Qle_condition. split; lra.
Qed.

(** In the normal range the spacing is at most 2^-52 of the number. *)
Lemma ulp_normal (x : Q) : pow2 (-1022) <= x -> ulp x <= x * pow2 (-52).
Proof.
  intros Hx.
  assert (H0 : 0 < x) by (pose proof (pow2_pos (-1022)); lra).
  destruct (floor_log2_spec x H0) as [Hlo Hhi].
  assert (Hfl : (-1022 <= floor_log2 x)%Z).
  { destruct (Z.le_gt_cases (-1022) (floor_log2 x)) as [H | H]; [exact H|].
    assert (pow2 (floor_log2 x + 1) <= pow2 (-1022)) by (apply pow2_le; lia). lra. }
  unfold ulp. rewrite Z.max_l by lia.
  replace (floor_log2 x - 52)%Z with (floor_log2 x + -52)%Z by lia.
  rewrite pow2_add. apply Qmult_le_compat_r; [exact Hlo|].
  apply Qlt_le_weak, pow2_pos.
Qed.

(** The relative error of rounding in the normal range. *)
Lemma RN_relative (x : Q) :
  pow2 (-1022) <= x -> Qabs (RN x - x) <= x * pow2 (-53).
Proof.
  intros Hx.
  assert (H0 : 0 < x) by (pose proof (pow2_pos (-1022)); lra).
  pose proof (RN_near x H0) as H1. pose proof (ulp_normal x Hx) as H2.
  assert (E : pow2 (-53) == pow2 (-52) * (1 # 2)) by reflexivity.
  rewrite E. lra.
Qed.

Lemma RN_zero (x : Q) : x == 0 -> RN x == 0.
Proof.
  intros Hx. unfold RN. rewrite Qred_correct.
  assert (Ha0 : Qabs x == 0) by (rewrite Hx; reflexivity).
  assert (Ha : Qabs x / ulp (Qabs x) == 0).
  { generalize (ulp (Qabs x)). intros u. rewrite Ha0. unfold Qdiv. ring. }
  rewrite (round_half_even_comp _ _ Ha).
  change (round_half_even 0) with 0%Z.
  destruct (0 <=? Qnum x)%Z; ring.
Qed.

Lemma RN_nonneg (x : Q) : 0 <= x -> 0 <= RN x.
Proof.
  intros Hx. destruct (Qle_lt_or_eq _ _ Hx) as [Hpos | Hz].
  - rewrite (RN_pos x Hpos). pose proof (ulp_pos x) as Hu.
    apply Qmult_le_0_compat; [|apply Qlt_le_weak, Hu].
    change 0 with (inject_Z 0). rewrite <- Zle_Qle.
    apply round_half_even_ge.
    apply Qle_shift_div_l; [exact Hu|].
    change (inject_Z 0) with 0. lra.
  - rewrite RN_zero; [lra | symmetry; exact Hz].
Qed.

(** Rounding does not pass a multiple of a power of two that is on the
    grid of the number rounded. *)
Lemma RN_le_multiple (x : Q) (N e : Z) :
  0 < x -> (Z.max (floor_log2 x - 52) (-1074) <= e)%Z ->
  x <= inject_Z N * pow2 e -> RN x <= inject_Z N * pow2 e.
Proof.
  intros Hx He Hle. rewrite (RN_pos x Hx). unfold ulp.
  set (u := Z.max (floor_log2 x - 52) (-1074)) in *.
  pose proof (pow2_pos u) as Hu.
  assert (Ee : pow2 e == inject_Z (2 ^ (e - u)) * pow2 u).
  { rewrite <- pow2_Z by lia. rewrite <- pow2_add.
    replace (e - u + u)%Z with e by lia. reflexivity. }
  rewrite Ee, Qmult_assoc, <- inject_Z_mult.
  apply Qmult_le_compat_r; [|lra].
  rewrite <- Zle_Qle. apply round_half_even_le.
  apply Qle_shift_div_r; [exact Hu|].
  rewrite inject_Z_mult, <- Qmult_assoc, <- Ee. exact Hle.
Qed.

Lemma RN_ge_multiple (x : Q) (N e : Z) :
  0 < x -> (Z.max (floor_log2 x - 52) (-1074) <= e)%Z ->
  inject_Z N * pow2 e <= x -> inject_Z N * pow2 e <= RN x.
Proof.
  intros Hx He Hle. rewrite (RN_pos x Hx). unfold ulp.
  set (u := Z.max (floor_log2 x - 52) (-1074)) in *.
  pose proof (pow2_pos u) as Hu.
  assert (Ee : pow2 e == inject_Z (2 ^ (e - u)) * pow2 u).
  { rewrite <- pow2_Z by lia. rewrite <- pow2_add.
    replace (e - u + u)%Z with e by lia. reflexivity. }
  rewrite Ee, Qmult_assoc, <- inject_Z_mult.
  apply Qmult_le_compat_r; [|lra].
  rewrite <- Zle_Qle. apply round_half_even_ge.
  apply Qle_shift_div_l; [exact Hu|].
  rewrite inject_Z_mult, <- Qmult_assoc, <- Ee. exact Hle.
Qed.


Lemma buy_factor :
  Float64.add (of_int 1) buffer = Fin (2254051613498933 # 2251799813685248).
Proof. vm_compute. reflexivity. Qed.

Lemma sell_factor :
  Float64.sub (of_int 1) buffer = Fin (8998192055486251 # 9007199254740992).
Proof. vm_compute. reflexivity. Qed.

Lemma execute_limit_price_cents (side : string) (q : Q) :
  execute_limit_price side (Fin q) = Fin (RN (inject_Z (limit_cents side q) / 100)).
Proof.
  unfold execute_limit_price, limit_cents, factor. rewrite buy_factor, sell_factor.
  destruct (String.eqb side "BUY"); reflexivity.
Qed.

Lemma factor_near (side : string) :
  Qabs (factor side - (if String.eqb side "BUY" then 1 + (1 # 1000) else 1 - (1 # 1000)))
  <= pow2 (-53)
  /\ 1 # 2 <= factor side <= 2.
Proof.
  unfold factor. destruct (String.eqb side "BUY"); split; try split;
    try (apply Qabs_Qle_condition; split); vm_compute; discriminate.
Qed.

Lemma limit_cents_near (side : string) (q : Q) :
  pow2 (-1000) <= q ->
  (0 <= limit_cents side q)%Z
  /\ Qabs (inject_Z (limit_cents side q) / 100 - buffered side q)
     <= (1 # 200) + q * pow2 (-50).
Proof.
  intros Hq. pose proof (pow2_pos (-1000)) as Hp.
  destruct (factor_near side) as (Hf & Hf1 & Hf2).
  assert (Hx : pow2 (-1022) <= q * factor side).
  { apply Qle_trans with (pow2 (-1000) * (1 # 2)); [vm_compute; discriminate|].
    apply Qle_trans with (q * (1 # 2)).
    - apply Qmult_le_compat_r; [exact Hq | discriminate].
    - rewrite !(Qmult_comm q). apply Qmult_le_compat_r; lra. }
  pose proof (RN_relative _ Hx) as HP.
  pose proof (RN_nonneg (q * factor side)) as HP0.
  unfold limit_cents, buffered.
  set (P := RN (q * factor side)) in *.
  pose proof (round_half_even_near (P * 100)) as [Hlo Hhi].
  split.
  - apply round_half_even_ge. change (inject_Z 0) with 0.
    assert (0 <= q * factor side) by (apply Qmult_le_0_compat; lra). lra.
  - set (K := inject_Z (round_half_even (P * 100))) in *.
    set (f := factor side) in *.
    assert (E50 : pow2 (-50) == 8 * pow2 (-53)) by reflexivity.
    rewrite E50.
    set (eps := pow2 (-53)) in *.
    assert (Heps : 0 < eps) by apply pow2_pos.
    (* |P - q f| <= q f eps, |f - c| <= eps *)
    apply Qabs_Qle_condition in HP as [HP1 HP2].
    assert (Hqe : 0 <= q * eps) by (apply Qmult_le_0_compat; lra).
    assert (Hqf : q * f * eps <= 2 * (q * eps)).
    { rewrite <- (Qmult_assoc q f eps), (Qmult_comm f eps), (Qmult_assoc q eps f).
      rewrite (Qmult_comm 2). rewrite !(Qmult_comm (q * eps)).
      apply Qmult_le_compat_r; lra. }
    destruct (String.eqb side "BUY").
    + apply Qabs_Qle_condition in Hf as [Hf3 Hf4].
      assert (Hc1 : q * (f - (1 + (1 # 1000))) <= q * eps).
      { rewrite !(Qmult_comm q). apply Qmult_le_compat_r; lra. }
      assert (Hc2 : q * - eps <= q * (f - (1 + (1 # 1000)))).
      { rewrite !(Qmult_comm q). apply Qmult_le_compat_r; lra. }
      unfold Qdiv. change (/ 100) with (1 # 100).
      apply Qabs_Qle_condition. split; lra.
    + apply Qabs_Qle_condition in Hf as [Hf3 Hf4].
      assert (Hc1 : q * (f - (1 - (1 # 1000))) <= q * eps).
      { rewrite !(Qmult_comm q). apply Qmult_le_compat_r; lra. }
      assert (Hc2 : q * - eps <= q * (f - (1 - (1 # 1000)))).
      { rewrite !(Qmult_comm q). apply Qmult_le_compat_r; lra. }
      unfold Qdiv. change (/ 100) with (1 # 100).
      apply Qabs_Qle_condition. split; lra.
Qed.


Lemma floor_log2_lt (x : Q) (e : Z) : 0 < x -> x < pow2 e -> (floor_log2 x < e)%Z.
Proof.
  intros Hx Hlt. destruct (floor_log2_spec x Hx) as [Hlo _].
  apply (Qpower_lt_compat_l_inv 2); [|reflexivity].
  fold (pow2 (floor_log2 x)). fold (pow2 e). lra.
Qed.

(** The limit price is the double at its cents. *)
Lemma RN_cents (K : Z) :
  (0 <= K)%Z ->
  Qabs (RN (inject_Z K / 100) - inject_Z K / 100) <= inject_Z K / 100 * pow2 (-53)
  /\ (Qnum (RN (inject_Z K / 100)) = 0%Z <-> K = 0%Z).
Proof.
  intros HK. destruct (Z.eq_dec K 0%Z) as [-> | Hne].
  - split; [vm_compute; discriminate | split; reflexivity].
  - assert (H1 : 1 <= inject_Z K) by (change 1 with (inject_Z 1); rewrite <- Zle_Qle; lia).
    assert (Hn : pow2 (-1022) <= inject_Z K / 100).
    { apply Qle_trans with (1 # 100); [vm_compute; discriminate|].
      unfold Qdiv. change (/ 100) with (1 # 100). lra. }
    pose proof (RN_relative _ Hn) as Hr. split; [exact Hr|].
    split; [|intros; contradiction]. intros Hz. exfalso.
    apply Qnum_zero in Hz. rewrite Hz in Hr.
    apply Qabs_Qle_condition in Hr as [Hr1 Hr2].
    assert (Hp : pow2 (-53) <= 1 # 2) by (vm_compute; discriminate).
    set (k := inject_Z K / 100) in *.
    assert (Hk : 1 # 100 <= k).
    { unfold k, Qdiv. change (/ 100) with (1 # 100). lra. }
    assert (Hkp : k * pow2 (-53) <= k * (1 # 2)).
    { rewrite !(Qmult_comm k). apply Qmult_le_compat_r; lra. }
    lra.
Qed.

(** A quote whose buffered price is below half a cent is priced at zero
    cents. *)
Lemma limit_cents_subcent (q : Q) :
  0 < q -> q * (1 + (1 # 1000)) * 100 < 1 # 2 -> limit_cents "BUY" q = 0%Z.
Proof.
  intros Hq Hsmall. unfold limit_cents, factor. simpl String.eqb. cbv iota.
  set (f := 2254051613498933 # 2251799813685248).
  set (x := q * f).
  assert (Hx : 0 < x) by (unfold x, f; lra).
  assert (Hup : x * pow2 60 < 5764607523034234 + (1 # 2)).
  { unfold x, f. change (pow2 60) with (1152921504606846976 # 1). lra. }
  assert (HRN : RN x * 100 < 1 # 2).
  { destruct (Qlt_le_dec x (pow2 (-8))) as [Hlt | Hge].
    - pose proof (floor_log2_lt x (-8) Hx Hlt) as Hfl.
      assert (H : RN x <= inject_Z 1 * pow2 (-8)).
      { apply RN_le_multiple; [exact Hx | lia |]. 
        change (inject_Z 1 * pow2 (-8)) with ((1 # 1) * pow2 (-8)). lra. }
      change (inject_Z 1 * pow2 (-8)) with (1 # 256) in H. lra.
    - assert (Hfl : floor_log2 x = (-8)%Z).
      { apply floor_log2_unique; [exact Hge|].
        change (pow2 (-8 + 1)) with (1 # 128).
        change (pow2 60) with (1152921504606846976 # 1) in Hup. lra. }
      rewrite (RN_pos x Hx). unfold ulp. rewrite Hfl.
      change (pow2 (Z.max (-8 - 52) (-1074))) with (pow2 (-60)).
      assert (Hm : (round_half_even (x / pow2 (-60)) <= 5764607523034234)%Z).
      { apply round_half_even_below.
        assert (E : x / pow2 (-60) == x * pow2 60) by (unfold Qdiv; reflexivity).
        rewrite E. exact Hup. }
      rewrite Zle_Qle in Hm.
      change (pow2 (-60)) with (1 # 1152921504606846976) in *.
      set (m := inject_Z (round_half_even (x / (1 # 1152921504606846976)))) in *.
      change (inject_Z 5764607523034234) with (5764607523034234 # 1) in Hm. lra. }
  pose proof (RN_nonneg x (Qlt_le_weak _ _ Hx)) as H0.
  apply Z.le_antisymm.
  - apply round_half_even_below. change (inject_Z 0) with 0. lra.
  - apply round_half_even_ge. change (inject_Z 0) with 0. lra.
Qed.


(** Rounding to the nearest integer is monotone. *)
Lemma round_half_even_monotone (x y : Q) :
  x <= y -> (round_half_even x <= round_half_even y)%Z.
Proof.
  intros Hxy. pose proof (Qfloor_resp_le _ _ Hxy) as Hfl.
  destruct (Z.eq_dec (Qfloor x) (Qfloor y)) as [E | Hne].
  - unfold round_half_even. rewrite <- E.
    destruct (Qcompare_spec (x - inject_Z (Qfloor x)) (1 # 2)) as [Hx | Hx | Hx];
      destruct (Qcompare_spec (y - inject_Z (Qfloor x)) (1 # 2)) as [Hy | Hy | Hy];
      try lia; try lra; destruct (Z.even (Qfloor x)); lia.
  - assert (H1 : (round_half_even x <= Qfloor x + 1)%Z).
    { unfold round_half_even.
      destruct (Qcompare _ _); [destruct (Z.even _) | |]; lia. }
    assert (H2 : (Qfloor y <= round_half_even y)%Z).
    { unfold round_half_even.
      destruct (Qcompare _ _); [destruct (Z.even _) | |]; lia. }
    lia.
Qed.

Lemma floor_log2_monotone (x y : Q) :
  0 < x -> x <= y -> (floor_log2 x <= floor_log2 y)%Z.
Proof.
  intros Hx Hxy.
  assert (Hy : 0 < y) by lra.
  destruct (floor_log2_spec x Hx) as [Hlo _].
  destruct (floor_log2_spec y Hy) as [_ Hhi].
  assert (H : (floor_log2 x < floor_log2 y + 1)%Z).
  { apply (Qpower_lt_compat_l_inv 2); [|reflexivity].
    fold (pow2 (floor_log2 x)). fold (pow2 (floor_log2 y + 1)). lra. }
  lia.
Qed.

(** Rounding to the nearest double is monotone. *)
Lemma RN_monotone (x y : Q) : 0 < x -> x <= y -> RN x <= RN y.
Proof.
  intros Hx Hxy.
  assert (Hy : 0 < y) by lra.
  pose proof (floor_log2_monotone x y Hx Hxy) as Hfl.
  destruct (Z.eq_dec (Z.max (floor_log2 x - 52) (-1074))
              (Z.max (floor_log2 y - 52) (-1074))) as [E | Hne].
  - rewrite (RN_pos x Hx), (RN_pos y Hy). unfold ulp. rewrite <- E.
    set (u := pow2 (Z.max (floor_log2 x - 52) (-1074))).
    assert (Hu : 0 < u) by apply pow2_pos.
    apply Qmult_le_compat_r; [|lra].
    rewrite <- Zle_Qle. apply round_half_even_monotone.
    unfold Qdiv. apply Qmult_le_compat_r; [exact Hxy|].
    apply Qlt_le_weak, Qinv_lt_0_compat, Hu.
  - destruct (floor_log2_spec x Hx) as [_ Hxhi].
    destruct (floor_log2_spec y Hy) as [Hylo _].
    assert (Hp : pow2 (floor_log2 x + 1) <= pow2 (floor_log2 y))
      by (apply pow2_le; lia).
    apply Qle_trans with (inject_Z 1 * pow2 (floor_log2 y)).
    + apply RN_le_multiple; [exact Hx | lia |].
      change (inject_Z 1) with 1. lra.
    + apply RN_ge_multiple; [exact Hy | lia |].
      change (inject_Z 1) with 1. lra.
Qed.

(** A quote that is the double of a whole number of cents: the limit
    stands for at least as many cents on the BUY side, and for at most as
    many on the other side. *)
Lemma limit_cents_whole (side : string) (q : Q) (cents : Z) :
  pow2 (-1000) <= q -> q == RN (inject_Z cents / 100) ->
  if String.eqb side "BUY" then (cents <= limit_cents side q)%Z
  else (limit_cents side q <= cents)%Z.
Proof.
  intros Hq Hcents. pose proof (pow2_pos (-1000)) as Hp.
  assert (Hc0 : (0 < cents)%Z).
  { destruct (Z.lt_ge_cases 0 cents) as [H | H]; [exact H | exfalso].
    assert (Hle : inject_Z cents / 100 <= 0).
    { unfold Qdiv. change (/ 100) with (1 # 100).
      assert (inject_Z cents <= 0) by (change 0 with (inject_Z 0); rewrite <- Zle_Qle; lia).
      lra. }
    assert (RN (inject_Z cents / 100) <= 0).
    { destruct (Qle_lt_or_eq _ _ Hle) as [Hneg | Hz]; [|rewrite (RN_zero _ Hz); lra].
      unfold RN. rewrite Qred_correct.
      assert (Hn : (Qnum (inject_Z cents / 100) < 0)%Z).
      { revert Hneg. unfold Qlt. simpl. lia. }
      destruct (Z.leb_spec 0 (Qnum (inject_Z cents / 100))); [lia|].
      set (a := Qabs (inject_Z cents / 100)).
      assert (0 <= inject_Z (round_half_even (a / ulp a)) * ulp a).
      { apply Qmult_le_0_compat; [|apply Qlt_le_weak, ulp_pos].
        change 0 with (inject_Z 0). rewrite <- Zle_Qle.
        apply round_half_even_ge. change (inject_Z 0) with 0.
        apply Qle_shift_div_l; [apply ulp_pos|].
        rewrite Qmult_0_l. apply Qabs_nonneg. }
      lra. }
    lra. }
  assert (H1 : 1 <= inject_Z cents)
    by (change 1 with (inject_Z 1); rewrite <- Zle_Qle; lia).
  set (k := inject_Z cents / 100) in *.
  assert (Hk : 1 # 100 <= k).
  { unfold k, Qdiv. change (/ 100) with (1 # 100). lra. }
  assert (Hkn : pow2 (-1022) <= k).
  { apply Qle_trans with (1 # 100); [vm_compute; discriminate | exact Hk]. }
  pose proof (RN_relative k Hkn) as Hqk. rewrite <- Hcents in Hqk.
  apply Qabs_Qle_condition in Hqk as [Hqk1 Hqk2].
  destruct (factor_near side) as (_ & Hf1 & Hf2).
  assert (Hx : pow2 (-1022) <= q * factor side).
  { apply Qle_trans with (pow2 (-1000) * (1 # 2)); [vm_compute; discriminate|].
    apply Qle_trans with (q * (1 # 2)).
    - apply Qmult_le_compat_r; [exact Hq | discriminate].
    - rewrite !(Qmult_comm q). apply Qmult_le_compat_r; lra. }
  pose proof (RN_relative _ Hx) as HP.
  apply Qabs_Qle_condition in HP as [HP1 HP2].
  unfold limit_cents. revert HP1 HP2 Hx. unfold factor.
  change (pow2 (-53)) with (1 # 9007199254740992) in *.
  destruct (String.eqb side "BUY"); intros HP1 HP2 Hx.
  - apply round_half_even_ge. unfold k, Qdiv in *. change (/ 100) with (1 # 100) in *.
    set (P := RN (q * (2254051613498933 # 2251799813685248))) in *. lra.
  - apply round_half_even_le. unfold k, Qdiv in *. change (/ 100) with (1 # 100) in *.
    set (P := RN (q * (8998192055486251 # 9007199254740992))) in *. lra.
Qed.

(** Rounding to an integer yields a nearest one. *)
Lemma round_half_even_nearest (t : Q) (N : Z) :
  Qabs (inject_Z (round_half_even t) - t) <= Qabs (inject_Z N - t).
Proof.
  pose proof (Qfloor_le t) as Hlo. pose proof (Qlt_floor t) as Hhi.
  rewrite inject_Z_succ in Hhi.
  assert (HN : inject_Z N <= inject_Z (Qfloor t) \/ inject_Z (Qfloor t) + 1 <= inject_Z N).
  { destruct (Z.le_gt_cases N (Qfloor t)) as [H | H].
    - left. rewrite <- Zle_Qle. exact H.
    - right. rewrite <- inject_Z_succ, <- Zle_Qle. lia. }
  unfold round_half_even.
  destruct (Qcompare_spec (t - inject_Z (Qfloor t)) (1 # 2)) as [He | Hl | Hg];
    [destruct (Z.even (Qfloor t))| |]; rewrite ?inject_Z_succ;
    apply Qabs_case; intros; apply Qabs_case; intros; destruct HN; lra.
Qed.

(** [RN] yields a double nearest to its argument. *)
Lemma RN_nearest (x d : Q) :
  0 < x -> is_double d -> Qabs (RN x - x) <= Qabs (d - x).
Proof.
  intros Hx (m & e & Hm & He & Hd).
  set (u := Z.max (floor_log2 x - 52) (-1074)).
  pose proof (pow2_pos u) as Hu.
  destruct (Z.le_gt_cases u e) as [Hue | Hue].
  - (* [d] is on the grid of [x] *)
    rewrite (RN_pos x Hx). unfold ulp. fold u.
    assert (Ee : pow2 e == inject_Z (2 ^ (e - u)) * pow2 u).
    { rewrite <- pow2_Z by lia. rewrite <- pow2_add.
      replace (e - u + u)%Z with e by lia. reflexivity. }
    assert (Ed : d == inject_Z (m * 2 ^ (e - u)) * pow2 u).
    { rewrite Hd, Ee, inject_Z_mult. ring. }
    pose proof (round_half_even_nearest (x / pow2 u) (m * 2 ^ (e - u))) as Hn.
    set (r := inject_Z (round_half_even (x / pow2 u))) in *.
    set (N := inject_Z (m * 2 ^ (e - u))) in *.
    set (t := x / pow2 u) in *.
    assert (Et : x == t * pow2 u) by (unfold t; field; lra).
    assert (E1 : r * pow2 u - x == (r - t) * pow2 u) by (rewrite Et at 1; ring).
    assert (E2 : d - x == (N - t) * pow2 u) by (rewrite Ed; rewrite Et at 1; ring).
    rewrite E1, E2, !Qabs_Qmult, (Qabs_pos (pow2 u)) by lra.
    apply Qmult_le_compat_r; [exact Hn | lra].
  - (* [d] is finer than the grid of [x], hence below the binade of [x] *)
    assert (Hfl : u = (floor_log2 x - 52)%Z) by lia.
    destruct (floor_log2_spec x Hx) as [Hlo _].
    pose proof (RN_near x Hx) as Hnear. unfold ulp in Hnear. fold u in Hnear.
    assert (Hpu : pow2 (floor_log2 x) == pow2 52 * pow2 u).
    { rewrite <- pow2_add. replace (52 + u)%Z with (floor_log2 x) by lia. reflexivity. }
    assert (Hpe : pow2 e <= pow2 u * (1 # 2)).
    { rewrite <- pow2_pred. apply pow2_le. lia. }
    assert (Hm' : inject_Z m <= inject_Z (2 ^ 53 - 1)) by (rewrite <- Zle_Qle; lia).
    assert (Hdle : d <= inject_Z (2 ^ 53 - 1) * (pow2 u * (1 # 2))).
    { rewrite Hd. pose proof (pow2_pos e) as Hpe0.
      apply Qle_trans with (inject_Z (2 ^ 53 - 1) * pow2 e).
      - apply Qmult_le_compat_r; [exact Hm' | lra].
      - rewrite !(Qmult_comm (inject_Z (2 ^ 53 - 1))).
        apply Qmult_le_compat_r; [exact Hpe | discriminate]. }
    change (inject_Z (2 ^ 53 - 1)) with (9007199254740991 # 1) in Hdle.
    change (pow2 52) with (4503599627370496 # 1) in Hpu.
    apply Qle_trans with (pow2 u * (1 # 2)); [exact Hnear|].
    apply Qabs_case; intros; lra.
Qed.


(** [RN] yields a double, as long as it does not overflow. *)
Lemma RN_is_double (x : Q) : 0 <= x -> x < pow2 1023 -> is_double (RN x).
Proof.
  intros H0 Hhi. destruct (Qle_lt_or_eq _ _ H0) as [Hx | Hz].
  2:{ exists 0%Z, 0%Z. split; [reflexivity|]. split; [lia|].
      rewrite RN_zero by (symmetry; exact Hz). reflexivity. }
  destruct (floor_log2_spec x Hx) as [Hlo Hup].
  assert (Hfl : (floor_log2 x < 1023)%Z) by (apply floor_log2_lt; assumption).
  set (u := Z.max (floor_log2 x - 52) (-1074)).
  pose proof (pow2_pos u) as Hu.
  assert (Hm : (0 <= round_half_even (x / pow2 u) <= 2 ^ 53)%Z).
  { split.
    - apply round_half_even_ge. change (inject_Z 0) with 0.
      apply Qle_shift_div_l; [exact Hu | lra].
    - apply round_half_even_le. apply Qle_shift_div_r; [exact Hu|].
      rewrite <- pow2_Z by lia. rewrite <- pow2_add.
      apply Qle_trans with (pow2 (floor_log2 x + 1)); [lra|].
      apply pow2_le. lia. }
  pose proof (RN_pos x Hx) as Hrn. unfold ulp in Hrn. fold u in Hrn.
  destruct (Z.eq_dec (round_half_even (x / pow2 u)) (2 ^ 53)%Z) as [E | Hne].
  - exists (2 ^ 52)%Z, (u + 1)%Z. split; [reflexivity|]. split; [lia|].
    rewrite Hrn, E, pow2_succ. change (inject_Z (2 ^ 53)%Z) with (2 * inject_Z (2 ^ 52)%Z).
    ring.
  - exists (round_half_even (x / pow2 u)), u. split; [lia|]. split; [lia|].
    exact Hrn.
Qed.

End LimitPrice.

(** ** Python dictionaries *)

Section Dict.
Import Py.
Context {V : Type}.
Implicit Types (d : dict V) (k : string) (v : V).

Lemma dict_get_Some d k v : dict_get d k = Some v -> (k, v) ∈ d.
Proof.
  induction d as [|[k' v'] d IH]; simpl; [discriminate|].
  destruct (String.eqb_spec k' k) as [-> | Hne].
  - intros [= ->]. apply list_elem_of_here.
  - intros H. apply list_elem_of_further, IH, H.
Qed.

Lemma dict_get_None d k : dict_get d k = None <-> k ∉ d.*1.
Proof.
  induction d as [|[k' v'] d IH]; simpl.
  - split; [intros _; apply not_elem_of_nil | reflexivity].
  - destruct (String.eqb_spec k' k) as [-> | Hne].
    + split; [discriminate | intros H; exfalso; apply H, list_elem_of_here].
    + rewrite IH, not_elem_of_cons. naive_solver.
Qed.

Lemma dict_get_elem d k v : NoDup d.*1 -> (k, v) ∈ d -> dict_get d k = Some v.
Proof.
  induction d as [|[k' v'] d IH]; simpl; intros Hnd Hin.
  - apply elem_of_nil in Hin as [].
  - apply NoDup_cons in Hnd as [Hk Hnd].
    apply elem_of_cons in Hin as [[= <- <-] | Hin].
    + rewrite String.eqb_refl. reflexivity.
    + destruct (String.eqb_spec k' k) as [-> | Hne]; [|auto].
      exfalso. apply Hk. apply (list_elem_of_fmap_2 fst) in Hin. exact Hin.
Qed.

Lemma dict_mem_true d k : dict_mem d k = true <-> k ∈ d.*1.
Proof.
  unfold dict_mem. destruct (dict_get d k) eqn:E.
  - split; [intros _ | reflexivity].
    apply dict_get_Some in E. apply (list_elem_of_fmap_2 fst) in E. exact E.
  - apply dict_get_None in E. split; [discriminate | intros H; contradiction].
Qed.

Lemma elem_of_dict_del d k k' v :
  (k', v) ∈ dict_del d k -> (k', v) ∈ d.
Proof.
  induction d as [|[k0 v0] d IH]; simpl; [trivial|].
  destruct (String.eqb_spec k0 k) as [-> | Hne].
  - apply list_elem_of_further.
  - rewrite !elem_of_cons. naive_solver.
Qed.

Lemma dict_del_keys d k k' :
  k' ∈ (dict_del d k).*1 -> k' ∈ d.*1.
Proof.
  intros H. apply list_elem_of_fmap in H as ([k0 v0] & -> & H).
  apply elem_of_dict_del in H. apply (list_elem_of_fmap_2 fst) in H. exact H.
Qed.

Lemma dict_del_keys_ne d k k' :
  k' ≠ k -> k' ∈ d.*1 -> k' ∈ (dict_del d k).*1.
Proof.
  intros Hne. induction d as [|[k0 v0] d IH]; simpl; [trivial|].
  destruct (String.eqb_spec k0 k) as [-> | H0]; simpl;
    rewrite !elem_of_cons; naive_solver.
Qed.

Lemma NoDup_dict_del d k : NoDup d.*1 -> NoDup (dict_del d k).*1.
Proof.
  induction d as [|[k0 v0] d IH]; simpl; [trivial|].
  intros Hnd. apply NoDup_cons in Hnd as [Hk Hnd].
  destruct (String.eqb_spec k0 k) as [-> | Hne]; [exact Hnd|].
  simpl. apply NoDup_cons. split; [|auto].
  intros H. apply Hk. eapply dict_del_keys, H.
Qed.

Lemma dict_del_gone d k : NoDup d.*1 -> k ∉ (dict_del d k).*1.
Proof.
  induction d as [|[k0 v0] d IH]; simpl; intros Hnd.
  - apply not_elem_of_nil.
  - apply NoDup_cons in Hnd as [Hk Hnd].
    destruct (String.eqb_spec k0 k) as [-> | Hne]; [exact Hk|].
    simpl. rewrite not_elem_of_cons. split; [congruence | auto].
Qed.

Lemma dict_set_keys d k v k' :
  k' ∈ (dict_set d k v).*1 <-> k' = k \/ k' ∈ d.*1.
Proof.
  induction d as [|[k0 v0] d IH]; simpl.
  - rewrite list_elem_of_singleton. rewrite elem_of_nil. naive_solver.
  - destruct (String.eqb_spec k0 k) as [-> | Hne]; simpl;
      rewrite !elem_of_cons; [|rewrite IH]; naive_solver.
Qed.

Lemma NoDup_dict_set d k v : NoDup d.*1 -> NoDup (dict_set d k v).*1.
Proof.
  induction d as [|[k0 v0] d IH]; simpl; intros Hnd.
  - apply NoDup_singleton.
  - apply NoDup_cons in Hnd as [Hk Hnd].
    destruct (String.eqb_spec k0 k) as [-> | Hne]; simpl.
    + apply NoDup_cons. auto.
    + apply NoDup_cons. split; [|auto].
      rewrite dict_set_keys. naive_solver.
Qed.

Lemma elem_of_dict_set d k v k' v' :
  NoDup d.*1 -> (k', v') ∈ dict_set d k v ->
  (k' = k /\ v' = v) \/ (k' ≠ k /\ (k', v') ∈ d).
Proof.
  induction d as [|[k0 v0] d IH]; simpl; intros Hnd.
  - rewrite list_elem_of_singleton. intros [= -> ->]. auto.
  - apply NoDup_cons in Hnd as [Hk Hnd].
    destruct (String.eqb_spec k0 k) as [-> | Hne]; rewrite !elem_of_cons.
    + intros [[= -> ->] | H]; [auto|].
      right. split; [|auto].
      intros ->. apply Hk. apply (list_elem_of_fmap_2 fst) in H. exact H.
    + intros [[= -> ->] | H]; [right; split; auto|].
      destruct (IH Hnd H) as [? | [? ?]]; auto.
Qed.

Lemma dict_get_set d k v : dict_get (dict_set d k v) k = Some v.
Proof.
  induction d as [|[k0 v0] d IH]; simpl.
  - rewrite String.eqb_refl. reflexivity.
  - destruct (String.eqb_spec k0 k) as [-> | Hne]; simpl.
    + rewrite String.eqb_refl. reflexivity.
    + destruct (String.eqb_spec k0 k); [contradiction | exact IH].
Qed.

Lemma dict_get_set_ne d k v k' : k ≠ k' -> dict_get (dict_set d k v) k' = dict_get d k'.
Proof.
  intros Hne. induction d as [|[k0 v0] d IH]; simpl.
  - destruct (String.eqb_spec k k'); [contradiction | reflexivity].
  - destruct (String.eqb_spec k0 k) as [-> | H0]; simpl.
    + destruct (String.eqb_spec k k'); [contradiction | reflexivity].
    + destruct (String.eqb_spec k0 k'); [reflexivity | exact IH].
Qed.

Lemma dict_get_del_ne d k k' : k ≠ k' -> dict_get (dict_del d k) k' = dict_get d k'.
Proof.
  intros Hne. induction d as [|[k0 v0] d IH]; simpl; [reflexivity|].
  destruct (String.eqb_spec k0 k) as [-> | H0]; simpl.
  - destruct (String.eqb_spec k k'); [contradiction | reflexivity].
  - destruct (String.eqb_spec k0 k'); [reflexivity | exact IH].
Qed.

End Dict.

(** ** The pending-order tracker *)


Lemma placed_app a t1 t2 : placed a (t1 ++ t2) = (placed a t1 + placed a t2)%nat.
Proof. unfold placed. rewrite List.filter_app, length_app. reflexivity. Qed.

Section ClientFrame.
Import Py World.
Context {W : Type} (ib : Gateway W).


Lemma quiet_ret {A} (x : A) : quiet (@IBKR.ret W A x).
Proof. intros e a. reflexivity. Qed.

Lemma quiet_bind {A B} (m : @IBKR.M W A) (k : A -> @IBKR.M W B) :
  quiet m -> (forall x, quiet (k x)) -> quiet (IBKR.bind m k).
Proof.
  intros Hm Hk e a. unfold IBKR.bind. specialize (Hm e a).
  destruct (m e) as [x e']. rewrite Hk. exact Hm.
Qed.

Lemma quiet_oracle {A} (f : W -> A * W) : quiet (IBKR.oracle f).
Proof. intros e a. unfold IBKR.oracle. destruct (f (world e)). reflexivity. Qed.

Lemma quiet_log l m : quiet (@IBKR.log W l m).
Proof. intros e a. reflexivity. Qed.

Lemma quiet_call c :
  (forall a, is_placement a c = false) -> quiet (@IBKR.call W c).
Proof.
  intros Hc e a. unfold IBKR.call; simpl. rewrite placed_app.
  unfold placed at 2; simpl. rewrite Hc. simpl. lia.
Qed.

Ltac quiet :=
  repeat first
    [ apply quiet_ret | apply quiet_oracle | apply quiet_log
    | apply quiet_call; reflexivity
    | apply quiet_bind; [|intros ?]
    | match goal with
      | |- quiet (match ?x with _ => _ end) => destruct x
      | |- quiet (if ?x then _ else _) => destruct x
      end ].

Lemma quiet_is_connected : quiet (IBKR.is_connected ib).
Proof. unfold IBKR.is_connected. quiet. Qed.

Lemma quiet_get_contract symbol : quiet (IBKR.get_contract ib symbol).
Proof. unfold IBKR.get_contract. quiet. Qed.

Lemma quiet_get_market_price contract : quiet (IBKR.get_market_price ib contract).
Proof. unfold IBKR.get_market_price. quiet. Qed.

Lemma quiet_cancel_order trade : quiet (IBKR.cancel_order ib trade).
Proof. unfold IBKR.cancel_order. quiet. Qed.

Lemma quiet_get_position symbol : quiet (IBKR.get_position ib symbol).
Proof.
  unfold IBKR.get_position, IBKR.get_positions.
  pose proof quiet_is_connected. quiet; assumption.
Qed.

Lemma quiet_get_open_orders : quiet (IBKR.get_open_orders ib).
Proof.
  unfold IBKR.get_open_orders. pose proof quiet_is_connected. quiet; assumption.
Qed.

(** [place_order] adds one placement for its intent exactly when it returns
    a trade. *)
Lemma place_order_placed intent acct contract action quantity order_type limit
    (e : Env W) a :
  let r := IBKR.place_order ib intent acct contract action quantity order_type limit e in
  placed a (calls (snd r))
  = (placed a (calls e)
     + match fst r, intent with
       | Some _, Some b => if Nat.eqb b a then 1 else 0
       | _, _ => 0
       end)%nat.
Proof.
  unfold IBKR.place_order, IBKR.bind.
  pose proof (quiet_is_connected e a) as Hc.
  destruct (IBKR.is_connected ib e) as [conn e1]. simpl in Hc.
  destruct conn; simpl.
  - unfold IBKR.oracle. destruct (placeOrder ib contract _ (world e1)) as [[trade|] w];
      simpl; rewrite placed_app, Hc; unfold placed at 2; simpl.
    + destruct intent as [b|]; [destruct (Nat.eqb b a)|]; reflexivity.
    + destruct intent; simpl; lia.
  - rewrite Hc. lia.
Qed.

End ClientFrame.

Section Tracker.
Import Py World Engine.
Context {W : Type} (ib : Gateway W) (cfg : Config)
        (tsm : MarketHours.TradingSessionManager).
Implicit Types s : Sys W.


Lemma same_core_refl s : same_core s s.
Proof. split; reflexivity. Qed.

Lemma same_core_trans s1 s2 s3 : same_core s1 s2 -> same_core s2 s3 -> same_core s1 s3.
Proof.
  intros [Ho Hp Hc] [Ho' Hp' Hc']. split; [congruence | congruence |].
  intros a. rewrite Hc', Hc. reflexivity.
Qed.


Lemma post_ret {A} (x : A) s (Q : A -> Sys W -> Prop) : Q x s -> post (ret x) s Q.
Proof. trivial. Qed.

Lemma post_bind {A B} (m : @E W A) (k : A -> @E W B) s (Q : B -> Sys W -> Prop) :
  post m s (fun x s' => post (k x) s' Q) -> post (bind m k) s Q.
Proof. unfold post, bind. destruct (m s) as [x s']. trivial. Qed.

Lemma post_get s (Q : Sys W -> Sys W -> Prop) : Q s s -> post get s Q.
Proof. trivial. Qed.

Lemma post_mono {A} (m : @E W A) s (Q Q' : A -> Sys W -> Prop) :
  post m s Q -> (forall x s', Q x s' -> Q' x s') -> post m s Q'.
Proof. unfold post. auto. Qed.


Lemma post_core_quiet {A} (m : @E W A) s (Q : A -> Sys W -> Prop) :
  core_quiet m -> (forall x s', same_core s s' -> Q x s') -> post m s Q.
Proof. intros Hm HQ. apply HQ, Hm. Qed.

Lemma core_quiet_ret {A} (x : A) : core_quiet (@ret W A x).
Proof. intros s. apply same_core_refl. Qed.

Lemma core_quiet_bind {A B} (m : @E W A) (k : A -> @E W B) :
  core_quiet m -> (forall x, core_quiet (k x)) -> core_quiet (bind m k).
Proof.
  intros Hm Hk s. unfold bind. specialize (Hm s). destruct (m s) as [x s'].
  eapply same_core_trans; [exact Hm | apply Hk].
Qed.

Lemma core_quiet_get : core_quiet (@get W).
Proof. intros s. apply same_core_refl. Qed.

Lemma core_quiet_lift {A} (m : @IBKR.M W A) : quiet m -> core_quiet (lift m).
Proof.
  intros Hm s. unfold lift. specialize (Hm (env s)).
  destruct (m (env s)) as [x e]. split; try reflexivity.
  intros a. apply Hm.
Qed.

Lemma core_quiet_log l m : core_quiet (@log W l m).
Proof. apply core_quiet_lift, quiet_log. Qed.

Lemma core_quiet_clock {A} (f : W -> A * W) : core_quiet (clock f).
Proof. apply core_quiet_lift, quiet_oracle. Qed.

Lemma core_quiet_set_positions p : core_quiet (@set_positions W p).
Proof. intros s. split; reflexivity. Qed.

Lemma core_quiet_set_tasks t : core_quiet (@set_tasks W t).
Proof. intros s. split; reflexivity. Qed.

Ltac core_quiet :=
  repeat first
    [ apply core_quiet_ret | apply core_quiet_get | apply core_quiet_log
    | apply core_quiet_clock | apply core_quiet_set_positions
    | apply core_quiet_set_tasks
    | apply core_quiet_lift;
      first [ apply quiet_get_contract | apply quiet_get_market_price
            | apply quiet_get_position | apply quiet_get_open_orders
            | apply quiet_cancel_order ]
    | apply core_quiet_bind; [|intros ?]
    | match goal with
      | |- core_quiet (match ?x with _ => _ end) => destruct x
      | |- core_quiet (if ?x then _ else _) => destruct x
      end ].

Lemma core_quiet_get_trading_decision_now :
  core_quiet (get_trading_decision_now ib tsm).
Proof. unfold get_trading_decision_now. core_quiet. Qed.

Lemma core_quiet_update_position symbol : core_quiet (_update_position ib symbol).
Proof. unfold _update_position. core_quiet. Qed.

Lemma core_quiet_validate position action :
  core_quiet (@_validate_sequential_action W position action).
Proof. unfold _validate_sequential_action. core_quiet. Qed.

(** What the setters and [place_order] do to the core. *)
Lemma post_set_objects h s (Q : unit -> Sys W -> Prop) :
  (forall s', objects s' = h -> pending_orders s' = pending_orders s ->
              (forall a, placed_for s' a = placed_for s a) -> Q tt s') ->
  post (set_objects h) s Q.
Proof. intros H. apply H; reflexivity. Qed.

Lemma post_set_pending_orders d s (Q : unit -> Sys W -> Prop) :
  (forall s', objects s' = objects s -> pending_orders s' = d ->
              (forall a, placed_for s' a = placed_for s a) -> Q tt s') ->
  post (set_pending_orders d) s Q.
Proof. intros H. apply H; reflexivity. Qed.

Lemma post_place_order intent acct contract action quantity order_type limit s
    (Q : option Trade -> Sys W -> Prop) :
  (forall r s',
      objects s' = objects s -> pending_orders s' = pending_orders s ->
      (forall a, placed_for s' a
                 = (placed_for s a
                    + match r, intent with
                      | Some _, Some b => if Nat.eqb b a then 1 else 0
                      | _, _ => 0
                      end)%nat) ->
      Q r s') ->
  post (lift (IBKR.place_order ib intent acct contract action quantity order_type
                limit)) s Q.
Proof.
  intros H. unfold post, lift.
  pose proof (place_order_placed ib intent acct contract action quantity order_type
                limit (env s)) as Hp.
  destruct (IBKR.place_order ib intent acct contract action quantity order_type limit
              (env s)) as [r e]. simpl in *.
  apply H; try reflexivity. intros a. apply Hp.
Qed.



Lemma resubmit_order_effect (a : nat) (s : Sys W) :
  resubmit_effect a s (snd (_resubmit_order ib cfg a s)).
Proof.
  change (post (_resubmit_order ib cfg a) s (fun _ s' => resubmit_effect a s s')).
  unfold _resubmit_order.
  apply post_bind, post_get.
  destruct (objects s !! a) as [po|] eqn:Ea;
    [|apply post_ret, effect_none, same_core_refl].
  apply post_bind, post_core_quiet; [core_quiet|]. intros contract s1 H1.
  destruct contract as [contract|];
    [|apply post_core_quiet; [core_quiet|];
      intros _ s2 H2; apply effect_none; eauto using same_core_trans].
  apply post_bind, post_core_quiet; [core_quiet|]. intros price s2 H2.
  destruct price as [price|];
    [|apply post_core_quiet; [core_quiet|];
      intros _ s3 H3; apply effect_none; eauto using same_core_trans].
  apply post_bind, post_core_quiet; [core_quiet|]. intros open_orders s3 H3.
  apply post_bind, post_core_quiet; [core_quiet|]. intros _ s4 H4.
  assert (H04 : same_core s s4) by eauto using same_core_trans.
  clear H1 H2 H3 H4 s1 s2 s3.
  apply post_bind, post_place_order. intros r s5 Ho5 Hp5 Hc5.
  destruct r as [new_trade|].
  - apply post_bind, post_core_quiet; [core_quiet|]. intros now s6 H6.
    apply post_bind, post_get.
    apply post_bind, post_set_objects. intros s7 Ho7 Hp7 Hc7.
    assert (Hpend : pending_orders s6 = pending_orders s).
    { rewrite (same_pending _ _ H6), Hp5. apply (same_pending _ _ H04). }
    assert (Hobj : objects s6 = objects s).
    { rewrite (same_objects _ _ H6), Ho5. apply (same_objects _ _ H04). }
    assert (Hcnt : forall b, placed_for s7 b
                             = (placed_for s b + if Nat.eqb a b then 1 else 0)%nat).
    { intros b. rewrite Hc7, (same_placed _ _ H6), Hc5, (same_placed _ _ H04).
      reflexivity. }
    rewrite Hpend.
    destruct (dict_mem (pending_orders s) (trade_id po)) eqn:Emem.
    + apply post_bind, post_set_pending_orders. intros s8 Ho8 Hp8 Hc8.
      apply post_core_quiet; [core_quiet|]. intros _ s9 H9.
      eapply effect_replaced with (po := po); [exact Ea | | |].
      * rewrite (same_objects _ _ H9), Ho8, Ho7, Hobj. reflexivity.
      * rewrite (same_pending _ _ H9), Hp8, Emem. reflexivity.
      * intros b. rewrite (same_placed _ _ H9), Hc8. apply Hcnt.
    + apply post_core_quiet; [core_quiet|]. intros _ s8 H8.
      eapply effect_replaced with (po := po); [exact Ea | | |].
      * rewrite (same_objects _ _ H8), Ho7, Hobj. reflexivity.
      * rewrite (same_pending _ _ H8), Hp7, Hpend, Emem. reflexivity.
      * intros b. rewrite (same_placed _ _ H8). apply Hcnt.
  - apply post_core_quiet; [core_quiet|]. intros _ s6 H6.
    apply effect_none. eapply same_core_trans; [exact H04|].
    eapply same_core_trans; [|exact H6].
    split; [exact Ho5 | exact Hp5 |]. intros b. rewrite Hc5. lia.
Qed.

Lemma resubmit_effect_other a b s s' :
  resubmit_effect a s s' -> b ≠ a -> objects s' !! b = objects s !! b.
Proof.
  intros [H | po new_id now Ea Ho Hp Hc] Hne.
  - rewrite (same_objects _ _ H). reflexivity.
  - rewrite Ho. apply list_lookup_insert_ne. congruence.
Qed.

Lemma tracked_ok_same_core s s' : tracked_ok s -> same_core s s' -> tracked_ok s'.
Proof.
  intros [Hnd Hids] [Ho Hp _]. split; rewrite ?Ho, ?Hp; assumption.
Qed.

Lemma tracked_ok_resubmit a s s' :
  tracked_ok s -> resubmit_effect a s s' -> tracked_ok s'.
Proof.
  intros Hok [H | po new_id now Ea Ho Hp Hc]; [eauto using tracked_ok_same_core|].
  destruct Hok as [Hnd Hids].
  assert (Hlt : (a < length (objects s))%nat) by (eapply lookup_lt_Some; exact Ea).
  destruct (dict_mem (pending_orders s) (trade_id po)) eqn:Emem.
  - split; rewrite Hp.
    + apply NoDup_dict_set, NoDup_dict_del, Hnd.
    + intros k b Hin.
      apply elem_of_dict_set in Hin as [[-> ->] | [Hk Hin]];
        [| | apply NoDup_dict_del, Hnd].
      * exists (resubmitted po new_id now). rewrite Ho. split; [|reflexivity].
        apply list_lookup_insert_eq. exact Hlt.
      * assert (Hold : k ≠ trade_id po).
        { intros ->. apply (dict_del_gone (pending_orders s) (trade_id po) Hnd).
          apply (list_elem_of_fmap_2 fst) in Hin. exact Hin. }
        apply elem_of_dict_del in Hin.
        destruct (Hids _ _ Hin) as (pob & Hb & Hid).
        exists pob. split; [|exact Hid].
        rewrite Ho, list_lookup_insert_ne; [exact Hb|].
        intros ->. congruence.
  - split; rewrite Hp; [exact Hnd|].
    intros k b Hin. destruct (Hids _ _ Hin) as (pob & Hb & Hid).
    exists pob. split; [|exact Hid].
    rewrite Ho, list_lookup_insert_ne; [exact Hb|].
    intros ->. assert (pob = po) by congruence. subst pob.
    apply (list_elem_of_fmap_2 fst) in Hin. simpl in Hin. rewrite <- Hid in Hin.
    apply dict_mem_true in Hin. congruence.
Qed.

Lemma tracked_ok_del s s' k :
  tracked_ok s -> objects s' = objects s ->
  pending_orders s' = dict_del (pending_orders s) k -> tracked_ok s'.
Proof.
  intros [Hnd Hids] Ho Hp. split; rewrite Hp.
  - apply NoDup_dict_del, Hnd.
  - intros k' a Hin. rewrite Ho. apply Hids. eapply elem_of_dict_del, Hin.
Qed.

(** The dictionary never holds an object twice. *)
Lemma tracked_ok_addresses s : tracked_ok s -> NoDup (pending_orders s).*2.
Proof.
  intros [Hnd Hids]. apply NoDup_fmap_2_strong.
  - intros [k1 a1] [k2 a2] H1 H2 Heq. simpl in Heq. subst a2.
    destruct (Hids _ _ H1) as (po1 & E1 & <-), (Hids _ _ H2) as (po2 & E2 & <-).
    congruence.
  - eapply NoDup_fmap_1, Hnd.
Qed.


Lemma counted_same_core s s' : counted cfg s -> same_core s s' -> counted cfg s'.
Proof.
  intros [Hobj Hfresh] [Ho Hp Hc]. split.
  - intros a po. rewrite Ho, Hc. apply Hobj.
  - intros a. rewrite Ho, Hc. apply Hfresh.
Qed.

Lemma counted_resubmit a s s' po :
  counted cfg s -> resubmit_effect a s s' -> objects s !! a = Some po ->
  resubmission_count po < max_resubmissions cfg -> counted cfg s'.
Proof.
  intros Hcnt [H | po' new_id now Ea Ho Hp Hc] Hpo Hlt;
    [eauto using counted_same_core|].
  assert (po' = po) by congruence. subst po'.
  destruct Hcnt as [Hobj Hfresh].
  assert (Hlen : (a < length (objects s))%nat) by (eapply lookup_lt_Some; exact Ea).
  split.
  - intros b pob. rewrite Ho, Hc. destruct (Nat.eqb_spec a b) as [<- | Hne].
    + rewrite list_lookup_insert_eq by exact Hlen. intros [= <-]. simpl.
      destruct (Hobj _ _ Ea) as [Hp1 Hp2]. lia.
    + rewrite list_lookup_insert_ne by exact Hne. intros Hb.
      destruct (Hobj _ _ Hb) as [Hp1 Hp2]. lia.
  - intros b. rewrite Ho, length_insert, Hc. intros Hb.
    destruct (Nat.eqb_spec a b) as [<- | Hne]; [lia|].
    rewrite (Hfresh _ Hb). reflexivity.
Qed.


Lemma Inv_same_core s s' : Inv cfg s -> same_core s s' -> Inv cfg s'.
Proof.
  intros [H1 H2] H. split; eauto using tracked_ok_same_core, counted_same_core.
Qed.

Lemma Inv_init (w : W) : Inv cfg (init cfg w).
Proof.
  split; split; simpl.
  - apply NoDup_nil_2.
  - intros k a H. apply elem_of_nil in H as [].
  - intros a po H. rewrite lookup_nil in H. discriminate.
  - reflexivity.
Qed.

(** The sweep only selects tracked objects below the cap. *)
Lemma orders_to_resubmit_selected current_time (s : Sys W) a :
  a ∈ orders_to_resubmit cfg current_time s ->
  exists k po, (k, a) ∈ pending_orders s /\ objects s !! a = Some po
               /\ due_for_resubmission cfg current_time po = true.
Proof.
  unfold orders_to_resubmit. intros H.
  apply list_elem_of_omap in H as ([k b] & Hin & Hsel). simpl in Hsel.
  destruct (objects s !! b) as [po|] eqn:Eb; [|discriminate].
  destruct (due_for_resubmission cfg current_time po) eqn:Edue; [|discriminate].
  injection Hsel as ->. eauto.
Qed.

Lemma due_below_cap current_time po :
  due_for_resubmission cfg current_time po = true ->
  resubmission_count po < max_resubmissions cfg.
Proof.
  unfold due_for_resubmission. intros H. apply andb_true_iff in H as [_ H].
  apply Z.ltb_lt. exact H.
Qed.

Lemma orders_to_resubmit_sublist current_time (s : Sys W) :
  sublist (orders_to_resubmit cfg current_time s) (pending_orders s).*2.
Proof.
  unfold orders_to_resubmit. induction (pending_orders s) as [|[k a] d IH]; simpl.
  - constructor.
  - destruct (objects s !! a) as [po|];
      [destruct (due_for_resubmission cfg current_time po)|];
      simpl; try (apply sublist_cons; exact IH).
    apply sublist_skip. exact IH.
Qed.

Lemma orders_to_resubmit_NoDup current_time (s : Sys W) :
  tracked_ok s -> NoDup (orders_to_resubmit cfg current_time s).
Proof.
  intros H. eapply sublist_NoDup; [|apply orders_to_resubmit_sublist].
  apply tracked_ok_addresses, H.
Qed.

(** The second loop of the sweep keeps the invariant. *)
Lemma for_each_resubmit_Inv (todo : list nat) (s : Sys W) :
  Inv cfg s -> NoDup todo ->
  (forall a, a ∈ todo ->
             exists po, objects s !! a = Some po
                        /\ resubmission_count po < max_resubmissions cfg) ->
  Inv cfg (snd (for_each (_resubmit_order ib cfg) todo s)).
Proof.
  revert s. induction todo as [|a todo IH]; intros s HInv Hnd Hsel; [exact HInv|].
  simpl. unfold bind.
  pose proof (resubmit_order_effect a s) as Heff.
  destruct (_resubmit_order ib cfg a s) as [[] s1]. simpl in Heff.
  apply NoDup_cons in Hnd as [Ha Hnd].
  destruct (Hsel a) as (po & Epo & Hlt); [apply list_elem_of_here|].
  apply IH; [|exact Hnd|].
  - destruct HInv as [H1 H2]. split;
      eauto using tracked_ok_resubmit, counted_resubmit.
  - intros b Hb. rewrite (resubmit_effect_other a b s s1 Heff).
    + apply Hsel, list_elem_of_further, Hb.
    + intros ->. contradiction.
Qed.

Lemma sweep_Inv (s : Sys W) :
  Inv cfg s -> Inv cfg (snd (check_and_resubmit_orders ib cfg s)).
Proof.
  intros HInv. unfold check_and_resubmit_orders, bind.
  pose proof (core_quiet_clock (utcnow ib) s) as H1.
  destruct (clock (utcnow ib) s) as [current_time s1]. simpl in *.
  assert (HInv1 : Inv cfg s1) by eauto using Inv_same_core.
  apply for_each_resubmit_Inv; [exact HInv1 | |].
  - apply orders_to_resubmit_NoDup, HInv1.
  - intros a Ha. apply orders_to_resubmit_selected in Ha as (k & po & _ & Epo & Hdue).
    eauto using due_below_cap.
Qed.

(** Registering a fresh object after its first accepted placement. *)
Lemma track_Inv trade symbol action quantity limit_price (s0 s : Sys W) :
  0 <= max_resubmissions cfg ->
  Inv cfg s0 -> objects s = objects s0 -> pending_orders s = pending_orders s0 ->
  (forall a, placed_for s a
             = (placed_for s0 a
                + if Nat.eqb (length (objects s0)) a then 1 else 0)%nat) ->
  post (_track_pending_order ib trade symbol action quantity limit_price) s
       (fun _ s' => Inv cfg s').
Proof.
  intros Hmax [[Hnd Hids] [Hobj Hfresh]] Ho Hp Hc. unfold _track_pending_order.
  apply post_bind, post_core_quiet; [core_quiet|]. intros now s1 H1.
  apply post_bind, post_get.
  apply post_bind, post_set_objects. intros s2 Ho2 Hp2 Hc2.
  apply post_bind, post_set_pending_orders. intros s3 Ho3 Hp3 Hc3.
  apply post_core_quiet; [core_quiet|]. intros _ s4 H4.
  rewrite (same_objects _ _ H1), Ho in Ho2, Hp3.
  rewrite (same_pending _ _ H1), Hp in Hp3. simpl in Hp3.
  assert (Hcnt : forall a, placed_for s4 a
                           = (placed_for s0 a
                              + if Nat.eqb (length (objects s0)) a then 1 else 0)%nat).
  { intros a. rewrite (same_placed _ _ H4), Hc3, Hc2, (same_placed _ _ H1). apply Hc. }
  assert (Hobj4 : objects s4 = objects s0 ++ [mk_pending
                     (str_of_int (orderId (tr_order trade))) symbol action quantity
                     limit_price now 0 None]).
  { rewrite (same_objects _ _ H4), Ho3. exact Ho2. }
  split; split.
  - rewrite (same_pending _ _ H4), Hp3. apply NoDup_dict_set, Hnd.
  - intros k a. rewrite (same_pending _ _ H4), Hp3, Hobj4. intros Hin.
    apply elem_of_dict_set in Hin as [[-> ->] | [Hk Hin]]; [| |exact Hnd].
    + eexists. split; [apply list_lookup_middle; reflexivity | reflexivity].
    + destruct (Hids _ _ Hin) as (po & Ea & Hid). exists po. split; [|exact Hid].
      apply lookup_app_l_Some. exact Ea.
  - intros a po. rewrite Hobj4, Hcnt. intros Ea.
    destruct (Nat.eqb_spec (length (objects s0)) a) as [<- | Hne].
    + rewrite list_lookup_middle in Ea by reflexivity. injection Ea as <-. simpl.
      rewrite (Hfresh (length (objects s0))) by lia. simpl. lia.
    + assert (Hlt : (a < length (objects s0))%nat).
      { apply lookup_lt_Some in Ea. rewrite length_app in Ea. simpl in Ea. lia. }
      rewrite lookup_app_l in Ea by exact Hlt.
      destruct (Hobj _ _ Ea). lia.
  - intros a. rewrite Hobj4, length_app, Hcnt. simpl. intros Ha.
    destruct (Nat.eqb_spec (length (objects s0)) a); [lia|].
    rewrite Hfresh by lia. reflexivity.
Qed.

Lemma execute_trade_Inv symbol action quantity trading_decision (s : Sys W) :
  0 <= max_resubmissions cfg -> Inv cfg s ->
  post (_execute_trade ib cfg symbol action quantity trading_decision) s
       (fun _ s' => Inv cfg s').
Proof.
  intros Hmax HInv. unfold _execute_trade.
  apply post_bind, post_core_quiet; [core_quiet|]. intros contract s1 H1.
  destruct contract as [contract|];
    [|apply post_core_quiet; [core_quiet|]; intros _ s2 H2;
      eauto using Inv_same_core, same_core_trans].
  destruct (max_position_size cfg <? quantity);
    [apply post_core_quiet; [core_quiet|]; intros _ s2 H2;
     eauto using Inv_same_core, same_core_trans|].
  apply post_bind, post_core_quiet; [core_quiet|]. intros priced s2 H2.
  assert (H02 : same_core s s2) by eauto using same_core_trans.
  destruct priced as [limit_price|]; [|apply post_ret; eauto using Inv_same_core].
  apply post_bind, post_get.
  apply post_bind, post_place_order. intros r s3 Ho3 Hp3 Hc3.
  destruct r as [trade|]; [|apply post_ret].
  - apply post_bind.
    destruct (is_limit (MarketHours.recommended_order_type trading_decision)).
    + eapply post_mono.
      * apply (track_Inv trade symbol action quantity limit_price s2 s3 Hmax);
          [eauto using Inv_same_core | exact Ho3 | exact Hp3 | exact Hc3].
      * intros x s4 H4. apply post_ret. exact H4.
    + apply post_ret, post_ret. apply (Inv_same_core s2); [eauto using Inv_same_core|].
      split; [exact Ho3 | exact Hp3 |]. intros a. rewrite Hc3. lia.
  - apply (Inv_same_core s2); [eauto using Inv_same_core|].
    split; [exact Ho3 | exact Hp3 |]. intros a. rewrite Hc3. lia.
Qed.

Lemma process_alert_Inv alert (s : Sys W) :
  0 <= max_resubmissions cfg -> Inv cfg s ->
  post (process_alert ib cfg tsm alert) s (fun _ s' => Inv cfg s').
Proof.
  intros Hmax HInv. unfold process_alert.
  apply post_bind, post_core_quiet; [core_quiet|]. intros _ s1 H1.
  apply post_bind, post_core_quiet; [apply core_quiet_get_trading_decision_now|].
  intros decision s2 H2.
  destruct (negb (MarketHours.can_trade decision)).
  { apply post_core_quiet; [core_quiet|]. intros _ s3 H3.
    eauto using Inv_same_core, same_core_trans. }
  apply post_bind, post_core_quiet; [apply core_quiet_update_position|].
  intros _ s3 H3.
  apply post_bind, post_core_quiet; [core_quiet|]. intros now s4 H4.
  apply post_bind, post_get.
  apply post_bind, post_core_quiet; [apply core_quiet_validate|]. intros ok s5 H5.
  assert (HInv5 : Inv cfg s5) by eauto 10 using Inv_same_core, same_core_trans.
  destruct ok; simpl; [|apply post_ret; exact HInv5].
  apply post_bind. eapply post_mono; [apply execute_trade_Inv; assumption|].
  intros success s6 H6. simpl.
  apply post_core_quiet; [core_quiet|]. intros _ s7 H7.
  exact (Inv_same_core _ _ H6 H7).
Qed.

Lemma on_fill_Inv fill (s : Sys W) : Inv cfg s -> Inv cfg (snd (_on_fill fill s)).
Proof.
  intros HInv.
  change (post (_on_fill fill) s (fun _ s' => Inv cfg s')). unfold _on_fill.
  apply post_bind, post_core_quiet; [core_quiet|]. intros _ s1 H1.
  apply post_bind, post_get.
  apply post_bind, post_core_quiet; [core_quiet|]. intros _ s2 H2.
  assert (HInv2 : Inv cfg s2) by eauto using Inv_same_core, same_core_trans.
  destruct (dict_mem _ _); [|apply post_ret; exact HInv2].
  apply post_bind, post_set_pending_orders. intros s3 Ho3 Hp3 Hc3.
  apply post_core_quiet; [core_quiet|]. intros _ s4 H4.
  apply (Inv_same_core s3); [|exact H4].
  destruct HInv2 as [Hok Hcnt]. split.
  - eapply tracked_ok_del; [exact Hok | exact Ho3 |].
    rewrite Hp3, (same_pending _ _ H2). reflexivity.
  - destruct Hcnt as [Hobj Hfresh]. split.
    + intros a po. rewrite Ho3, Hc3. apply Hobj.
    + intros a. rewrite Ho3, Hc3. apply Hfresh.
Qed.

Lemma on_order_status_Inv trade (s : Sys W) :
  Inv cfg s -> Inv cfg (snd (_on_order_status trade s)).
Proof.
  intros HInv.
  change (post (_on_order_status trade) s (fun _ s' => Inv cfg s')).
  unfold _on_order_status.
  destruct (str_in _ _); [|apply post_ret; exact HInv].
  apply post_bind, post_get.
  destruct (dict_mem _ _); [|apply post_ret; exact HInv].
  apply post_bind, post_set_pending_orders. intros s3 Ho3 Hp3 Hc3.
  apply post_core_quiet; [core_quiet|]. intros _ s4 H4.
  apply (Inv_same_core s3); [|exact H4].
  destruct HInv as [Hok Hcnt]. split.
  - eapply tracked_ok_del; [exact Hok | exact Ho3 | exact Hp3].
  - destruct Hcnt as [Hobj Hfresh]. split.
    + intros a po. rewrite Ho3, Hc3. apply Hobj.
    + intros a. rewrite Ho3, Hc3. apply Hfresh.
Qed.

Lemma step_Inv op (s : Sys W) :
  0 <= max_resubmissions cfg -> Inv cfg s -> Inv cfg (snd (step ib cfg tsm op s)).
Proof.
  intros Hmax HInv. destruct op as [alert|fill|trade| |]; simpl.
  - change (post (bind (process_alert ib cfg tsm alert) (fun _ => ret tt)) s
              (fun _ s' => Inv cfg s')).
    apply post_bind. eapply post_mono; [apply process_alert_Inv; assumption|].
    intros x s1 H1. exact H1.
  - apply on_fill_Inv, HInv.
  - apply on_order_status_Inv, HInv.
  - apply sweep_Inv, HInv.
  - change (post (bind get (fun s0 => match tasks s0 with
                                      | [] => ret tt
                                      | symbol :: rest =>
                                          bind (set_tasks rest)
                                            (fun _ => _update_position ib symbol)
                                      end)) s (fun _ s' => Inv cfg s')).
    apply post_bind, post_get. destruct (tasks s) as [|symbol rest].
    + exact HInv.
    + apply post_bind, post_core_quiet; [core_quiet|]. intros _ s1 H1.
      apply post_core_quiet; [apply core_quiet_update_position|]. intros _ s2 H2.
      eauto using Inv_same_core, same_core_trans.
Qed.

Lemma run_Inv ops (s : Sys W) :
  0 <= max_resubmissions cfg -> Inv cfg s -> Inv cfg (snd (run ib cfg tsm ops s)).
Proof.
  intros Hmax. revert s. unfold run.
  induction ops as [|op ops IH]; intros s HInv; [exact HInv|].
  simpl. unfold bind. pose proof (step_Inv op s Hmax HInv) as H1.
  destruct (step ib cfg tsm op s) as [[] s1]. apply IH, H1.
Qed.

(** An exhausted record survives the second loop of the sweep. *)
Lemma for_each_resubmit_keeps (selected todo : list nat) (s : Sys W)
    (k : string) (a : nat) (po : PendingOrder) :
  tracked_ok s -> NoDup todo ->
  (forall b, b ∈ todo ->
             b ∈ selected /\ b ≠ a
             /\ exists pob, objects s !! b = Some pob /\ trade_id pob ≠ k) ->
  objects s !! a = Some po ->
  (dict_get (pending_orders s) k = Some a
   \/ exists b, b ∈ selected /\ b ≠ a /\ dict_get (pending_orders s) k = Some b) ->
  let s' := snd (for_each (_resubmit_order ib cfg) todo s) in
  objects s' !! a = Some po /\
  (dict_get (pending_orders s') k = Some a
   \/ exists b, b ∈ selected /\ b ≠ a /\ dict_get (pending_orders s') k = Some b).
Proof.
  revert s. induction todo as [|b todo IH]; intros s Hok Hnd Htodo Ea Hk; [auto|].
  simpl. unfold bind.
  pose proof (resubmit_order_effect b s) as Heff.
  destruct (_resubmit_order ib cfg b s) as [[] s1]. simpl in Heff.
  apply NoDup_cons in Hnd as [Hb Hnd].
  destruct (Htodo b) as (Hsel & Hba & pob & Eb & Hid); [apply list_elem_of_here|].
  apply IH; [eauto using tracked_ok_resubmit | exact Hnd | | |].
  - intros c Hc. destruct (Htodo c) as (Hc1 & Hc2 & Hc3);
      [apply list_elem_of_further, Hc|].
    split; [exact Hc1|]. split; [exact Hc2|].
    rewrite (resubmit_effect_other b c s s1 Heff); [exact Hc3|].
    intros ->. contradiction.
  - rewrite (resubmit_effect_other b a s s1 Heff); [exact Ea | congruence].
  - destruct Heff as [H | po' new_id now Eb' Ho Hp Hc].
    + rewrite (same_pending _ _ H). exact Hk.
    + assert (po' = pob) by congruence. subst po'. rewrite Hp.
      destruct (dict_mem (pending_orders s) (trade_id pob)); [|exact Hk].
      destruct (String.eqb_spec new_id k) as [-> | Hnew].
      * right. exists b. rewrite dict_get_set. auto.
      * rewrite dict_get_set_ne, dict_get_del_ne by assumption. exact Hk.
Qed.

(** The sweep's test, in the words of the specification. *)
Lemma due_for_resubmission_spec current_time po :
  due_for_resubmission cfg current_time po = true
  <-> timed_out cfg current_time po /\ below_cap cfg po.
Proof.
  unfold due_for_resubmission, timed_out, below_cap, idle_since.
  rewrite andb_true_iff, Z.leb_le, Z.ltb_lt.
  destruct (last_resubmission po); reflexivity.
Qed.

(** The work list of the sweep: the tracked orders that are timed out and
    below the cap. *)
Lemma orders_to_resubmit_spec current_time (s : Sys W) b :
  b ∈ orders_to_resubmit cfg current_time s
  <-> exists kb pob, (kb, b) ∈ pending_orders s /\ objects s !! b = Some pob
                     /\ timed_out cfg current_time pob /\ below_cap cfg pob.
Proof.
  split.
  - intros H. apply orders_to_resubmit_selected in H as (kb & pob & Hin & Eb & Hdue).
    apply due_for_resubmission_spec in Hdue. eauto.
  - intros (kb & pob & Hin & Eb & Hdue). apply due_for_resubmission_spec in Hdue.
    unfold orders_to_resubmit. apply list_elem_of_omap. exists (kb, b).
    split; [exact Hin|]. simpl. rewrite Eb, Hdue. reflexivity.
Qed.

(** C4, amended. The sweep abandons nothing.  A tracked order whose
    [resubmission_count] has reached [max_resubmissions] is never selected:
    after the sweep its record is unchanged and its order id is still a key
    of the pending set, leading to that record unless the gateway issued the
    same id to an order replaced in this sweep.  The sweep selects exactly
    the tracked orders that are both timed out and below the cap; when
    there is none, it logs nothing, calls nothing and leaves the whole
    tracker as it was. *)
Theorem sweep_keeps_exhausted (s : Sys W) (k : string) (a : nat) (po : PendingOrder) :
  tracked_ok s ->
  (k, a) ∈ pending_orders s ->
  objects s !! a = Some po ->
  max_resubmissions cfg <= resubmission_count po ->
  let current_time := fst (utcnow ib (world (env s))) in
  let selected := orders_to_resubmit cfg current_time s in
  let s' := snd (check_and_resubmit_orders ib cfg s) in
  (a ∉ selected) /\
  objects s' !! a = Some po /\
  (dict_get (pending_orders s') k = Some a
   \/ exists b, b ∈ selected /\ b ≠ a /\ dict_get (pending_orders s') k = Some b) /\
  (forall b,
     b ∈ selected
     <-> exists kb pob, (kb, b) ∈ pending_orders s /\ objects s !! b = Some pob
                        /\ timed_out cfg current_time pob /\ below_cap cfg pob) /\
  ((forall kb b pob,
      (kb, b) ∈ pending_orders s -> objects s !! b = Some pob ->
      ~ (timed_out cfg current_time pob /\ below_cap cfg pob)) ->
   objects s' = objects s /\ pending_orders s' = pending_orders s /\
   logs (env s') = logs (env s) /\ calls (env s') = calls (env s)).
Proof.
  intros Hok Hin Ea Hmax current_time selected s'.
  assert (Hspec : forall b,
            b ∈ selected
            <-> exists kb pob, (kb, b) ∈ pending_orders s /\ objects s !! b = Some pob
                               /\ timed_out cfg current_time pob /\ below_cap cfg pob)
    by (intros b; apply orders_to_resubmit_spec).
  assert (Hnot : a ∉ selected).
  { intros Ha. apply orders_to_resubmit_selected in Ha as (k' & po' & _ & Ea' & Hdue).
    apply due_below_cap in Hdue. assert (po' = po) by congruence. subst po'. lia. }
  split; [exact Hnot|].
  subst s'. unfold check_and_resubmit_orders, bind, clock, lift, IBKR.oracle. simpl.
  fold current_time.
  destruct (utcnow ib (world (env s))) as [t w1] eqn:Eclock. simpl in current_time.
  set (s1 := mk_sys (mk_env w1 (calls (env s)) (logs (env s))) (positions s)
               (objects s) (pending_orders s) (tasks s)).
  assert (Hsel1 : orders_to_resubmit cfg t s1 = selected) by reflexivity.
  assert (Hok1 : tracked_ok s1) by (destruct Hok; split; assumption).
  rewrite Hsel1.
  pose proof (for_each_resubmit_keeps selected selected s1 k a po Hok1) as Hloop.
  simpl in Hloop. destruct Hloop as [Hobj Hkey].
  - apply orders_to_resubmit_NoDup, Hok.
  - intros b Hb. split; [exact Hb|].
    assert (Hba : b ≠ a) by (intros ->; contradiction).
    split; [exact Hba|].
    apply orders_to_resubmit_selected in Hb as (kb & pob & Hinb & Eb & _).
    exists pob. split; [exact Eb|].
    destruct (keys_are_ids s Hok _ _ Hinb) as (pob' & Eb' & Hidb).
    assert (pob' = pob) by congruence. subst pob'. rewrite Hidb.
    intros ->. apply Hba.
    pose proof (dict_get_elem _ _ _ (keys_nodup s Hok) Hin).
    pose proof (dict_get_elem _ _ _ (keys_nodup s Hok) Hinb). congruence.
  - exact Ea.
  - left. apply dict_get_elem; [apply (keys_nodup s Hok) | exact Hin].
  - split; [exact Hobj|]. split; [exact Hkey|]. split; [exact Hspec|].
    intros Hnone.
    assert (Hnil : selected = []).
    { destruct selected as [|b rest] eqn:Esel; [reflexivity | exfalso].
      destruct (proj1 (Hspec b) (list_elem_of_here _ _))
        as (kb & pob & Hinb & Eb & Hdue).
      exact (Hnone kb b pob Hinb Eb Hdue). }
    rewrite Hnil. simpl. auto.
Qed.

(** C5. Started from the engine as constructed and run through any sequence
    of alerts, fills, status events, sweeps and position refreshes, the
    gateway has accepted at most [max_resubmissions + 1] orders for every
    originating intent (PendingOrder object): the accepted placements of a
    tracked intent number its [resubmission_count] plus the initial one,
    the count never exceeds [max_resubmissions], the sweep selects an order
    only while its count is below [max_resubmissions], and one resubmission
    either leaves the count alone or raises it by one together with exactly
    one accepted placement. *)
Theorem resubmission_cap (ops : list Op) (w : W) :
  0 <= max_resubmissions cfg ->
  let s := snd (run ib cfg tsm ops (init cfg w)) in
  (forall a, Z.of_nat (placed_for s a) <= max_resubmissions cfg + 1) /\
  (forall a po, objects s !! a = Some po ->
                Z.of_nat (placed_for s a) = resubmission_count po + 1
                /\ resubmission_count po <= max_resubmissions cfg) /\
  (forall current_time a,
      a ∈ orders_to_resubmit cfg current_time s ->
      exists po, objects s !! a = Some po
                 /\ resubmission_count po < max_resubmissions cfg) /\
  (forall a, resubmit_effect a s (snd (_resubmit_order ib cfg a s))).
Proof.
  intros Hmax s.
  assert (HInv : Inv cfg s) by (apply run_Inv; [exact Hmax | apply Inv_init]).
  destruct HInv as [Hok [Hobj Hfresh]].
  split; [|split; [|split]].
  - intros a. destruct (objects s !! a) as [po|] eqn:Ea.
    + destruct (Hobj _ _ Ea). lia.
    + apply lookup_ge_None in Ea. rewrite (Hfresh _ Ea). simpl. lia.
  - intros a po Ea. destruct (Hobj _ _ Ea). lia.
  - intros current_time a Ha.
    apply orders_to_resubmit_selected in Ha as (k & po & _ & Epo & Hdue).
    eauto using due_below_cap.
  - intros a. apply resubmit_order_effect.
Qed.

End Tracker.


(** C4 as stated fails: the order has timed out and its count has reached
    the cap, yet after the sweep it is still tracked, unchanged, and nothing
    was logged or sent. *)
Lemma sweep_abandons_nothing_counterexample :
  let s' := snd (Engine.check_and_resubmit_orders late_gateway default_config
                   exhausted_state) in
  (Engine.limit_order_timeout default_config * 60000000 <=? 10000000000 - 0) = true
  /\ Engine.resubmission_count exhausted_order = Engine.max_resubmissions default_config
  /\ Engine.pending_orders s' = [("7", 0%nat)]
  /\ Engine.objects s' = [exhausted_order]
  /\ World.logs (Engine.env s') = []
  /\ World.calls (Engine.env s') = [].
Proof. repeat split. Qed.

Lemma sweep_keeps_exhausted_witness :
  Engine.objects
    (snd (Engine.check_and_resubmit_orders late_gateway default_config
            exhausted_state)) !! 0%nat
  = Some exhausted_order.
Proof.
  refine (proj1 (proj2 (sweep_keeps_exhausted late_gateway default_config
                          exhausted_state "7" 0%nat exhausted_order _ _ _ _))).
  - split; simpl.
    + apply NoDup_singleton.
    + intros k a Hin. apply list_elem_of_singleton in Hin. injection Hin as -> ->.
      exists exhausted_order. split; reflexivity.
  - apply list_elem_of_here.
  - reflexivity.
  - simpl. lia.
Defined.


(** After a limit BUY and five sweeps the gateway has accepted four orders
    for the intent: the first placement and three replacements. *)
Lemma resubmission_cap_witness :
  let s := snd (Engine.run (steady_gateway quiet_ticker 7 0 tuesday_5am) eager_config
                  pre_market_manager buy_then_sweeps (Engine.init eager_config tt)) in
  placed_for s 0 = 4%nat
  /\ Z.of_nat (placed_for s 0) <= Engine.max_resubmissions eager_config + 1.
Proof.
  split; [reflexivity|].
  refine (proj1 (resubmission_cap (steady_gateway quiet_ticker 7 0 tuesday_5am)
                   eager_config pre_market_manager buy_then_sweeps tt _) 0%nat).
  simpl. lia.
Defined.

(** ** The webhook (src/webhook.py) *)

Section WebhookStatus.
Import Py Webhook.
Context (int_of_str : string -> option Z)
        (float_of_str : string -> option xfloat)
        (py_str : json -> string)
        (fromisoformat_ok : string -> bool)
        (utcnow_iso : string)
        (json_dumps : json -> string)
        (hmac_sha256_hex : string -> string -> string).


Abbreviation parse :=
  (parse_alert int_of_str float_of_str py_str fromisoformat_ok utcnow_iso).
Abbreviation handle := (webhook json_dumps hmac_sha256_hex).

(** C9, amended. The handler never looks at the alert's fields: for an
    authenticated request it answers 200 "Alert processed" when the alert
    callback returns and 500 when the callback raises or none is configured,
    so never 400.  The parser does reject an unknown action, a missing
    symbol and a missing quantity with a ValueError that names the problem,
    but the callback trading_bot.py installs catches every exception of the
    parser, so with it such a request is answered 200. *)
Theorem webhook_status_of_authenticated (self : WebhookServer) (request : Request)
    (data : json) :
  authenticated json_dumps hmac_sha256_hex self request data ->
  handle self request
  = match alert_callback self with
    | Some callback =>
        match callback data with
        | Returned => (StatusBody "success" "Alert processed", 200)
        | Raised => (ErrorBody "Failed to process alert", 500)
        end
    | None => (ErrorBody "No alert processor configured", 500)
    end
  /\ snd (handle self request) ≠ 400
  /\ (forall engine,
        alert_callback self
        = Some (bot_callback int_of_str float_of_str py_str fromisoformat_ok
                  utcnow_iso engine) ->
        handle self request = (StatusBody "success" "Alert processed", 200))
  /\ (forall d a,
        data = JObj d -> dict_get d "action" = Some (JStr a) ->
        str_in (strip (lower a)) ["buy"; "sell"; "short"; "cover"] = false ->
        parse data
        = Raise (ValueError ("Invalid or missing action: " ++ strip (lower a))%string))
  /\ (forall d a,
        data = JObj d -> dict_get d "action" = Some (JStr a) ->
        str_in (strip (lower a)) ["buy"; "sell"; "short"; "cover"] = true ->
        (dict_get d "symbol" = None -> parse data = Raise (ValueError "Missing symbol"))
        /\ (forall sy, dict_get d "symbol" = Some (JStr sy) ->
                       strip (upper sy) ≠ "" ->
                       dict_get d "quantity" = None ->
                       parse data = Raise (ValueError "Missing quantity"))).
Proof.
  intros (Hip & Hjson & Hdata & Htruthy & Hsig).
  assert (Hmain : handle self request
                  = match alert_callback self with
                    | Some callback =>
                        match callback data with
                        | Returned => (StatusBody "success" "Alert processed", 200)
                        | Raised => (ErrorBody "Failed to process alert", 500)
                        end
                    | None => (ErrorBody "No alert processor configured", 500)
                    end).
  { unfold webhook. rewrite Hjson, Hdata, Htruthy. simpl.
    replace (negb (match allowed_ips self with [] => true | _ => false end)
             && negb (str_in (remote_addr request) (allowed_ips self))) with false.
    2:{ destruct Hip as [-> | ->]; [reflexivity|]. simpl.
        rewrite andb_false_r. reflexivity. }
    replace (negb (String.eqb (secret self) "")
             && negb (_verify_signature hmac_sha256_hex self (json_dumps data)
                        (x_signature request))) with false.
    2:{ destruct Hsig as [-> | ->]; [reflexivity|]. simpl.
        rewrite andb_false_r. reflexivity. }
    reflexivity. }
  split; [exact Hmain|]. split; [|split; [|split]].
  - rewrite Hmain. destruct (alert_callback self) as [callback|];
      [destruct (callback data)|]; simpl; discriminate.
  - intros engine Hcb. rewrite Hmain, Hcb. reflexivity.
  - intros d a -> Ha Hin. unfold parse_alert, py_get. rewrite Ha.
    cbv beta iota zeta. rewrite Hin. reflexivity.
  - intros d a -> Ha Hin. split.
    + intros Hsy. unfold parse_alert, py_get. rewrite Ha, Hsy.
      cbv beta iota zeta. rewrite Hin. reflexivity.
    + intros sy Hsy Hne Hq. unfold parse_alert, py_get. rewrite Ha, Hsy, Hq.
      cbv beta iota zeta. rewrite Hin.
      destruct (String.eqb_spec (strip (upper sy)) ""); [contradiction|reflexivity].
Qed.

End WebhookStatus.


(** C9 as stated fails: the alert carries the unknown action "hold" and the
    parser raises ValueError for it; the server answers 200 with the bot's
    callback, and 500 with a callback that lets the exception escape.  It
    answers 400 with neither. *)
Lemma webhook_unknown_action_counterexample :
  Webhook.parse_alert (fun _ => None) (fun _ => None) (fun _ => "") (fun _ => false) ""
    hold_alert
  = Webhook.Raise (Webhook.ValueError "Invalid or missing action: hold")
  /\ Webhook.webhook (fun _ => "") (fun _ _ => "") open_server hold_request
     = (Webhook.StatusBody "success" "Alert processed", 200)
  /\ Webhook.webhook (fun _ => "") (fun _ _ => "") strict_server hold_request
     = (Webhook.ErrorBody "Failed to process alert", 500).
Proof. repeat split. Qed.

Lemma webhook_status_of_authenticated_witness :
  Webhook.webhook (fun _ => "") (fun _ _ => "") open_server hold_request
  = (Webhook.StatusBody "success" "Alert processed", 200).
Proof.
  refine (proj1 (proj2 (proj2 (webhook_status_of_authenticated (fun _ => None)
                                 (fun _ => None) (fun _ => "") (fun _ => false) ""
                                 (fun _ => "") (fun _ _ => "") open_server
                                 hold_request hold_alert _))) (fun _ => true) eq_refl).
  repeat split; auto.
Defined.

(** ** The order monitor (src/order_manager.py) *)

Section OrderMonitor.
Import Py Monitor.

(** With the counter at zero, the fill of a record that has a placement
    time divides by zero, and the counter is still zero afterwards. *)
Lemma find_and_fill_zero_divisor (self : OrderMonitor) (oid : string)
    (fill_price : pyfloat) (fill_time : Z) (later rev_rest : list OrderRecord) :
  filled_orders (order_stats self) = 0 ->
  Forall (fun r => placed_time r ≠ None) rev_rest ->
  Exists (fun r => order_id r = oid) rev_rest ->
  exists self', find_and_fill self oid fill_price fill_time later rev_rest
                = ZeroDivisionError self'
                /\ filled_orders (order_stats self') = 0.
Proof.
  intros Hzero Hplaced Hex. revert later.
  induction rev_rest as [|record older IH]; intros later.
  - inversion Hex.
  - simpl. apply Forall_cons in Hplaced as [Hp Hplaced].
    destruct (String.eqb_spec (order_id record) oid) as [Heq | Hne].
    + simpl. destruct (placed_time record) as [placed|]; [|contradiction].
      unfold _update_avg_fill_time, fdiv_int. simpl. rewrite Hzero. simpl.
      eexists. split; [reflexivity | exact Hzero].
    + apply IH; [exact Hplaced|].
      apply Exists_cons in Hex as [Hex | Hex]; [contradiction | exact Hex].
Qed.

(** C10, refuted on the code: the first fill that matches a placed order
    finds the filled-orders counter, which is the divisor, at zero. *)
Theorem record_order_filled_divides_by_zero :
  let placed := record_order_placed new_monitor 0 "1" "AAPL" "BUY" 100 "MKT" None in
  fill_time_divisor placed = 0
  /\ exists self', record_order_filled placed "1" (Fin 150) 5000000
                   = ZeroDivisionError self'
                   /\ filled_orders (order_stats self') = 0.
Proof. split; [reflexivity|]. eexists. split; reflexivity. Qed.

End OrderMonitor.

(** * Further properties of the code *)

(** ** Session predicates (src/market_hours.py) *)

Section SessionPredicates.
Import MarketHours.
Context {instant : Type} (to_eastern : instant -> local_datetime).

(** X1. The session predicates agree with each other at every instant. *)
Theorem session_predicates_agree (m : TradingSessionManager) (dt : instant) :
  let mh := market_hours m in
  let open := SessionQueries.is_market_open to_eastern mh dt in
  let extended := SessionQueries.is_extended_hours to_eastern mh dt in
  let allowed := SessionQueries.is_trading_allowed to_eastern mh dt in
  let i := get_session_info to_eastern mh dt in
  allowed = open || extended /\
  open && extended = false /\
  is_market_open i = open /\
  is_extended_hours i = extended /\
  is_trading_allowed i = allowed /\
  (is_weekend i = true -> allowed = false) /\
  (can_trade_now to_eastern m dt = true -> allowed = true) /\
  SessionQueries.should_use_limit_order to_eastern mh dt = extended /\
  SessionQueries.should_use_market_order to_eastern mh dt = open /\
  get_order_type to_eastern m dt = (if open then "MKT" else "LMT").
Proof.
  unfold SessionQueries.is_market_open, SessionQueries.is_extended_hours,
    SessionQueries.is_trading_allowed, SessionQueries.should_use_limit_order,
    SessionQueries.should_use_market_order, SessionQueries.session_in,
    get_session_info, can_trade_now, get_order_type; simpl.
  assert (Hw : (5 <=? weekday (to_eastern dt))%nat = true ->
               get_current_session to_eastern (market_hours m) dt = CLOSED).
  { intros H. unfold get_current_session. rewrite H. reflexivity. }
  destruct (get_current_session to_eastern (market_hours m) dt); simpl;
    repeat split; try reflexivity; try congruence;
    intros H; apply Hw in H; discriminate.
Qed.

(** X2. For one instant, the reason attached to a decision is never the
    fall-through text. *)
Theorem trading_reason_is_specific (m : TradingSessionManager) (dt : instant) :
  let d := get_trading_decision to_eastern m dt in
  reason d =
    match get_current_session to_eastern (market_hours m) dt with
    | MARKET => "Regular market hours - using market orders"
    | PRE_MARKET =>
        if enable_pre_market m
        then "Extended hours (pre_market) - using limit orders"
        else "Pre-market trading disabled"
    | POST_MARKET =>
        if enable_post_market m
        then "Extended hours (post_market) - using limit orders"
        else "Post-market trading disabled"
    | CLOSED => "Market is closed"
    end
  /\ reason d <> "Unknown".
Proof.
  unfold get_trading_decision, get_session_info, can_trade_now, _get_trading_reason;
    simpl.
  destruct (get_current_session to_eastern (market_hours m) dt); simpl;
    try destruct (enable_pre_market m); try destruct (enable_post_market m); simpl;
    split; try reflexivity; discriminate.
Qed.

End SessionPredicates.

(** ** The order monitor: history and queries (src/order_manager.py) *)

Section MonitorHistory.
Import Py Monitor MonitorQueries.

(** X3. Recording a placement appends the record, keeps at most
    [max_history_size] records by dropping the oldest ones, and counts the
    order. *)
Theorem record_order_placed_bounded_history (self : OrderMonitor) (now : Z)
    (oid sym act : string) (qty : Z) (otype : string) (limit : option pyfloat) :
  (0 < max_history_size self)%nat ->
  let record := mk_record oid sym act qty otype limit (Some now) "placed" None None 0 in
  let self' := record_order_placed self now oid sym act qty otype limit in
  length (order_history self')
  = Nat.min (length (order_history self) + 1) (max_history_size self) /\
  order_history self' `suffix_of` order_history self ++ [record] /\
  List.last (order_history self') record = record /\
  record ∈ order_history self' /\
  total_orders (order_stats self') = total_orders (order_stats self) + 1 /\
  max_history_size self' = max_history_size self.
Proof.
  intros Hmax record self'. subst self'.
  unfold record_order_placed, _add_to_history; simpl. fold record.
  set (h := order_history self ++ [record]).
  assert (Hlen : length h = (length (order_history self) + 1)%nat)
    by (unfold h; rewrite length_app; reflexivity).
  assert (Hsplit : forall k, (k < length h)%nat ->
            skipn k h = skipn k (order_history self) ++ [record]).
  { intros k Hk. unfold h. rewrite skipn_app.
    replace (k - length (order_history self))%nat with 0%nat by lia. reflexivity. }
  destruct (max_history_size self <? length h)%nat eqn:E.
  - apply Nat.ltb_lt in E.
    repeat split.
    + rewrite length_skipn. lia.
    + eexists. symmetry. apply take_drop.
    + rewrite Hsplit by lia. apply last_last.
    + rewrite Hsplit by lia. set_solver.
  - apply Nat.ltb_ge in E.
    repeat split.
    + lia.
    + unfold h. reflexivity.
    + apply last_last.
    + unfold h. set_solver.
Qed.

(** The cancellation loop on a history that holds no record of the order,
    and on one that does. *)
Lemma find_and_cancel_none (oid : string) (later h : list OrderRecord) :
  Forall (fun r => order_id r <> oid) h ->
  find_and_cancel oid later (rev h) = h ++ later.
Proof.
  revert later. induction h as [|r h IH] using rev_ind; intros later Hno;
    [reflexivity|].
  apply Forall_app in Hno as [Hh Hr]. apply Forall_cons in Hr as [Hr _].
  rewrite rev_unit. simpl.
  destruct (String.eqb_spec (order_id r) oid) as [Heq|_]; [contradiction|].
  rewrite IH by exact Hh. rewrite <- app_assoc. reflexivity.
Qed.

Lemma find_and_cancel_some (oid : string) (later before after : list OrderRecord)
    (r : OrderRecord) :
  order_id r = oid ->
  Forall (fun r' => order_id r' <> oid) after ->
  find_and_cancel oid later (rev (before ++ r :: after))
  = before ++ mark_cancelled r :: after ++ later.
Proof.
  intros Hr. revert later.
  induction after as [|x after IH] using rev_ind; intros later Hno.
  - rewrite rev_unit. simpl.
    destruct (String.eqb_spec (order_id r) oid) as [_|Hne]; [|contradiction].
    rewrite rev_involutive. reflexivity.
  - apply Forall_app in Hno as [Hafter Hx]. apply Forall_cons in Hx as [Hx _].
    replace (before ++ r :: after ++ [x]) with ((before ++ r :: after) ++ [x])
      by (rewrite <- app_assoc; reflexivity).
    rewrite rev_unit. simpl.
    destruct (String.eqb_spec (order_id x) oid) as [Heq|_]; [contradiction|].
    rewrite IH by exact Hafter. rewrite <- app_assoc. reflexivity.
Qed.

(** Every history splits at its newest record of a given order, if any. *)
Lemma newest_record (oid : string) (h : list OrderRecord) :
  Forall (fun r => order_id r <> oid) h
  \/ exists before r after,
       h = before ++ r :: after /\ order_id r = oid
       /\ Forall (fun r' => order_id r' <> oid) after.
Proof.
  induction h as [|x h IH]; [left; constructor|].
  destruct IH as [Hno | (before & r & after & -> & Hr & Hafter)].
  - destruct (string_dec (order_id x) oid) as [Heq | Hne].
    + right. exists [], x, h. auto.
    + left. constructor; assumption.
  - right. exists (x :: before), r, after. auto.
Qed.

(** X4. A cancellation always counts, whether or not the order is in the
    history; it marks the newest record of the order, and no other. *)
Theorem record_order_cancelled_marks_newest (self : OrderMonitor) (oid : string) :
  let self' := record_order_cancelled self oid in
  cancelled_orders (order_stats self') = cancelled_orders (order_stats self) + 1 /\
  length (order_history self') = length (order_history self) /\
  (Forall (fun r => order_id r <> oid) (order_history self) ->
   order_history self' = order_history self) /\
  (forall before r after,
      order_history self = before ++ r :: after ->
      order_id r = oid ->
      Forall (fun r' => order_id r' <> oid) after ->
      order_history self' = before ++ mark_cancelled r :: after).
Proof.
  unfold record_order_cancelled; simpl.
  split; [reflexivity|].
  assert (Hnone : Forall (fun r => order_id r <> oid) (order_history self) ->
                  find_and_cancel oid [] (rev (order_history self))
                  = order_history self).
  { intros Hno. rewrite find_and_cancel_none by exact Hno. apply app_nil_r. }
  assert (Hsome : forall before r after,
            order_history self = before ++ r :: after ->
            order_id r = oid ->
            Forall (fun r' => order_id r' <> oid) after ->
            find_and_cancel oid [] (rev (order_history self))
            = before ++ mark_cancelled r :: after).
  { intros before r after -> Hr Hafter.
    rewrite find_and_cancel_some by assumption. rewrite app_nil_r. reflexivity. }
  split; [|split; assumption].
  destruct (newest_record oid (order_history self))
    as [Hno | (before & r & after & Hh & Hr & Hafter)].
  - rewrite Hnone by exact Hno. reflexivity.
  - rewrite (Hsome _ _ _ Hh Hr Hafter), Hh. rewrite !length_app. reflexivity.
Qed.

(** The fill loop on a history that holds no record of the order. *)
Lemma find_and_fill_none (self : OrderMonitor) (oid : string) (fill_price : pyfloat)
    (fill_time : Z) (later rev_rest : list OrderRecord) :
  Forall (fun r => order_id r <> oid) rev_rest ->
  find_and_fill self oid fill_price fill_time later rev_rest = Done self.
Proof.
  revert later. induction rev_rest as [|r older IH]; intros later Hno; [reflexivity|].
  apply Forall_cons in Hno as [Hr Hno]. simpl.
  destruct (String.eqb_spec (order_id r) oid) as [Heq|_]; [contradiction|].
  apply IH, Hno.
Qed.

(** With a counter other than zero the fill loop returns, and leaves the
    counters other than the average as they were. *)
Lemma find_and_fill_done (self : OrderMonitor) (oid : string) (fill_price : pyfloat)
    (fill_time : Z) (later rev_rest : list OrderRecord) :
  filled_orders (order_stats self) <> 0 ->
  exists self', find_and_fill self oid fill_price fill_time later rev_rest = Done self'
                /\ filled_orders (order_stats self') = filled_orders (order_stats self)
                /\ total_orders (order_stats self') = total_orders (order_stats self).
Proof.
  intros Hnz. revert later.
  induction rev_rest as [|r older IH]; intros later; simpl; [eauto|].
  destruct (String.eqb (order_id r) oid); [|apply IH].
  destruct (placed_time r) as [placed|]; [|eauto].
  unfold _update_avg_fill_time, fdiv_int; simpl.
  destruct (filled_orders (order_stats self) =? 0) eqn:E;
    [apply Z.eqb_eq in E; contradiction|].
  eauto.
Qed.

(** X5. On a history whose records carry their placement time,
    [record_order_filled] raises ZeroDivisionError exactly when the
    filled-orders counter is zero and the history holds a record of the
    order; otherwise it returns with the counter raised by one. *)
Theorem record_order_filled_raises_iff (self : OrderMonitor) (oid : string)
    (fill_price : pyfloat) (fill_time : Z) :
  Forall (fun r => placed_time r <> None) (order_history self) ->
  let raises := filled_orders (order_stats self) = 0
                /\ Exists (fun r => order_id r = oid) (order_history self) in
  (raises ->
   exists self', record_order_filled self oid fill_price fill_time
                 = ZeroDivisionError self'
                 /\ filled_orders (order_stats self') = 0) /\
  (~ raises ->
   exists self', record_order_filled self oid fill_price fill_time = Done self'
                 /\ filled_orders (order_stats self')
                    = filled_orders (order_stats self) + 1
                 /\ total_orders (order_stats self') = total_orders (order_stats self)).
Proof.
  intros Hplaced raises. unfold record_order_filled. split.
  - intros [Hzero Hex].
    destruct (find_and_fill_zero_divisor self oid fill_price fill_time []
                (rev (order_history self)) Hzero) as (self' & -> & Hz).
    + apply Forall_rev. exact Hplaced.
    + apply Exists_rev. exact Hex.
    + eauto.
  - intros Hno.
    destruct (Z.eq_dec (filled_orders (order_stats self)) 0) as [Hzero | Hnz].
    + rewrite find_and_fill_none; [simpl; eauto|].
      apply Forall_rev. apply Forall_forall. intros r Hin Hr.
      apply Hno. split; [exact Hzero|]. apply Exists_exists. eauto.
    + destruct (find_and_fill_done self oid fill_price fill_time []
                  (rev (order_history self)) Hnz) as (self' & -> & Hf & Ht).
      simpl. eexists. split; [reflexivity|]. simpl. rewrite Hf, Ht. auto.
Qed.

Lemma placed_since_nil (cutoff : Z) (l : list OrderRecord) :
  (forall r t, r ∈ l -> placed_time r = Some t -> t < cutoff) ->
  placed_since cutoff l = [].
Proof.
  induction l as [|r l IH]; intros H; [reflexivity|].
  unfold placed_since in *. simpl.
  destruct (placed_time r) as [t|] eqn:Et.
  - assert (t < cutoff) by (apply (H r t); [set_solver | exact Et]).
    replace (cutoff <=? t) with false by (symmetry; apply Z.leb_gt; lia).
    apply IH. intros r' t' Hin. apply H. set_solver.
  - apply IH. intros r' t' Hin. apply H. set_solver.
Qed.

(** The counting loop on a history read newest first, whose records grow
    older along the list. *)
Lemma count_from_newest_sorted (cutoff : Z) (count : nat) (l : list OrderRecord) :
  chronological (rev l) ->
  count_from_newest cutoff count l = Some (count + length (placed_since cutoff l))%nat.
Proof.
  revert count. induction l as [|r older IH]; intros count Hch; simpl.
  - f_equal. lia.
  - assert (Hsplit : chronological (rev older) /\
              exists t, placed_time r = Some t /\
                forall r' t', r' ∈ older -> placed_time r' = Some t' -> t' <= t).
    { clear IH. simpl in Hch. revert Hch.
      generalize (rev_involutive older). generalize (rev older) as h.
      intros h Hh. rewrite <- Hh. clear Hh older.
      induction h as [|x h IH]; simpl.
      - intros [(t & Ht & _) _]. split; [exact I|]. exists t. split; [exact Ht|].
        intros r' t' Hin. inversion Hin.
      - intros [(tx & Hx & Hle) Hrest].
        destruct (IH Hrest) as (Hch & t & Ht & Hold).
        split.
        + split; [|exact Hch]. exists tx. split; [exact Hx|].
          intros r' t' Hin. apply Hle. set_solver.
        + exists t. split; [exact Ht|]. intros r' t' Hin Hr'.
          apply elem_of_app in Hin as [Hin | Hin].
          * eapply Hold; eassumption.
          * apply list_elem_of_singleton in Hin as ->.
            assert (tx = t') as <- by congruence.
            apply (Hle r t); [set_solver | exact Ht]. }
    destruct Hsplit as (Hrest & t & Ht & Hold).
    unfold placed_since in *; simpl. rewrite Ht.
    destruct (cutoff <=? t) eqn:E.
    + rewrite IH by exact Hrest. simpl. f_equal. lia.
    + apply Z.leb_gt in E.
      change (List.filter _ older) with (placed_since cutoff older).
      rewrite placed_since_nil; [f_equal; simpl; lia|].
      intros r' t' Hin Hr'. specialize (Hold r' t' Hin Hr'). lia.
Qed.

(** X6. On a chronological history the early exit of
    [_count_orders_in_period] loses nothing: the count is the number of
    records placed since the cutoff. *)
Theorem count_orders_in_period_chronological (self : OrderMonitor) (now hours : Z) :
  chronological (order_history self) ->
  _count_orders_in_period self now hours
  = Some (length (placed_since (now - hours * 3600000000) (order_history self))).
Proof.
  intros Hch. unfold _count_orders_in_period.
  rewrite count_from_newest_sorted by (rewrite rev_involutive; exact Hch).
  simpl. f_equal. unfold placed_since.
  rewrite <- (rev_involutive (order_history self)) at 2.
  generalize (rev (order_history self)) as l. intros l.
  induction l as [|r l IH]; [reflexivity|].
  simpl. rewrite List.filter_app, length_app, <- IH. simpl.
  destruct (placed_time r) as [t|]; [destruct (_ <=? t)|]; simpl; lia.
Qed.

(** X7. [get_recent_orders] returns the newest [limit] records for a
    positive limit; a limit of zero returns the whole history, and a
    negative one drops the oldest records instead. *)
Theorem get_recent_orders_slice (self : OrderMonitor) (limit : Z) :
  let h := order_history self in
  get_recent_orders self limit
  = (if 0 <? limit then skipn (length h - Z.to_nat limit) h
     else skipn (Z.to_nat (- limit)) h) /\
  get_recent_orders self 0 = h /\
  (0 < limit -> length (get_recent_orders self limit)
                = Nat.min (Z.to_nat limit) (length h)) /\
  get_recent_orders self limit `suffix_of` h.
Proof.
  intros h. unfold get_recent_orders. fold h.
  assert (Hslice : slice_from (- limit) h
                   = if 0 <? limit then skipn (length h - Z.to_nat limit) h
                     else skipn (Z.to_nat (- limit)) h).
  { unfold slice_from. destruct (0 <? limit) eqn:E.
    - apply Z.ltb_lt in E.
      replace (- limit <? 0) with true by (symmetry; apply Z.ltb_lt; lia).
      f_equal. lia.
    - apply Z.ltb_ge in E.
      replace (- limit <? 0) with false by (symmetry; apply Z.ltb_ge; lia).
      destruct (Z.le_gt_cases (- limit) (Z.of_nat (length h))).
      + f_equal. lia.
      + rewrite !skipn_all2 by lia. reflexivity. }
  assert (Heq : match h with [] => [] | _ => slice_from (- limit) h end
                = slice_from (- limit) h).
  { destruct h; [|reflexivity]. unfold slice_from. rewrite skipn_nil. reflexivity. }
  assert (Hzero : match h with [] => [] | _ => slice_from (- 0) h end = h).
  { destruct h; reflexivity. }
  rewrite Heq, Hslice. repeat split.
  - exact Hzero.
  - intros Hpos. replace (0 <? limit) with true by (symmetry; apply Z.ltb_lt; lia).
    rewrite length_skipn. lia.
  - destruct (0 <? limit); eexists; symmetry; apply take_drop.
Qed.

End MonitorHistory.

(** The first placement on a fresh monitor leaves one record. *)
Lemma record_order_placed_bounded_history_witness :
  length (Monitor.order_history
            (Monitor.record_order_placed Monitor.new_monitor 0 "1" "AAPL" "BUY" 100
               "MKT" None)) = 1%nat.
Proof.
  refine (proj1 (record_order_placed_bounded_history Monitor.new_monitor 0 "1" "AAPL"
                   "BUY" 100 "MKT" None _)).
  simpl. lia.
Defined.

(** After two placements and no fill yet, the fill of order 2 divides by zero. *)
Lemma record_order_filled_raises_iff_witness :
  exists self',
    Monitor.record_order_filled two_placements "2" (Py.Fin 309) 15000000
    = Monitor.ZeroDivisionError self'
    /\ Monitor.filled_orders (Monitor.order_stats self') = 0.
Proof.
  refine (proj1 (record_order_filled_raises_iff two_placements "2" (Py.Fin 309)
                   15000000 _) _).
  - repeat constructor; discriminate.
  - split; [reflexivity|]. apply Exists_cons_tl, Exists_cons_hd. reflexivity.
Defined.

(** One hour back from 01:00:05, only the order placed at 00:00:10 counts. *)
Lemma count_orders_in_period_chronological_witness :
  MonitorQueries._count_orders_in_period two_placements 3605000000 1 = Some 1%nat.
Proof.
  refine (count_orders_in_period_chronological two_placements 3605000000 1 _).
  simpl. split; [|split; [|exact I]].
  - exists 0. split; [reflexivity|]. intros r' t' Hin.
    apply list_elem_of_singleton in Hin as ->. simpl. intros [= <-]. lia.
  - exists 10000000. split; [reflexivity|]. intros r' t' Hin. inversion Hin.
Defined.

(** ** The gateway client: what goes over the wire (src/ibkr_client.py) *)

Section ClientProtocol.
Import Py World.
Context {W : Type} (ib : Gateway W).

Lemma is_connected_run (e : Env W) :
  IBKR.is_connected ib e
  = (fst (isConnected ib (world e)),
     mk_env (snd (isConnected ib (world e))) (calls e ++ [IsConnected]) (logs e)).
Proof.
  unfold IBKR.is_connected, IBKR.bind, IBKR.call, IBKR.oracle; simpl.
  destruct (isConnected ib (world e)); reflexivity.
Qed.

Lemma get_market_price_calls (contract : Contract) (e : Env W) :
  calls (snd (IBKR.get_market_price ib contract e))
  = calls e ++ [ReqMktData contract; CancelMktData contract].
Proof.
  unfold IBKR.get_market_price, IBKR.bind, IBKR.call, IBKR.oracle, IBKR.log, IBKR.ret.
  simpl. destruct (reqMktData ib contract (world e)) as [[ticker|] w]; simpl.
  - destruct (IBKR.price_of_ticker ticker); simpl;
      destruct (cancelMktData ib contract w); simpl;
      rewrite <- app_assoc; reflexivity.
  - destruct (cancelMktData ib contract w); simpl. rewrite <- app_assoc. reflexivity.
Qed.

(** X8. Whatever the gateway answers, a price request subscribes to the
    contract once and cancels the subscription once, in that order, and
    makes no other call; a request that yields a price logs nothing. *)
Theorem get_market_price_releases_subscription (contract : Contract) (e : Env W) :
  let r := IBKR.get_market_price ib contract e in
  calls (snd r) = calls e ++ [ReqMktData contract; CancelMktData contract] /\
  (fst r <> None -> logs (snd r) = logs e) /\
  (fst r = None -> exists record, logs (snd r) = logs e ++ [record]).
Proof.
  split; [apply get_market_price_calls|].
  unfold IBKR.get_market_price, IBKR.bind, IBKR.call, IBKR.oracle, IBKR.log, IBKR.ret.
  simpl. destruct (reqMktData ib contract (world e)) as [[ticker|] w]; simpl.
  - destruct (IBKR.price_of_ticker ticker); simpl;
      destruct (cancelMktData ib contract w); simpl; split; try congruence; eauto.
  - destruct (cancelMktData ib contract w); simpl. split; [congruence | eauto].
Qed.

(** The order [place_order] builds. *)
Lemma place_order_run intent acct contract action quantity order_type limit_price
    (e : Env W) :
  let r := IBKR.place_order ib intent acct contract action quantity order_type
             limit_price e in
  let lmt := match order_type, limit_price with
             | Some t, Some p => if String.eqb t "LMT" && truthy p then Some p else None
             | _, _ => None
             end in
  let order := mk_order 0 (upper action) quantity order_type acct lmt in
  (fst (isConnected ib (world e)) = false /\
   fst r = None /\ calls (snd r) = calls e ++ [IsConnected])
  \/ (fst (isConnected ib (world e)) = true /\
      exists accepted,
        calls (snd r) = calls e ++ [IsConnected; PlaceOrder intent contract order accepted]
        /\ (accepted = true <-> fst r <> None)
        /\ (forall trade, fst r = Some trade ->
              fst (placeOrder ib contract order (snd (isConnected ib (world e))))
              = Ok trade)).
Proof.
  unfold IBKR.place_order, IBKR.bind. rewrite is_connected_run.
  destruct (isConnected ib (world e)) as [conn w]; simpl.
  destruct conn; simpl; [right | left; auto].
  split; [reflexivity|].
  unfold IBKR.oracle, IBKR.call, IBKR.log, IBKR.ret; simpl.
  destruct (placeOrder ib contract _ w) as [[trade|] w']; simpl.
  - exists true. rewrite <- app_assoc. repeat split; try congruence.
  - exists false. rewrite <- app_assoc. repeat split; congruence.
Qed.

(** X9. A client that finds itself disconnected asks the gateway nothing
    more: it places no order and reads no position and no open order, and
    answers as if there were none. *)
Theorem disconnected_client_stays_local (e : Env W) :
  fst (isConnected ib (world e)) = false ->
  (forall intent acct contract action quantity order_type limit_price,
      let r := IBKR.place_order ib intent acct contract action quantity order_type
                 limit_price e in
      fst r = None /\ calls (snd r) = calls e ++ [IsConnected]
      /\ logs (snd r) = logs e ++ [(ERROR, NotConnected)]) /\
  (let r := IBKR.get_positions ib e in
   fst r = [] /\ calls (snd r) = calls e ++ [IsConnected] /\ logs (snd r) = logs e) /\
  (forall symbol,
      let r := IBKR.get_position ib symbol e in
      fst r = None /\ calls (snd r) = calls e ++ [IsConnected]) /\
  (let r := IBKR.get_open_orders ib e in
   fst r = [] /\ calls (snd r) = calls e ++ [IsConnected] /\ logs (snd r) = logs e).
Proof.
  intros Hoff.
  unfold IBKR.place_order, IBKR.get_position, IBKR.get_positions, IBKR.get_open_orders,
    IBKR.bind.
  rewrite is_connected_run, Hoff. simpl. repeat split.
Qed.

(** X10. [get_position] only ever returns a position of the symbol asked
    for that is not flat. *)
Theorem get_position_is_open (symbol : string) (e : Env W) (p : Position) :
  fst (IBKR.get_position ib symbol e) = Some p ->
  con_symbol (pos_contract p) = symbol /\ position p <> 0.
Proof.
  unfold IBKR.get_position, IBKR.get_positions, IBKR.bind.
  rewrite is_connected_run.
  destruct (fst (isConnected ib (world e))); simpl; [|discriminate].
  unfold IBKR.oracle; simpl.
  destruct (positions ib _) as [[ps|] w]; simpl; [|discriminate].
  intros H. apply find_some in H as [Hin Hsym].
  apply filter_In in Hin as [_ Hnz].
  split; [apply String.eqb_eq, Hsym|].
  intros Hz. rewrite Hz in Hnz. discriminate.
Qed.

End ClientProtocol.

(** With the connection down, the positions are reported empty after the connectivity check alone. *)
Lemma disconnected_client_stays_local_witness :
  fst (IBKR.get_positions offline_gateway fresh_env) = []
  /\ World.calls (snd (IBKR.get_positions offline_gateway fresh_env))
     = [World.IsConnected].
Proof.
  destruct (disconnected_client_stays_local offline_gateway fresh_env eq_refl)
    as (_ & (H1 & H2 & _) & _).
  split; [exact H1 | exact H2].
Defined.

(** The account's AAPL position is returned; the closed MSFT one never is. *)
Lemma get_position_is_open_witness :
  World.con_symbol (World.pos_contract held_position) = "AAPL"
  /\ World.position held_position <> 0.
Proof.
  exact (get_position_is_open holding_gateway "AAPL" fresh_env held_position eq_refl).
Defined.

(** ** The side and the price of an order (src/trading_engine.py) *)

Section Sides.
Import Py Engine.
Local Open Scope Q_scope.

Lemma upper_name_cases (text : string) (a : Signal.Action) :
  upper text = Signal.name a ->
  _convert_action_to_ibkr text
  = match a with
    | Signal.BUY | Signal.COVER => "BUY"
    | Signal.SELL | Signal.SHORT => "SELL"
    end%string.
Proof.
  intros H. unfold _convert_action_to_ibkr. rewrite H. destruct a; reflexivity.
Qed.

End Sides.

Section Subcent.
Import Py World Engine.
Context {W : Type} (ib : Gateway W).

(** X12. A quote so small that the buffered price rounds to 0.00 yields a
    limit price that Python takes for "no price": the LMT order then goes
    to the gateway without a limit price. *)
Theorem subcent_quote_goes_out_unpriced (q : Q) intent acct contract quantity
    (e : Env W) :
  (0 < q)%Q -> (q * (1 + (1 # 1000)) * 100 < 1 # 2)%Q ->
  fst (isConnected ib (world e)) = true ->
  let limit := execute_limit_price "BUY" (Fin q) in
  let r := IBKR.place_order ib intent acct contract "BUY" quantity (Some "LMT")
             (Some limit) e in
  truthy limit = false /\
  exists accepted,
    calls (snd r)
    = calls e ++ [IsConnected;
                  PlaceOrder intent contract
                    (mk_order 0 "BUY" quantity (Some "LMT") acct None) accepted].
Proof.
  intros Hq Hsmall Hon limit r.
  assert (Hlimit : truthy limit = false).
  { unfold limit.
    rewrite execute_limit_price_cents, (limit_cents_subcent q Hq Hsmall).
    reflexivity. }
  split; [exact Hlimit|].
  destruct (place_order_run ib intent acct contract "BUY" quantity (Some "LMT")
              (Some limit) e) as [(Hoff & _) | (_ & accepted & Hcalls & _)];
    [congruence|].
  exists accepted. rewrite Hlimit in Hcalls. exact Hcalls.
Qed.

End Subcent.

(** A quote of 0.001 gives the limit price 0.00. *)
Lemma subcent_quote_goes_out_unpriced_witness :
  Py.truthy (Engine.execute_limit_price "BUY" (Py.Fin (1 # 1000))) = false.
Proof.
  refine (proj1 (subcent_quote_goes_out_unpriced
                   (steady_gateway quiet_ticker 7 0 tuesday_5am) (1 # 1000) None "DU1"
                   (World.mk_contract "PENNY" 3) 100 fresh_env _ _ _));
    reflexivity.
Defined.

(** ** The webhook: signatures, gatekeeping and parsing (src/webhook.py) *)

Section WebhookGate.
Import Py Webhook.
Context (int_of_str : string -> option Z)
        (float_of_str : string -> option xfloat)
        (py_str : json -> string)
        (fromisoformat_ok : string -> bool)
        (utcnow_iso : string)
        (json_dumps : json -> string)
        (hmac_sha256_hex : string -> string -> string).

Lemma substring_all (s : string) : String.substring 0 (String.length s) s = s.
Proof. induction s as [|c s IH]; simpl; [reflexivity | rewrite IH; reflexivity]. Qed.

(** A string starts with "sha256=" exactly when it is that prefix followed
    by the seven-character-shorter rest the code cuts out. *)
Lemma sha256_prefix (s : string) :
  startswith "sha256=" s = true ->
  s = ("sha256=" ++ String.substring 7 (String.length s - 7) s)%string.
Proof.
  unfold startswith.
  do 7 (destruct s as [|? s]; [discriminate|]; simpl;
        match goal with
        | |- (if ?d then _ else _) = true -> _ =>
            destruct d as [<-|]; [|discriminate]
        end).
  intros _. rewrite Nat.sub_0_r, substring_all. reflexivity.
Qed.

(** X13. A signature header is accepted exactly when it reads "sha256="
    followed by the HMAC of the payload under the server's secret. *)
Theorem verify_signature_exact (self : WebhookServer) (payload : string)
    (signature : option string) :
  _verify_signature hmac_sha256_hex self payload signature = true
  <-> signature = Some ("sha256=" ++ hmac_sha256_hex (secret self) payload)%string.
Proof.
  unfold _verify_signature. split.
  - destruct signature as [s|]; [|discriminate].
    destruct (String.eqb s ""); [discriminate|].
    destruct (startswith "sha256=" s) eqn:Epre; simpl; [|discriminate].
    intros H. apply String.eqb_eq in H.
    rewrite (sha256_prefix s Epre), H. reflexivity.
  - intros ->. unfold startswith, String.append. simpl.
    rewrite Nat.sub_0_r, substring_all.
    destruct (hmac_sha256_hex (secret self) payload); simpl;
      rewrite ?Ascii.eqb_refl, ?String.eqb_refl; reflexivity.
Qed.

(** X14. The handler answers 200 only to a request that passed the IP
    filter, carried non-empty JSON and a valid signature where a secret is
    set, and whose callback returned. *)
Theorem webhook_success_needs_authentication (self : WebhookServer)
    (request : Request) :
  snd (webhook json_dumps hmac_sha256_hex self request) = 200 ->
  exists data callback,
    authenticated json_dumps hmac_sha256_hex self request data
    /\ alert_callback self = Some callback
    /\ callback data = Returned
    /\ webhook json_dumps hmac_sha256_hex self request
       = (StatusBody "success" "Alert processed", 200).
Proof.
  unfold webhook, authenticated.
  destruct (allowed_ips self) as [|ip ips] eqn:Eips;
    [|destruct (str_in (remote_addr request) (ip :: ips)) eqn:Eip]; simpl;
    [| |discriminate].
  - destruct (is_json request); simpl; [|discriminate].
    destruct (get_json request) as [data|]; simpl; [|discriminate].
    destruct (json_truthy data) eqn:Et; simpl; [|discriminate].
    destruct (String.eqb_spec (secret self) ""); simpl.
    + destruct (alert_callback self) as [callback|]; [|discriminate].
      destruct (callback data) eqn:Ecb; [|discriminate].
      intros _. exists data, callback. rewrite Ecb. repeat split; auto.
    + destruct (_verify_signature _ _ _ _) eqn:Esig; simpl; [|discriminate].
      destruct (alert_callback self) as [callback|]; [|discriminate].
      destruct (callback data) eqn:Ecb; [|discriminate].
      intros _. exists data, callback. rewrite Ecb. repeat split; auto.
  - destruct (is_json request); simpl; [|discriminate].
    destruct (get_json request) as [data|]; simpl; [|discriminate].
    destruct (json_truthy data) eqn:Et; simpl; [|discriminate].
    destruct (String.eqb_spec (secret self) ""); simpl.
    + destruct (alert_callback self) as [callback|]; [|discriminate].
      destruct (callback data) eqn:Ecb; [|discriminate].
      intros _. exists data, callback. rewrite Ecb. repeat split; auto.
    + destruct (_verify_signature _ _ _ _) eqn:Esig; simpl; [|discriminate].
      destruct (alert_callback self) as [callback|]; [|discriminate].
      destruct (callback data) eqn:Ecb; [|discriminate].
      intros _. exists data, callback. rewrite Ecb. repeat split; auto.
Qed.

(** X15. An alert the parser returns is well formed: its action is one of
    the four, in lower case and stripped; its symbol is the upper-cased,
    stripped text and is not empty; its quantity is positive; and it keeps
    the raw data. *)
Theorem parse_alert_returns_well_formed (data : json) (parsed : ParsedAlert) :
  parse_alert int_of_str float_of_str py_str fromisoformat_ok utcnow_iso data
  = Return parsed ->
  exists d a sy qj,
    data = JObj d
    /\ dict_get d "action" = Some (JStr a)
    /\ dict_get d "symbol" = Some (JStr sy)
    /\ dict_get d "quantity" = Some qj
    /\ action parsed = strip (lower a)
    /\ str_in (action parsed) ["buy"; "sell"; "short"; "cover"] = true
    /\ symbol parsed = strip (upper sy)
    /\ symbol parsed <> ""
    /\ py_int int_of_str qj = Return (quantity parsed)
    /\ 0 < quantity parsed
    /\ raw_data parsed = data.
Proof.
  unfold parse_alert, py_get.
  destruct data as [| | | | | |d]; try discriminate.
  destruct (dict_get d "action") as [[| | | |a| |]|] eqn:Ea; try discriminate.
  cbv beta iota zeta.
  destruct (str_in (strip (lower a)) _) eqn:Ein; [|discriminate].
  destruct (dict_get d "symbol") as [[| | | |sy| |]|] eqn:Es; try discriminate.
  destruct (String.eqb_spec (strip (upper sy)) "") as [|Hsy]; [discriminate|].
  destruct (dict_get d "quantity") as [qj|] eqn:Eq; [|discriminate].
  destruct qj; try discriminate; cbv beta iota zeta;
    (match goal with
     | |- context [py_int int_of_str ?j] =>
         destruct (py_int int_of_str j) as [q|ex] eqn:Eint;
           [|destruct ex; discriminate]
     end);
    (destruct (q <=? 0) eqn:Epos; [discriminate|]); apply Z.leb_gt in Epos;
    (match goal with
     | |- match ?p with Return _ => _ | Raise _ => _ end = _ -> _ =>
         destruct p as [price|]; [|discriminate]
     end);
    (match goal with
     | |- (if json_truthy ?ts then _ else _) = _ -> _ =>
         destruct (json_truthy ts); [destruct ts; try discriminate|]
     end);
    intros [= <-]; eexists d, a, sy, _; simpl; repeat split; eauto.
Qed.

(** What [int] and [float] raise, and when they overflow. *)
Lemma py_int_raises (j : json) (ex : exn) :
  py_int int_of_str j = Raise ex ->
  (exists msg, ex = ValueError msg) \/ ex = TypeError
  \/ (ex = OverflowError /\ exists negative, j = JFloat (Inf negative)).
Proof.
  destruct j as [| | |[[|q]|negative]|s| |]; simpl; try discriminate;
    try (intros [= <-]; eauto).
  - destruct (int_of_str s); [discriminate | intros [= <-]; eauto].
Qed.

Lemma py_float_raises (j : json) (ex : exn) :
  py_float float_of_str j = Raise ex ->
  (exists msg, ex = ValueError msg) \/ ex = TypeError
  \/ (ex = OverflowError
      /\ exists n, j = JInt n /\ 2 ^ 1024 - 2 ^ 970 <= Z.abs n).
Proof.
  destruct j as [| |n| |s| |]; simpl; try discriminate; try (intros [= <-]; eauto).
  - unfold Float64.float_of_int.
    destruct (Z.leb_spec (2 ^ 1024 - 2 ^ 970) (Z.abs n)); [|discriminate].
    intros [= <-]. right. right. eauto.
  - destruct (float_of_str s); [discriminate | intros [= <-]; eauto].
Qed.

(** X16. The parser fails in seven ways only: AttributeError for data
    that is not an object or a text field that is not a string;
    OverflowError, which the parser does not catch, exactly for a quantity
    that is an infinite float or a price that is an int too large for a
    float; and a ValueError with one of five messages.  Every other
    quantity problem, a non-positive quantity included, is reported as
    "Invalid quantity: ..."; the text "Quantity must be positive" never
    leaves the parser, and neither does a TypeError. *)
Theorem parse_alert_errors (data : json) (e : exn) :
  parse_alert int_of_str float_of_str py_str fromisoformat_ok utcnow_iso data
  = Raise e ->
  (e = AttributeError
   \/ e = OverflowError
   \/ (exists a, e = ValueError ("Invalid or missing action: " ++ a))
   \/ e = ValueError "Missing symbol"
   \/ e = ValueError "Missing quantity"
   \/ (exists qj, e = ValueError ("Invalid quantity: " ++ py_str qj))
   \/ (exists pj, e = ValueError ("Invalid price: " ++ py_str pj)))%string
  /\ e <> ValueError "Quantity must be positive"
  /\ e <> TypeError
  /\ (e = OverflowError ->
      exists d, data = JObj d
        /\ ((exists negative, dict_get d "quantity" = Some (JFloat (Inf negative)))
            \/ (exists n, dict_get d "price" = Some (JInt n)
                          /\ 2 ^ 1024 - 2 ^ 970 <= Z.abs n))).
Proof.
  intros H.
  assert (Hcases :
    (e = AttributeError
     \/ e = OverflowError
     \/ (exists a, e = ValueError ("Invalid or missing action: " ++ a))
     \/ e = ValueError "Missing symbol"
     \/ e = ValueError "Missing quantity"
     \/ (exists qj, e = ValueError ("Invalid quantity: " ++ py_str qj))
     \/ (exists pj, e = ValueError ("Invalid price: " ++ py_str pj)))%string
    /\ (e = OverflowError ->
        exists d, data = JObj d
          /\ ((exists negative, dict_get d "quantity" = Some (JFloat (Inf negative)))
              \/ (exists n, dict_get d "price" = Some (JInt n)
                            /\ 2 ^ 1024 - 2 ^ 970 <= Z.abs n)))).
  { revert H. unfold parse_alert, py_get.
    destruct data as [| | | | | |d];
      try (intros [= <-]; split; [eauto 10 | discriminate]).
    destruct (dict_get d "action") as [[| | | |a| |]|]; cbv beta iota zeta;
      try (intros [= <-]; split; [eauto 10 | discriminate]);
      (match goal with
       | |- (if ?c then _ else _) = _ -> _ =>
           destruct c; [|intros [= <-]; split; [eauto 10 | discriminate]]
       end).
    destruct (dict_get d "symbol") as [[| | | |sy| |]|]; cbv beta iota zeta;
      try (intros [= <-]; split; [eauto 10 | discriminate]);
      (match goal with
       | |- (if ?c then _ else _) = _ -> _ =>
           destruct c; [intros [= <-]; split; [eauto 10 | discriminate]|]
       end).
    destruct (dict_get d "quantity") as [qj|] eqn:Eq;
      [|intros [= <-]; split; [eauto 10 | discriminate]].
    destruct qj; try (intros [= <-]; split; [eauto 10 | discriminate]);
      cbv beta iota zeta.
    all: (match goal with
       | |- context [py_int int_of_str ?j] =>
           destruct (py_int int_of_str j) as [q|ex] eqn:Eint end).
    all: try (destruct (py_int_raises _ _ Eint)
                 as [[msg ->] | [-> | [-> [negative Hj]]]];
               intros [= <-];
               [split; [do 5 right; left; eexists; reflexivity | discriminate]
               |split; [do 5 right; left; eexists; reflexivity | discriminate]
               |split; [right; left; reflexivity|];
                intros _; exists d; split; [reflexivity|];
                left; exists negative; rewrite Eq, Hj; reflexivity]).
    all: (destruct (q <=? 0);
         [intros [= <-]; split; [do 5 right; left; eexists; reflexivity | discriminate]|]).
    all: (match goal with
       | |- match ?p with Return _ => _ | Raise _ => _ end = _ -> _ =>
           assert (Hp : forall e', p = Raise e' ->
                     (exists pj, e' = ValueError ("Invalid price: " ++ py_str pj)%string)
                     \/ (e' = OverflowError
                         /\ exists n, dict_get d "price" = Some (JInt n)
                                      /\ 2 ^ 1024 - 2 ^ 970 <= Z.abs n))
             by (destruct (dict_get d "price") as [pj|]; [|discriminate];
                 destruct pj; try discriminate;
                 (destruct (py_float float_of_str _) as [x0|ex] eqn:Ef;
                    [discriminate|]);
                 (destruct (py_float_raises _ _ Ef)
                    as [[msg ->] | [-> | [-> (big & Hj & Hbig)]]]);
                 intros e' [= <-]; eauto;
                 right; (split; [reflexivity|]); exists big; rewrite <- Hj; auto)
       end).
    all: (match goal with
       | |- match ?p with Return _ => _ | Raise _ => _ end = _ -> _ =>
           destruct p as [price|]
       end).
    all: try (intros [= <-];
              destruct (Hp _ eq_refl) as [[pj ->] | [-> Hover]];
              [split; [eauto 10 | discriminate]
              |split; [eauto 10 | intros _; exists d; eauto]]).
    all: (match goal with
          | |- (if json_truthy ?ts then _ else _) = _ -> _ =>
              destruct (json_truthy ts); [destruct ts|]
          end);
      first [discriminate | intros [= <-]; split; [eauto 10 | discriminate]]. }
  destruct Hcases as [Hcases Hover].
  split; [exact Hcases|]. split; [|split; [|exact Hover]].
  - unfold String.append in Hcases.
    destruct Hcases as [-> | [-> | [[a ->] | [-> | [-> | [[qj ->] | [pj ->]]]]]]];
      discriminate.
  - unfold String.append in Hcases.
    destruct Hcases as [-> | [-> | [[a ->] | [-> | [-> | [[qj ->] | [pj ->]]]]]]];
      discriminate.
Qed.

End WebhookGate.

(** The open server answers 200 to the hold request, which is authenticated. *)
Lemma webhook_success_needs_authentication_witness :
  exists data callback,
    authenticated (fun _ => "") (fun _ _ => "") open_server hold_request data
    /\ Webhook.alert_callback open_server = Some callback
    /\ callback data = Webhook.Returned
    /\ Webhook.webhook (fun _ => "") (fun _ _ => "") open_server hold_request
       = (Webhook.StatusBody "success" "Alert processed", 200).
Proof.
  exact (webhook_success_needs_authentication (fun _ => "") (fun _ _ => "")
           open_server hold_request eq_refl).
Defined.

(** The alert with action " Buy" and symbol "aapl " parses to buy AAPL 100. *)
Lemma parse_alert_returns_well_formed_witness :
  Webhook.parse_alert (fun _ => None) (fun _ => None) (fun _ => "") (fun _ => false) ""
    buy_alert
  = Webhook.Return (Webhook.mk_parsed "buy" "AAPL" 100 None "" "" buy_alert)
  /\ exists d a sy qj,
       buy_alert = Webhook.JObj d
       /\ Py.dict_get d "action" = Some (Webhook.JStr a)
       /\ Py.dict_get d "symbol" = Some (Webhook.JStr sy)
       /\ Py.dict_get d "quantity" = Some qj
       /\ "buy" = Py.strip (Py.lower a)
       /\ Py.str_in "buy" ["buy"; "sell"; "short"; "cover"] = true
       /\ "AAPL" = Py.strip (Py.upper sy)
       /\ "AAPL" <> ""
       /\ Webhook.py_int (fun _ => None) qj = Webhook.Return 100
       /\ 0 < 100
       /\ buy_alert = buy_alert.
Proof.
  split; [reflexivity|].
  exact (parse_alert_returns_well_formed (fun _ => None) (fun _ => None) (fun _ => "")
           (fun _ => false) "" buy_alert
           (Webhook.mk_parsed "buy" "AAPL" 100 None "" "" buy_alert) eq_refl).
Defined.

(** A quantity of 1e999 reaches the parser as an infinite float and leaves
    it as an OverflowError. *)
Lemma parse_alert_errors_witness :
  Webhook.parse_alert (fun _ => None) (fun _ => None) (fun _ => "") (fun _ => false) ""
    overflow_alert
  = Webhook.Raise Webhook.OverflowError
  /\ exists d,
       overflow_alert = Webhook.JObj d
       /\ ((exists negative,
              Py.dict_get d "quantity" = Some (Webhook.JFloat (Webhook.Inf negative)))
           \/ (exists n, Py.dict_get d "price" = Some (Webhook.JInt n)
                         /\ 2 ^ 1024 - 2 ^ 970 <= Z.abs n)).
Proof.
  split; [reflexivity|].
  exact (proj2 (proj2 (proj2
           (parse_alert_errors (fun _ => None) (fun _ => None) (fun _ => "")
              (fun _ => false) "" overflow_alert Webhook.OverflowError eq_refl)))
           eq_refl).
Defined.

(** ** The executor and the alert pipeline (src/trading_engine.py) *)

Section Pipeline.
Import Py World Engine.
Context {W : Type} (ib : Gateway W) (cfg : Config)
        (tsm : MarketHours.TradingSessionManager).
Implicit Types s : Sys W.

Lemma same_books_refl s : same_books s s.
Proof. split; reflexivity. Qed.

Lemma same_books_trans s1 s2 s3 :
  same_books s1 s2 -> same_books s2 s3 -> same_books s1 s3.
Proof. intros [] []. split; congruence. Qed.

(** Engine code that leaves the books alone and makes the gateway calls
    [f x], where [x] is its result. *)
Definition moves {A} (m : @E W A) (f : A -> list IBCall) : Prop :=
  forall s, same_books s (snd (m s)) /\ added_calls s (snd (m s)) (f (fst (m s))).

Lemma post_moves {A} (m : @E W A) (f : A -> list IBCall) s
    (Q : A -> Sys W -> Prop) :
  moves m f ->
  (forall x s', same_books s s' -> added_calls s s' (f x) -> Q x s') ->
  post m s Q.
Proof. intros Hm HQ. destruct (Hm s). apply HQ; assumption. Qed.

Lemma moves_lift {A} (m : @IBKR.M W A) (f : A -> list IBCall) :
  (forall e, calls (snd (m e)) = calls e ++ f (fst (m e))) -> moves (lift m) f.
Proof.
  intros Hm s. unfold lift. specialize (Hm (env s)).
  destruct (m (env s)) as [x e]. simpl in *. split; [split; reflexivity | exact Hm].
Qed.

Lemma moves_log l msg : moves (@log W l msg) (fun _ => []).
Proof. apply moves_lift. intros e. simpl. rewrite app_nil_r. reflexivity. Qed.

Lemma moves_clock {A} (f : W -> A * W) : moves (clock f) (fun _ => []).
Proof.
  apply moves_lift. intros e. unfold IBKR.oracle. destruct (f (world e)). simpl.
  rewrite app_nil_r. reflexivity.
Qed.

Lemma moves_get_contract symbol :
  moves (lift (IBKR.get_contract ib symbol)) (fun _ => [QualifyContracts symbol]).
Proof. apply moves_lift. intros e. apply get_contract_calls. Qed.

Lemma moves_get_market_price contract :
  moves (lift (IBKR.get_market_price ib contract))
    (fun _ => [ReqMktData contract; CancelMktData contract]).
Proof. apply moves_lift. intros e. apply get_market_price_calls. Qed.

Lemma added_calls_nil s s' s'' added :
  added_calls s s' added -> added_calls s' s'' [] -> added_calls s s'' added.
Proof. unfold added_calls. intros H1 H2. rewrite H2, app_nil_r. exact H1. Qed.

Lemma added_calls_app s s' s'' added added' :
  added_calls s s' added -> added_calls s' s'' added' ->
  added_calls s s'' (added ++ added').
Proof. unfold added_calls. intros H1 H2. rewrite H2, H1, app_assoc. reflexivity. Qed.

Lemma added_calls_refl s : added_calls s s [].
Proof. unfold added_calls. rewrite app_nil_r. reflexivity. Qed.

(** [place_order] as the engine sees it. *)
Lemma post_place_order_run intent acct contract action quantity order_type limit_price
    s (Q : option Trade -> Sys W -> Prop) :
  (forall s', same_books s s' -> added_calls s s' [IsConnected] -> Q None s') ->
  (forall s' o accepted r,
      same_books s s' ->
      added_calls s s' [IsConnected; PlaceOrder intent contract o accepted] ->
      World.action o = upper action -> totalQuantity o = quantity ->
      orderType o = order_type -> account o = acct ->
      lmtPrice o = match order_type, limit_price with
                   | Some t, Some p =>
                       if String.eqb t "LMT" && truthy p then Some p else None
                   | _, _ => None
                   end ->
      (accepted = true <-> r <> None) ->
      Q r s') ->
  post (lift (IBKR.place_order ib intent acct contract action quantity order_type
                limit_price)) s Q.
Proof.
  intros Hoff Hon. unfold post, lift.
  pose proof (place_order_run ib intent acct contract action quantity order_type
                limit_price (env s)) as H.
  destruct (IBKR.place_order ib intent acct contract action quantity order_type
              limit_price (env s)) as [r e]. simpl in *.
  destruct H as [(_ & -> & Hc) | (_ & accepted & Hc & Hacc & Hgw)].
  - apply Hoff; [split; reflexivity | exact Hc].
  - eapply Hon; try exact Hc; try exact Hacc; try reflexivity. split; reflexivity.
Qed.

(** Registering the PendingOrder object of a fresh limit order. *)
Lemma post_track trade symbol action quantity limit_price s
    (Q : unit -> Sys W -> Prop) :
  (forall s' now,
      positions s' = positions s -> tasks s' = tasks s ->
      objects s' = objects s ++ [mk_pending (str_of_int (orderId (tr_order trade)))
                                   symbol action quantity limit_price now 0 None] ->
      pending_orders s'
      = dict_set (pending_orders s) (str_of_int (orderId (tr_order trade)))
          (length (objects s)) ->
      added_calls s s' [] ->
      Q tt s') ->
  post (_track_pending_order ib trade symbol action quantity limit_price) s Q.
Proof.
  intros HQ. unfold _track_pending_order.
  apply post_bind, (post_moves _ _ _ _ (moves_clock _)). intros now s1 [] Hc1.
  apply post_bind, post_get. apply post_bind.
  unfold post at 1. simpl.
  apply post_bind. unfold post at 1. simpl.
  apply (post_moves _ _ _ _ (moves_log _ _)). intros [] s2 [] Hc2. simpl in *.
  apply (HQ s2 now); try congruence.
  eapply added_calls_nil; [exact Hc1|]. exact Hc2.
Qed.

Lemma execute_trade_run symbol action quantity trading_decision s :
  let r := _execute_trade ib cfg symbol action quantity trading_decision s in
  exists added,
    added_calls s (snd r) added
    /\ execution cfg symbol action quantity
         (MarketHours.recommended_order_type trading_decision) s (snd r) (fst r) added.
Proof.
  change (post (_execute_trade ib cfg symbol action quantity trading_decision) s
            (fun x s' => exists added,
               added_calls s s' added
               /\ execution cfg symbol action quantity
                    (MarketHours.recommended_order_type trading_decision)
                    s s' x added)).
  unfold _execute_trade.
  set (order_type := MarketHours.recommended_order_type trading_decision).
  apply post_bind, (post_moves _ _ _ _ (moves_get_contract symbol)).
  intros contract s1 B1 C1.
  destruct contract as [contract|].
  2:{ apply post_bind, (post_moves _ _ _ _ (moves_log _ _)). intros _ s2 B2 C2.
      apply post_ret. exists [QualifyContracts symbol].
      split; [eapply added_calls_nil; eassumption|].
      apply exec_rejected. eauto using same_books_trans. }
  destruct (max_position_size cfg <? quantity).
  { apply post_bind, (post_moves _ _ _ _ (moves_log _ _)). intros _ s2 B2 C2.
    apply post_ret. exists [QualifyContracts symbol].
    split; [eapply added_calls_nil; eassumption|].
    apply exec_rejected. eauto using same_books_trans. }
  apply post_bind.
  destruct (is_limit order_type) eqn:Elimit.
  - (* LMT *)
    apply post_bind, (post_moves _ _ _ _ (moves_get_market_price contract)).
    intros market_price s2 B2 C2.
    assert (B02 : same_books s s2) by eauto using same_books_trans.
    assert (C02 : added_calls s s2 (approach symbol true contract))
      by (apply (added_calls_app _ _ _ _ _ C1 C2)).
    destruct market_price as [market_price|].
    2:{ apply post_bind, (post_moves _ _ _ _ (moves_log _ _)). intros _ s3 B3 C3.
        apply post_ret, post_ret. exists (approach symbol true contract).
        split; [eapply added_calls_nil; eassumption|].
        apply exec_unpriced; [exact Elimit | eauto using same_books_trans]. }
    apply post_ret. apply post_bind, post_get.
    apply post_bind, post_place_order_run.
    + intros s3 B3 C3. apply post_ret. eexists. split.
      * eapply added_calls_app; eassumption.
      * replace true with (is_limit order_type) at 1 by exact Elimit.
        apply exec_offline. eauto using same_books_trans.
    + intros s3 o accepted r B3 C3 Hact Hqty Htype Hacct Hlmt Hacc.
      assert (Hsent : order_sent cfg action quantity order_type o)
        by (repeat split; assumption).
      assert (Hobj : objects s2 = objects s) by (apply (books_objects _ _ B02)).
      destruct r as [trade|].
      * assert (accepted = true) as -> by (apply Hacc; discriminate).
        apply post_bind, post_track. intros s4 now Hp4 Ht4 Ho4 Hd4 C4.
        apply post_ret. eexists. split.
        -- eapply added_calls_nil; [|exact C4].
           eapply added_calls_app; eassumption.
        -- rewrite Hobj.
           eapply exec_limit with
             (po := mk_pending (str_of_int (orderId (tr_order trade))) symbol action
                      quantity
                      (Some (execute_limit_price (_convert_action_to_ibkr action)
                               market_price)) now 0 None).
           ++ exact Elimit.
           ++ exact Hsent.
           ++ repeat split. eexists. reflexivity.
           ++ rewrite Hp4, (books_positions _ _ B3). apply (books_positions _ _ B02).
           ++ rewrite Ht4, (books_tasks _ _ B3). apply (books_tasks _ _ B02).
           ++ rewrite Ho4, (books_objects _ _ B3), Hobj. reflexivity.
           ++ rewrite Hd4, (books_objects _ _ B3), (books_pending _ _ B3), Hobj,
                (books_pending _ _ B02). reflexivity.
      * assert (accepted = false) as ->.
        { destruct accepted; [|reflexivity]. destruct Hacc as [Hacc _].
          exfalso. apply Hacc; reflexivity. }
        apply post_ret. eexists. split.
        -- eapply added_calls_app; eassumption.
        -- rewrite Hobj.
           pose proof (exec_refused cfg symbol action quantity order_type s s3
                         contract o) as H.
           rewrite Elimit in H.
           apply H; [eauto using same_books_trans | exact Hsent | discriminate].
  - (* MKT *)
    apply post_ret. apply post_bind, post_get.
    apply post_bind, post_place_order_run.
    + intros s3 B3 C3. apply post_ret. eexists. split.
      * eapply added_calls_app; eassumption.
      * pose proof (exec_offline cfg symbol action quantity order_type s s3 contract)
          as H.
        rewrite Elimit in H. apply H. eauto using same_books_trans.
    + intros s3 o accepted r B3 C3 Hact Hqty Htype Hacct Hlmt Hacc.
      assert (Hsent : order_sent cfg action quantity order_type o)
        by (repeat split; assumption).
      destruct r as [trade|].
      * assert (accepted = true) as -> by (apply Hacc; discriminate).
        apply post_bind, post_ret, post_ret. eexists. split.
        -- eapply added_calls_app; eassumption.
        -- apply exec_market; [exact Elimit | eauto using same_books_trans
                               | exact Hsent |].
           rewrite Hlmt. destruct order_type; reflexivity.
      * assert (accepted = false) as ->.
        { destruct accepted; [|reflexivity]. destruct Hacc as [Hacc _].
          exfalso. apply Hacc; reflexivity. }
        apply post_ret. eexists. split.
        -- eapply added_calls_app; eassumption.
        -- pose proof (exec_refused cfg symbol action quantity order_type s s3
                         contract o) as H.
           rewrite Elimit in H.
           apply H; [eauto using same_books_trans | exact Hsent |].
           intros _. rewrite Hlmt. destruct order_type; reflexivity.
Qed.

Lemma post_intro {A} (m : @E W A) s (Q : A -> Sys W -> Prop) :
  (forall x s', m s = (x, s') -> Q x s') -> post m s Q.
Proof. intros H. unfold post. apply H. destruct (m s); reflexivity. Qed.

Lemma moves_ret {A} (x : A) : moves (@ret W A x) (fun _ => []).
Proof. intros s. split; [apply same_books_refl | apply added_calls_refl]. Qed.

Lemma moves_bind_silent {A B} (m : @E W A) (k : A -> @E W B) :
  moves m (fun _ => []) -> (forall x, moves (k x) (fun _ => [])) ->
  moves (bind m k) (fun _ => []).
Proof.
  intros Hm Hk s. unfold bind. destruct (Hm s) as [B1 C1].
  destruct (m s) as [x s1]. destruct (Hk x s1) as [B2 C2]. simpl in *.
  split; [eauto using same_books_trans | eauto using added_calls_nil].
Qed.

Lemma moves_get_trading_decision_now :
  moves (get_trading_decision_now ib tsm) (fun _ => []).
Proof.
  unfold get_trading_decision_now.
  apply moves_bind_silent; [apply moves_clock | intros dt_info].
  apply moves_bind_silent; [apply moves_clock | intros dt_can].
  apply moves_bind_silent; [|intros order_type; apply moves_ret].
  destruct (MarketHours.can_trade_now _ _ _); [|apply moves_ret].
  apply moves_bind_silent; [apply moves_clock | intros dt_type; apply moves_ret].
Qed.

(** A tradable decision recommends MKT or LMT. *)
Lemma get_trading_decision_now_type s :
  let d := fst (get_trading_decision_now ib tsm s) in
  MarketHours.can_trade d = true ->
  MarketHours.recommended_order_type d = Some "MKT"
  \/ MarketHours.recommended_order_type d = Some "LMT".
Proof.
  unfold get_trading_decision_now, bind, clock, lift, IBKR.oracle, ret. simpl.
  destruct (now_eastern ib (world (env s))) as [dt_info w1]. simpl.
  destruct (now_eastern ib w1) as [dt_can w2]. simpl.
  destruct (MarketHours.can_trade_now id tsm dt_can); simpl; [|discriminate].
  destruct (now_eastern ib w2) as [dt_type w3]. simpl. intros _.
  unfold MarketHours.get_order_type.
  destruct (MarketHours.get_current_session _ _ _); auto.
Qed.

Lemma moves_validate position action :
  moves (@_validate_sequential_action W position action) (fun _ => []).
Proof.
  unfold _validate_sequential_action.
  destruct (negb _); [|apply moves_ret].
  apply moves_bind_silent; [apply moves_log | intros _; apply moves_ret].
Qed.

Lemma validate_result position action s :
  fst (_validate_sequential_action position action s)
  = str_in (upper action) (valid_transitions (state position)).
Proof.
  unfold _validate_sequential_action.
  destruct (str_in (upper action) (valid_transitions (state position))); reflexivity.
Qed.

Lemma get_position_run symbol (e : Env W) :
  let r := IBKR.get_position ib symbol e in
  (fst (isConnected ib (world e)) = false /\ fst r = None
   /\ calls (snd r) = calls e ++ [IsConnected])
  \/ (fst (isConnected ib (world e)) = true
      /\ calls (snd r) = calls e ++ [IsConnected; Positions]).
Proof.
  unfold IBKR.get_position, IBKR.get_positions, IBKR.bind. rewrite is_connected_run.
  destruct (isConnected ib (world e)) as [conn w0]. simpl.
  destruct conn; simpl; [right | left; auto].
  split; [reflexivity|].
  unfold IBKR.oracle, IBKR.ret, IBKR.log. simpl.
  destruct (World.positions ib w0) as [[ps|] w1]; simpl;
    rewrite <- app_assoc; reflexivity.
Qed.

(** One position refresh. *)
Lemma post_update_position symbol s (Q : unit -> Sys W -> Prop) :
  (forall s' p refresh,
      refreshed symbol p s s' -> well_formed_position symbol p ->
      added_calls s s' refresh -> refresh_calls refresh ->
      (fst (isConnected ib (world (env s))) = false ->
       state p = FLAT /\ quantity p = 0 /\ avg_price p = Fin 0
       /\ refresh = [IsConnected]) ->
      Q tt s') ->
  post (_update_position ib symbol) s Q.
Proof.
  intros HQ. unfold post, _update_position, bind, lift, clock, get, set_positions, log.
  pose proof (get_position_run symbol (env s)) as Hrun.
  destruct (IBKR.get_position ib symbol (env s)) as [pos e1]. simpl in Hrun.
  unfold lift, IBKR.oracle, IBKR.log. simpl.
  destruct (utcnow ib (world e1)) as [now w2]. simpl.
  assert (Hwf : forall pos' : option Position,
            well_formed_position symbol
              match pos' with
              | Some p =>
                  if negb (World.position p =? 0)
                  then new_PositionInfo symbol
                         (if 0 <? World.position p then LONG else SHORT)
                         (Z.abs (World.position p)) (avgCost p) now
                  else new_PositionInfo symbol FLAT 0 (Fin 0) now
              | None => new_PositionInfo symbol FLAT 0 (Fin 0) now
              end).
  { intros [p|]; [|repeat split; simpl; lia].
    destruct (World.position p =? 0) eqn:Ez; simpl; [repeat split; simpl; lia|].
    apply Z.eqb_neq in Ez. unfold new_PositionInfo.
    replace (Z.abs (World.position p) =? 0) with false
      by (symmetry; apply Z.eqb_neq; lia).
    repeat split; simpl; try lia.
    destruct (0 <? World.position p); discriminate. }
  destruct Hrun as [(Hoff & -> & Hc) | (Hon & Hc)].
  - apply (HQ _ (new_PositionInfo symbol FLAT 0 (Fin 0) now) [IsConnected]);
      [split; reflexivity | apply (Hwf None) | exact Hc | left; reflexivity |].
    intros _. repeat split.
  - eapply (HQ _ _ [IsConnected; Positions]);
      [split; reflexivity | apply (Hwf pos) | exact Hc | right; reflexivity |].
    intros Hoff. congruence.
Qed.

Lemma execution_books symbol action quantity order_type s s1 s2 ok added :
  execution cfg symbol action quantity order_type s s1 ok added ->
  same_books s1 s2 ->
  execution cfg symbol action quantity order_type s s2 ok added.
Proof.
  intros H B. destruct H.
  - apply exec_rejected. eauto using same_books_trans.
  - apply exec_unpriced; eauto using same_books_trans.
  - apply exec_offline. eauto using same_books_trans.
  - apply exec_refused; eauto using same_books_trans.
  - apply exec_market; eauto using same_books_trans.
  - destruct B. eapply exec_limit; eauto; congruence.
Qed.

Lemma refreshed_books symbol p s s1 s2 :
  refreshed symbol p s s1 -> same_books s1 s2 -> refreshed symbol p s s2.
Proof. intros [] []. split; congruence. Qed.

Lemma books_refreshed symbol p s s1 s2 :
  same_books s s1 -> refreshed symbol p s1 s2 -> refreshed symbol p s s2.
Proof. intros [] []. split; congruence. Qed.

Lemma process_alert_run alert s :
  let r := process_alert ib cfg tsm alert s in
  exists added,
    added_calls s (snd r) added /\ alert_run cfg alert s (snd r) (fst r) added.
Proof.
  change (post (process_alert ib cfg tsm alert) s
            (fun x s' => exists added,
               added_calls s s' added /\ alert_run cfg alert s s' x added)).
  unfold process_alert.
  apply post_bind, (post_moves _ _ _ _ (moves_log _ _)). intros u s1 B1 C1.
  apply post_bind, post_intro. intros d s2 Hd.
  destruct (moves_get_trading_decision_now s1) as [B2 C2].
  pose proof (get_trading_decision_now_type s1) as Htype.
  rewrite Hd in B2, C2, Htype. simpl in B2, C2, Htype.
  assert (B02 : same_books s s2) by eauto using same_books_trans.
  assert (C02 : added_calls s s2 []) by eauto using added_calls_nil.
  destruct (MarketHours.can_trade d); simpl.
  2:{ apply post_bind, (post_moves _ _ _ _ (moves_log _ _)). intros u' s3 B3 C3.
      apply post_ret. exists []. split; [eauto using added_calls_nil|].
      apply alert_not_tradable. eauto using same_books_trans. }
  assert (Hot : exists order_type,
             MarketHours.recommended_order_type d = Some order_type
             /\ (order_type = "MKT" \/ order_type = "LMT")).
  { destruct (Htype eq_refl) as [-> | ->]; eauto. }
  destruct Hot as (order_type & Eot & Hot).
  apply post_bind, post_update_position. intros s3 p refresh R3 Hwf C3 Hrc _.
  apply post_bind, (post_moves _ _ _ _ (moves_clock _)). intros now s4 B4 C4.
  apply post_bind, post_get.
  assert (Hlook : positions s4 !! alert_symbol alert = Some p).
  { rewrite (books_positions _ _ B4), (refreshed_positions _ _ _ _ R3).
    apply lookup_insert_eq. }
  rewrite Hlook.
  apply post_bind, post_intro. intros ok s5 Hv.
  destruct (moves_validate p (alert_action alert) s4) as [B5 C5].
  pose proof (validate_result p (alert_action alert) s4) as Hok.
  rewrite Hv in B5, C5, Hok. simpl in B5, C5, Hok.
  assert (R05 : refreshed (alert_symbol alert) p s s5).
  { eapply books_refreshed; [exact B02|].
    eapply refreshed_books; [exact R3|]. eauto using same_books_trans. }
  assert (C05 : added_calls s s5 refresh).
  { eapply added_calls_nil; [|exact C5]. eapply added_calls_nil; [|exact C4].
    apply (added_calls_app _ _ _ _ _ C02 C3). }
  destruct ok; simpl.
  2:{ apply post_ret. exists refresh. split; [exact C05|].
      eapply alert_invalid; eauto. }
  apply post_bind, post_intro. intros success s6 He.
  destruct (execute_trade_run (alert_symbol alert) (alert_action alert)
              (match alert_quantity alert with
               | Some q => q
               | None => default_quantity cfg
               end) d s5) as (added & C6 & Hexec).
  rewrite He, Eot in *. simpl in C6, Hexec.
  assert (Hlog : moves (if success
                        then log INFO (AlertProcessed (alert_action alert)
                                         (match alert_quantity alert with
                                          | Some q => q
                                          | None => default_quantity cfg
                                          end) (alert_symbol alert))
                        else log ERROR (FailedToProcessAlert (alert_action alert)
                                          (match alert_quantity alert with
                                           | Some q => q
                                           | None => default_quantity cfg
                                           end) (alert_symbol alert)))
                   (fun _ => [])).
  { destruct success; apply moves_log. }
  apply post_bind, (post_moves _ _ _ _ Hlog). intros u' s7 B7 C7.
  apply post_ret. exists (refresh ++ added). split.
  - eapply added_calls_nil; [|exact C7]. eapply added_calls_app; eassumption.
  - eapply alert_executed; eauto. eapply execution_books; eassumption.
Qed.

Lemma accepted_orders_app t1 t2 :
  accepted_orders (t1 ++ t2) = (accepted_orders t1 + accepted_orders t2)%nat.
Proof. unfold accepted_orders. rewrite List.filter_app, length_app. reflexivity. Qed.

Lemma accepted_orders_approach symbol limit c :
  accepted_orders (approach symbol limit c) = 0%nat.
Proof. destruct limit; reflexivity. Qed.

Lemma execution_accepted symbol action quantity order_type s s' ok added :
  execution cfg symbol action quantity order_type s s' ok added ->
  accepted_orders added = (if ok then 1 else 0)%nat.
Proof.
  intros []; rewrite ?accepted_orders_app, ?accepted_orders_approach; reflexivity.
Qed.

Lemma execution_ledger symbol action quantity order_type s s' ok added :
  execution cfg symbol action quantity order_type s s' ok added ->
  positions s' = positions s /\ tasks s' = tasks s.
Proof.
  intros [[] | c _ [] | c [] | c o [] _ _ | c o _ [] _ _ | c o po _ _ _ Hp Ht _ _];
    auto.
Qed.

(** X17. One run of the executor talks to the gateway in a fixed order:
    qualification, then for a limit order the quote and its release, then
    the connectivity check, then the order.  It stops at the first step
    that fails, places at most one order, and returns True exactly when
    the gateway accepted that order; when it returns False the books are
    as they were. *)
Theorem execute_trade_call_protocol symbol action quantity trading_decision s :
  let r := _execute_trade ib cfg symbol action quantity trading_decision s in
  let limit := is_limit (MarketHours.recommended_order_type trading_decision) in
  exists added,
    added_calls s (snd r) added
    /\ (exists c intent o accepted,
          added `prefix_of` approach symbol limit c
                            ++ [IsConnected; PlaceOrder intent c o accepted])
    /\ head added = Some (QualifyContracts symbol)
    /\ accepted_orders added = (if fst r then 1 else 0)%nat
    /\ (fst r = true <->
        exists before intent c o, added = before ++ [PlaceOrder intent c o true])
    /\ (fst r = false -> same_books s (snd r)).
Proof.
  intros r limit.
  destruct (execute_trade_run symbol action quantity trading_decision s)
    as (added & Hc & Hexec).
  fold r in Hc, Hexec. fold limit in Hexec.
  exists added. split; [exact Hc|].
  split; [|split; [|split; [eapply execution_accepted; exact Hexec|]]].
  - set (dummy := mk_contract "" 0).
    set (blank := mk_order 0 "" 0 None "" None).
    destruct Hexec as [B | c El B | c B | c o B Hs Hn | c o El B Hs Hl
                       | c o po El Hs Hf Hp Ht Ho Hd].
    + exists dummy, None, blank, false. eexists. reflexivity.
    + exists c, None, blank, false. fold limit in El. rewrite El.
      eexists. simpl. reflexivity.
    + exists c, None, blank, false. eexists.
      rewrite <- app_assoc. reflexivity.
    + do 4 eexists. reflexivity.
    + fold limit in El. rewrite El. do 4 eexists. reflexivity.
    + fold limit in El. rewrite El. do 4 eexists. reflexivity.
  - destruct Hexec; reflexivity.
  - split.
    + destruct Hexec as [B | c El B | c B | c o B Hs Hn | c o El B Hs Hl
                         | c o po El Hs Hf Hp Ht Ho Hd].
      * split; [discriminate|]. intros (before & intent & c & o & H).
        destruct before as [|x [|y before]]; discriminate.
      * split; [discriminate|]. intros (before & intent & c' & o & H).
        destruct before as [|x [|y [|z [|u before]]]]; discriminate.
      * split; [discriminate|]. intros (before & intent & c' & o & H).
        apply (f_equal list.last) in H. rewrite last_snoc, last_app in H. discriminate.
      * split; [discriminate|]. intros (before & intent & c' & o' & H).
        apply (f_equal list.last) in H. rewrite last_snoc, last_app in H. discriminate.
      * split; [|reflexivity]. intros _.
        exists (approach symbol false c ++ [IsConnected]), None, c, o.
        rewrite <- app_assoc. reflexivity.
      * split; [|reflexivity]. intros _.
        exists (approach symbol true c ++ [IsConnected]), (Some (length (objects s))),
          c, o.
        rewrite <- app_assoc. reflexivity.
    + destruct Hexec; auto; discriminate.
Qed.

(** X18. A market order is placed without asking for a quote, goes out
    without a limit price and on behalf of no PendingOrder object, and
    leaves the books untouched whether it is accepted or not. *)
Theorem market_order_skips_quote_and_tracking symbol action quantity
    trading_decision s :
  is_limit (MarketHours.recommended_order_type trading_decision) = false ->
  let r := _execute_trade ib cfg symbol action quantity trading_decision s in
  same_books s (snd r) /\
  exists added,
    added_calls s (snd r) added
    /\ (forall c, ReqMktData c ∉ added)
    /\ (forall intent c o accepted,
          PlaceOrder intent c o accepted ∈ added ->
          intent = None /\ lmtPrice o = None
          /\ orderType o = MarketHours.recommended_order_type trading_decision).
Proof.
  intros Hm r.
  destruct (execute_trade_run symbol action quantity trading_decision s)
    as (added & Hc & Hexec).
  fold r in Hc, Hexec.
  assert (Hbooks : same_books s (snd r)).
  { destruct Hexec; try assumption. congruence. }
  split; [exact Hbooks|]. exists added. split; [exact Hc|].
  destruct Hexec as [B | c El B | c B | c o B Hs Hl | c o El B Hs Hl
                     | c o po El Hs Hf Hp Ht Ho Hd]; try congruence;
    rewrite ?Hm; simpl; split;
    try (intros c' Hin; set_solver);
    intros intent c' o' accepted Hin;
    try (exfalso; set_solver).
  - assert (PlaceOrder intent c' o' accepted = PlaceOrder None c o false)
      as [= -> -> -> ->] by set_solver.
    destruct Hs as (_ & _ & Ht & _). auto.
  - assert (PlaceOrder intent c' o' accepted = PlaceOrder None c o true)
      as [= -> -> -> ->] by set_solver.
    destruct Hs as (_ & _ & Ht & _). auto.
Qed.


(** X20. While the session manager finds no tradable session, an alert
    changes nothing: no gateway call, no position refresh, nothing tracked;
    the engine logs the alert and the reason and returns False. *)
Theorem process_alert_untradable_is_inert alert s :
  (forall w, MarketHours.can_trade_now id tsm (fst (now_eastern ib w)) = false) ->
  let r := process_alert ib cfg tsm alert s in
  fst r = false /\ same_books s (snd r) /\
  calls (env (snd r)) = calls (env s) /\
  exists reason,
    logs (env (snd r))
    = logs (env s)
      ++ [(INFO, ProcessingAlert (alert_action alert)
                   (match alert_quantity alert with
                    | Some q => q
                    | None => default_quantity cfg
                    end) (alert_symbol alert));
          (WARNING, TradingNotAllowed reason)].
Proof.
  intros Hclosed. unfold process_alert, get_trading_decision_now, bind, log, clock, lift,
    IBKR.log, IBKR.oracle, ret. simpl.
  destruct (now_eastern ib (world (env s))) as [dt_info w1]. simpl.
  pose proof (Hclosed w1) as Hc.
  destruct (now_eastern ib w1) as [dt_can w2]. simpl in *.
  rewrite Hc. simpl. rewrite <- app_assoc. repeat split. eexists. reflexivity.
Qed.


(** X22. One alert places at most one order, and [process_alert] returns
    True exactly when the gateway accepted one.  It schedules nothing,
    never drops a tracked object, and touches the position of no symbol
    but its own. *)
Theorem process_alert_places_at_most_one_order alert s :
  let r := process_alert ib cfg tsm alert s in
  exists added,
    added_calls s (snd r) added
    /\ accepted_orders added = (if fst r then 1 else 0)%nat
    /\ tasks (snd r) = tasks s
    /\ objects s `prefix_of` objects (snd r)
    /\ (forall sym, sym <> alert_symbol alert ->
                    positions (snd r) !! sym = positions s !! sym).
Proof.
  intros r.
  destruct (process_alert_run alert s) as (added & Hc & Hrun).
  fold r in Hc, Hrun. exists added. split; [exact Hc|].
  destruct Hrun as [B | p refresh R Hwf Hrc Hv
                    | p refresh s1 order_type ok added' R Hwf Hrc Hv Hot Hexec].
  - destruct B as [Hp Ho Hd Ht]. rewrite Hp, Ho, Ht.
    split; [reflexivity|]. split; [reflexivity|]. split; reflexivity.
  - destruct R as [Hp Ho Hd Ht]. rewrite Hp, Ho, Ht.
    split; [destruct Hrc as [-> | ->]; reflexivity|].
    split; [reflexivity|]. split; [reflexivity|].
    intros sym Hne. apply lookup_insert_ne. congruence.
  - destruct (execution_ledger _ _ _ _ _ _ _ _ Hexec) as [Hp Ht].
    rewrite accepted_orders_app, (execution_accepted _ _ _ _ _ _ _ _ Hexec).
    destruct R as [Hp1 Ho1 Hd1 Ht1]. rewrite Hp, Ht, Hp1, Ht1.
    split; [destruct Hrc as [-> | ->]; reflexivity|].
    split; [reflexivity|]. split.
    + rewrite <- Ho1.
      destruct Hexec as [[] | c _ [] | c [] | c o [] _ _
                         | c o _ [] _ _ | c o po _ _ _ _ _ Ho _];
        try (match goal with H : objects _ = objects _ |- _ => rewrite H end;
             reflexivity).
      rewrite Ho. eexists. reflexivity.
    + intros sym Hne. apply lookup_insert_ne. congruence.
Qed.

(** X23. A refresh made while the client is disconnected asks the gateway
    for nothing and records the symbol as FLAT, whatever the account
    holds; the rest of the books is untouched. *)
Theorem update_position_offline_reads_flat symbol s :
  fst (isConnected ib (world (env s))) = false ->
  let s' := snd (_update_position ib symbol s) in
  (exists p, positions s' !! symbol = Some p
             /\ state p = FLAT /\ quantity p = 0 /\ avg_price p = Fin 0)
  /\ (forall sym, sym <> symbol -> positions s' !! sym = positions s !! sym)
  /\ calls (env s') = calls (env s) ++ [IsConnected]
  /\ objects s' = objects s
  /\ pending_orders s' = pending_orders s
  /\ tasks s' = tasks s.
Proof.
  intros Hoff.
  change (post (_update_position ib symbol) s
            (fun _ s' =>
               (exists p, positions s' !! symbol = Some p
                          /\ state p = FLAT /\ quantity p = 0 /\ avg_price p = Fin 0)
               /\ (forall sym, sym <> symbol -> positions s' !! sym = positions s !! sym)
               /\ calls (env s') = calls (env s) ++ [IsConnected]
               /\ objects s' = objects s
               /\ pending_orders s' = pending_orders s
               /\ tasks s' = tasks s)).
  apply post_update_position. intros s' p refresh [Hp Ho Hd Ht] Hwf Hc Hrc Hflat.
  destruct (Hflat Hoff) as (Hst & Hq & Havg & ->).
  rewrite Hp. repeat split; try assumption.
  - exists p. split; [apply lookup_insert_eq | auto].
  - intros sym Hne. apply lookup_insert_ne. congruence.
Qed.

(** ** Broker events and the sweep (src/trading_engine.py) *)

Lemma on_fill_run fill s :
  let s' := snd (_on_fill fill s) in
  positions s' = positions s /\ objects s' = objects s
  /\ tasks s' = tasks s ++ [con_symbol (fill_contract fill)]
  /\ calls (env s') = calls (env s)
  /\ pending_orders s'
     = (if dict_mem (pending_orders s) (str_of_int (fill_orderId fill))
        then dict_del (pending_orders s) (str_of_int (fill_orderId fill))
        else pending_orders s).
Proof.
  unfold _on_fill, bind, log, lift, get, set_tasks, set_pending_orders, IBKR.log, ret.
  simpl. destruct (dict_mem _ _); simpl; auto.
Qed.

Lemma on_order_status_run trade s :
  let s' := snd (_on_order_status trade s) in
  positions s' = positions s /\ objects s' = objects s /\ tasks s' = tasks s
  /\ calls (env s') = calls (env s)
  /\ pending_orders s'
     = (if str_in (tr_status trade) ["Cancelled"; "ApiCancelled"; "Rejected"]
           && dict_mem (pending_orders s) (str_of_int (orderId (tr_order trade)))
        then dict_del (pending_orders s) (str_of_int (orderId (tr_order trade)))
        else pending_orders s).
Proof.
  unfold _on_order_status, bind, log, lift, get, set_pending_orders, IBKR.log, ret.
  destruct (str_in _ _); simpl; [|auto].
  destruct (dict_mem _ _); simpl; auto.
Qed.

Lemma dict_untrack (d : dict nat) (k : string) :
  NoDup d.*1 ->
  let d' := if dict_mem d k then dict_del d k else d in
  dict_get d' k = None /\ forall k', k' <> k -> dict_get d' k' = dict_get d k'.
Proof.
  intros Hnd. unfold dict_mem.
  destruct (dict_get d k) as [a|] eqn:E; simpl.
  - split; [apply dict_get_None, dict_del_gone, Hnd|].
    intros k' Hne. apply dict_get_del_ne. congruence.
  - auto.
Qed.

(** X24. A fill takes the order out of the pending set, whether or not it
    was tracked, leaves every other entry and every PendingOrder object as
    they were, schedules one position refresh for the symbol and makes no
    gateway call. *)
Theorem on_fill_untracks_order fill s :
  NoDup (pending_orders s).*1 ->
  let order_id := str_of_int (fill_orderId fill) in
  let s' := snd (_on_fill fill s) in
  dict_get (pending_orders s') order_id = None
  /\ (forall k, k <> order_id ->
                dict_get (pending_orders s') k = dict_get (pending_orders s) k)
  /\ objects s' = objects s
  /\ positions s' = positions s
  /\ tasks s' = tasks s ++ [con_symbol (fill_contract fill)]
  /\ calls (env s') = calls (env s).
Proof.
  intros Hnd order_id s'.
  destruct (on_fill_run fill s) as (Hp & Ho & Ht & Hc & Hd). fold s' in Hp, Ho, Ht, Hc, Hd.
  destruct (dict_untrack (pending_orders s) order_id Hnd) as [Hgone Hrest].
  rewrite Hd. auto 10.
Qed.

(** X25. Of the order statuses only Cancelled, ApiCancelled and Rejected
    matter: any other status, Filled and Inactive included, leaves the
    engine exactly as it was; those three take the order out of the pending
    set and change nothing else but the log. *)
Theorem on_order_status_terminal_only trade s :
  let order_id := str_of_int (orderId (tr_order trade)) in
  let s' := snd (_on_order_status trade s) in
  (str_in (tr_status trade) ["Cancelled"; "ApiCancelled"; "Rejected"] = false ->
   s' = s) /\
  (str_in (tr_status trade) ["Cancelled"; "ApiCancelled"; "Rejected"] = true ->
   NoDup (pending_orders s).*1 ->
   dict_get (pending_orders s') order_id = None
   /\ (forall k, k <> order_id ->
                 dict_get (pending_orders s') k = dict_get (pending_orders s) k)) /\
  objects s' = objects s /\ positions s' = positions s /\ tasks s' = tasks s /\
  calls (env s') = calls (env s).
Proof.
  intros order_id s'.
  destruct (on_order_status_run trade s) as (Hp & Ho & Ht & Hc & Hd).
  fold s' in Hp, Ho, Ht, Hc, Hd.
  split; [|split; [|auto]].
  - intros Hst. unfold s', _on_order_status. rewrite Hst. reflexivity.
  - intros Hst Hnd. rewrite Hd, Hst. simpl.
    apply (dict_untrack (pending_orders s) order_id Hnd).
Qed.

Lemma same_intent_refl po : same_intent po po.
Proof. repeat split. Qed.

(** The second loop of the sweep replaces each selected order at most
    once and leaves the others alone. *)
Lemma for_each_resubmit_once (todo : list nat) s :
  NoDup todo ->
  let s' := snd (for_each (_resubmit_order ib cfg) todo s) in
  length (objects s') = length (objects s) /\
  forall a po,
    objects s !! a = Some po ->
    exists po',
      objects s' !! a = Some po' /\ same_intent po po'
      /\ ((po' = po /\ placed_for s' a = placed_for s a)
          \/ (a ∈ todo
              /\ resubmission_count po' = resubmission_count po + 1
              /\ placed_for s' a = (placed_for s a + 1)%nat)).
Proof.
  revert s. induction todo as [|a0 todo IH]; intros s Hnd; simpl.
  { split; [reflexivity|]. intros a po Ea. exists po.
    split; [exact Ea|]. split; [apply same_intent_refl | left; auto]. }
  unfold bind.
  pose proof (resubmit_order_effect ib cfg a0 s) as Heff.
  destruct (_resubmit_order ib cfg a0 s) as [[] s1]. simpl in Heff.
  apply NoDup_cons in Hnd as [Ha0 Hnd].
  destruct (IH s1 Hnd) as [Hlen Hobj]. clear IH.
  destruct Heff as [[Ho Hp Hc] | po0 new_id now E0 Ho Hp Hc].
  - split; [rewrite Hlen, Ho; reflexivity|].
    intros a po Ea. rewrite <- Ho in Ea.
    destruct (Hobj a po Ea) as (po' & Ea' & Hsame & Hcase).
    exists po'. split; [exact Ea'|]. split; [exact Hsame|].
    rewrite <- (Hc a).
    destruct Hcase as [H | (Hin & H)]; [left; exact H | right].
    split; [apply list_elem_of_further, Hin | exact H].
  - split; [rewrite Hlen, Ho, length_insert; reflexivity|].
    intros a po Ea. destruct (Nat.eq_dec a a0) as [-> | Hne].
    + assert (po0 = po) by congruence. subst po0.
      assert (E1 : objects s1 !! a0 = Some (resubmitted po new_id now)).
      { rewrite Ho. apply list_lookup_insert_eq. eapply lookup_lt_Some, Ea. }
      destruct (Hobj a0 _ E1) as (po' & Ea' & Hsame & Hcase).
      destruct Hcase as [[-> Hpl] | (Hin & _)]; [|contradiction].
      exists (resubmitted po new_id now). split; [exact Ea'|].
      split; [repeat split|]. right.
      split; [apply list_elem_of_here|]. split; [reflexivity|].
      rewrite Hpl, Hc. rewrite (proj2 (Nat.eqb_eq _ _) eq_refl). reflexivity.
    + assert (E1 : objects s1 !! a = Some po).
      { rewrite Ho, list_lookup_insert_ne by congruence. exact Ea. }
      destruct (Hobj a po E1) as (po' & Ea' & Hsame & Hcase).
      exists po'. split; [exact Ea'|]. split; [exact Hsame|].
      assert (Hpl : placed_for s1 a = placed_for s a).
      { rewrite Hc. destruct (Nat.eqb_spec a0 a); [congruence | lia]. }
      rewrite <- Hpl.
      destruct Hcase as [H | (Hin & H)]; [left; exact H | right].
      split; [apply list_elem_of_further, Hin | exact H].
Qed.

Lemma tracked_ok_ext s s' :
  objects s' = objects s -> pending_orders s' = pending_orders s ->
  tracked_ok s -> tracked_ok s'.
Proof. intros Ho Hp [Hnd Hids]. split; rewrite ?Ho, ?Hp; assumption. Qed.

(** X26. One sweep replaces each tracked order at most once.  Every
    PendingOrder object is still there afterwards, for the same symbol,
    action, quantity, first price and submission time; it is either
    untouched, or it was tracked and below the cap, and then its
    resubmission count and its accepted placements both went up by one. *)
Theorem sweep_replaces_each_order_at_most_once s :
  tracked_ok s ->
  let s' := snd (check_and_resubmit_orders ib cfg s) in
  length (objects s') = length (objects s) /\
  forall a po,
    objects s !! a = Some po ->
    exists po',
      objects s' !! a = Some po' /\ same_intent po po'
      /\ ((po' = po /\ placed_for s' a = placed_for s a)
          \/ ((exists k, (k, a) ∈ pending_orders s)
              /\ resubmission_count po < max_resubmissions cfg
              /\ resubmission_count po' = resubmission_count po + 1
              /\ placed_for s' a = (placed_for s a + 1)%nat)).
Proof.
  intros Hok. unfold check_and_resubmit_orders, bind.
  destruct (moves_clock (utcnow ib) s) as [[Hp Ho Hd Ht] Hc].
  destruct (clock (utcnow ib) s) as [current_time s1]. simpl in *.
  assert (Hok1 : tracked_ok s1) by (eapply tracked_ok_ext; eassumption).
  assert (Hpl : forall a, placed_for s1 a = placed_for s a).
  { intros a. unfold placed_for. rewrite Hc, app_nil_r. reflexivity. }
  destruct (for_each_resubmit_once (orders_to_resubmit cfg current_time s1) s1
              (orders_to_resubmit_NoDup cfg current_time s1 Hok1)) as [Hlen Hobj].
  split; [rewrite Hlen, Ho; reflexivity|].
  intros a po Ea. rewrite <- Ho in Ea.
  destruct (Hobj a po Ea) as (po' & Ea' & Hsame & Hcase).
  exists po'. split; [exact Ea'|]. split; [exact Hsame|].
  rewrite <- (Hpl a).
  destruct Hcase as [H | (Hin & Hcount & Hplaced)]; [left; exact H | right].
  apply orders_to_resubmit_selected in Hin as (k & po1 & Hk & E1 & Hdue).
  assert (po1 = po) by congruence. subst po1.
  split; [exists k; rewrite <- Hd; exact Hk|].
  split; [eapply due_below_cap; exact Hdue|]. auto.
Qed.

(** ** Reachable states *)

(** Engine code that leaves positions and tasks alone. *)
Definition keeps_ledger {A} (m : @E W A) : Prop :=
  forall s, positions (snd (m s)) = positions s /\ tasks (snd (m s)) = tasks s.

Lemma keeps_ledger_ret {A} (x : A) : keeps_ledger (@ret W A x).
Proof. intros s. auto. Qed.

Lemma keeps_ledger_bind {A B} (m : @E W A) (k : A -> @E W B) :
  keeps_ledger m -> (forall x, keeps_ledger (k x)) -> keeps_ledger (bind m k).
Proof.
  intros Hm Hk s. unfold bind. destruct (Hm s) as [H1 H2].
  destruct (m s) as [x s1]. destruct (Hk x s1) as [H3 H4]. simpl in *.
  split; congruence.
Qed.

Lemma keeps_ledger_get : keeps_ledger (@get W).
Proof. intros s. auto. Qed.

Lemma keeps_ledger_lift {A} (m : @IBKR.M W A) : keeps_ledger (lift m).
Proof. intros s. unfold lift. destruct (m (env s)). auto. Qed.

Lemma keeps_ledger_set_objects h : keeps_ledger (@set_objects W h).
Proof. intros s. auto. Qed.

Lemma keeps_ledger_set_pending_orders d : keeps_ledger (@set_pending_orders W d).
Proof. intros s. auto. Qed.

Ltac ledger :=
  repeat first
    [ apply keeps_ledger_ret | apply keeps_ledger_get | apply keeps_ledger_lift
    | apply keeps_ledger_set_objects | apply keeps_ledger_set_pending_orders
    | apply keeps_ledger_bind; [|intros ?]
    | match goal with
      | |- keeps_ledger (match ?x with _ => _ end) => destruct x
      | |- keeps_ledger (if ?x then _ else _) => destruct x
      end ].

Lemma keeps_ledger_resubmit_order a : keeps_ledger (_resubmit_order ib cfg a).
Proof. unfold _resubmit_order, log, clock. ledger. Qed.

Lemma keeps_ledger_for_each {A} (f : A -> @E W unit) (xs : list A) :
  (forall x, keeps_ledger (f x)) -> keeps_ledger (for_each f xs).
Proof.
  intros Hf. induction xs as [|x xs IH]; simpl; [apply keeps_ledger_ret|].
  apply keeps_ledger_bind; [apply Hf | intros _; exact IH].
Qed.

Lemma keeps_ledger_sweep : keeps_ledger (check_and_resubmit_orders ib cfg).
Proof.
  unfold check_and_resubmit_orders, clock.
  apply keeps_ledger_bind; [apply keeps_ledger_lift | intros current_time].
  apply keeps_ledger_bind; [apply keeps_ledger_get | intros s0].
  apply keeps_ledger_for_each, keeps_ledger_resubmit_order.
Qed.

Lemma for_each_resubmit_tracked (todo : list nat) s :
  tracked_ok s -> tracked_ok (snd (for_each (_resubmit_order ib cfg) todo s)).
Proof.
  revert s. induction todo as [|a todo IH]; intros s Hok; [exact Hok|].
  simpl. unfold bind.
  pose proof (resubmit_order_effect ib cfg a s) as Heff.
  destruct (_resubmit_order ib cfg a s) as [[] s1]. simpl in Heff.
  apply IH. eapply tracked_ok_resubmit; eassumption.
Qed.

Lemma tracked_ok_track s s' po :
  tracked_ok s ->
  objects s' = objects s ++ [po] ->
  pending_orders s' = dict_set (pending_orders s) (trade_id po) (length (objects s)) ->
  tracked_ok s'.
Proof.
  intros [Hnd Hids] Ho Hp. split; rewrite Hp.
  - apply NoDup_dict_set, Hnd.
  - intros k a Hin. rewrite Ho.
    apply elem_of_dict_set in Hin as [[-> ->] | [Hk Hin]]; [| |exact Hnd].
    + exists po. split; [apply list_lookup_middle; reflexivity | reflexivity].
    + destruct (Hids _ _ Hin) as (po' & Ea & Hid). exists po'. split; [|exact Hid].
      apply lookup_app_l_Some. exact Ea.
Qed.

Lemma execution_tracked symbol action quantity order_type s s' ok added :
  execution cfg symbol action quantity order_type s s' ok added ->
  tracked_ok s -> tracked_ok s'.
Proof.
  intros [[] | c _ [] | c [] | c o [] _ _ | c o _ [] _ _ | c o po _ _ _ _ _ Ho Hd]
    Hok; try (eapply tracked_ok_ext; eassumption).
  eapply tracked_ok_track; eassumption.
Qed.

Lemma step_tracked_ok op s :
  tracked_ok s -> tracked_ok (snd (step ib cfg tsm op s)).
Proof.
  intros Hok. destruct op as [alert|fill|trade| |]; simpl.
  - unfold bind.
    destruct (process_alert_run alert s) as (added & _ & Hrun).
    destruct (process_alert ib cfg tsm alert s) as [ok s1]. simpl in *.
    destruct Hrun as [[] | p refresh [] _ _ _
                      | p refresh s0 order_type ok added' [] _ _ _ _ Hexec].
    + eapply tracked_ok_ext; eassumption.
    + eapply tracked_ok_ext; eassumption.
    + eapply execution_tracked; [exact Hexec|]. eapply tracked_ok_ext; eassumption.
  - destruct (on_fill_run fill s) as (_ & Ho & _ & _ & Hd).
    destruct (dict_mem _ _).
    + eapply tracked_ok_del; eassumption.
    + eapply tracked_ok_ext; eassumption.
  - destruct (on_order_status_run trade s) as (_ & Ho & _ & _ & Hd).
    destruct (_ && _).
    + eapply tracked_ok_del; eassumption.
    + eapply tracked_ok_ext; eassumption.
  - unfold check_and_resubmit_orders, bind.
    destruct (moves_clock (utcnow ib) s) as [[Hp Ho Hd Ht] _].
    destruct (clock (utcnow ib) s) as [current_time s1]. simpl in *.
    apply for_each_resubmit_tracked. eapply tracked_ok_ext; eassumption.
  - unfold bind, get. simpl. destruct (tasks s) as [|symbol rest]; [exact Hok|].
    simpl.
    apply (post_update_position symbol
             (mk_sys (env s) (positions s) (objects s) (pending_orders s) rest)
             (fun _ s' => tracked_ok s')).
    intros s' p refresh [_ Ho Hd _] _ _ _ _. simpl in *.
    eapply tracked_ok_ext; eassumption.
Qed.

Lemma positions_ok_insert s s' sym p :
  positions_ok s -> well_formed_position sym p ->
  positions s' = <[sym := p]> (positions s) -> positions_ok s'.
Proof.
  intros Hok Hwf Hp sym' p'. rewrite Hp.
  destruct (decide (sym = sym')) as [<- | Hne].
  - rewrite lookup_insert_eq. intros [= <-]. exact Hwf.
  - rewrite lookup_insert_ne by exact Hne. apply Hok.
Qed.

Lemma positions_ok_ext s s' :
  positions s' = positions s -> positions_ok s -> positions_ok s'.
Proof. intros Hp Hok sym p. rewrite Hp. apply Hok. Qed.

Lemma step_positions_ok op s :
  positions_ok s -> positions_ok (snd (step ib cfg tsm op s)).
Proof.
  intros Hok. destruct op as [alert|fill|trade| |]; simpl.
  - unfold bind.
    destruct (process_alert_run alert s) as (added & _ & Hrun).
    destruct (process_alert ib cfg tsm alert s) as [ok s1]. simpl in *.
    destruct Hrun as [[] | p refresh [] Hwf _ _
                      | p refresh s0 order_type ok added' [] Hwf _ _ _ Hexec].
    + eapply positions_ok_ext; eassumption.
    + eapply positions_ok_insert; eassumption.
    + destruct (execution_ledger _ _ _ _ _ _ _ _ Hexec) as [Hp _].
      eapply positions_ok_ext; [exact Hp|].
      eapply positions_ok_insert; eassumption.
  - destruct (on_fill_run fill s) as (Hp & _).
    eapply positions_ok_ext; eassumption.
  - destruct (on_order_status_run trade s) as (Hp & _).
    eapply positions_ok_ext; eassumption.
  - destruct (keeps_ledger_sweep s) as [Hp _].
    eapply positions_ok_ext; eassumption.
  - unfold bind, get. simpl. destruct (tasks s) as [|symbol rest]; [exact Hok|].
    simpl.
    apply (post_update_position symbol
             (mk_sys (env s) (positions s) (objects s) (pending_orders s) rest)
             (fun _ s' => positions_ok s')).
    intros s' p refresh [Hp _ _ _] Hwf _ _ _. simpl in *.
    eapply positions_ok_insert; eassumption.
Qed.

Lemma run_invariant (P : Sys W -> Prop) :
  (forall op s, P s -> P (snd (step ib cfg tsm op s))) ->
  forall ops s, P s -> P (snd (run ib cfg tsm ops s)).
Proof.
  intros Hstep ops. unfold run.
  induction ops as [|op ops IH]; intros s HP; [exact HP|].
  simpl. unfold bind. pose proof (Hstep op s HP) as H1.
  destruct (step ib cfg tsm op s) as [[] s1]. apply IH, H1.
Qed.

(** X28. Whatever alerts, fills, status events, sweeps and scheduled
    refreshes the engine goes through, and whatever the gateway answers,
    the pending set stays well formed: no order id is filed twice, every
    id is the [trade_id] of the PendingOrder object it leads to, and no
    object is filed under two ids. *)
Theorem reachable_tracker_well_formed (ops : list Op) (w : W) :
  let s := snd (run ib cfg tsm ops (init cfg w)) in
  tracked_ok s /\ NoDup (pending_orders s).*2.
Proof.
  intros s.
  assert (Hok : tracked_ok s).
  { apply (run_invariant tracked_ok step_tracked_ok).
    split; simpl; [constructor | intros k a Hin; inversion Hin]. }
  split; [exact Hok | apply tracked_ok_addresses, Hok].
Qed.

(** X29. In every state the engine can reach, each position record is
    filed under its own symbol, has a non-negative quantity, and is FLAT
    exactly when that quantity is zero. *)
Theorem reachable_positions_well_formed (ops : list Op) (w : W) (sym : string)
    (p : PositionInfo) :
  positions (snd (run ib cfg tsm ops (init cfg w))) !! sym = Some p ->
  well_formed_position sym p.
Proof.
  apply (run_invariant positions_ok step_positions_ok).
  intros sym' p'. simpl. rewrite lookup_empty. discriminate.
Qed.

End Pipeline.

(** A market BUY of 100 AAPL leaves the books of a fresh engine untouched. *)
Lemma market_order_skips_quote_and_tracking_witness :
  same_books (Engine.init default_config tt)
    (snd (Engine._execute_trade (steady_gateway quiet_ticker 7 0 tuesday_5am)
            default_config "AAPL" "buy" 100 regular_decision
            (Engine.init default_config tt))).
Proof.
  exact (proj1 (market_order_skips_quote_and_tracking
                  (steady_gateway quiet_ticker 7 0 tuesday_5am) default_config
                  "AAPL" "buy" 100 regular_decision (Engine.init default_config tt)
                  eq_refl)).
Defined.

(** On a Saturday the alert is refused without a gateway call. *)
Lemma process_alert_untradable_is_inert_witness :
  let r := Engine.process_alert (steady_gateway quiet_ticker 7 0 saturday_noon)
             default_config pre_market_manager buy_aapl
             (Engine.init default_config tt) in
  fst r = false /\ World.calls (Engine.env (snd r)) = [].
Proof.
  destruct (process_alert_untradable_is_inert
              (steady_gateway quiet_ticker 7 0 saturday_noon) default_config
              pre_market_manager buy_aapl (Engine.init default_config tt))
    as (H1 & _ & H2 & _).
  - intros []. reflexivity.
  - split; [exact H1 | exact H2].
Defined.


(** With the connection down, a refresh makes the connectivity check and nothing else. *)
Lemma update_position_offline_reads_flat_witness :
  World.calls
    (Engine.env (snd (Engine._update_position offline_gateway "AAPL"
                        (Engine.init default_config tt))))
  = [World.IsConnected].
Proof.
  destruct (update_position_offline_reads_flat offline_gateway "AAPL"
              (Engine.init default_config tt) eq_refl) as (_ & _ & H & _).
  exact H.
Defined.

(** The fill of order 7 takes it out of the pending set. *)
Lemma on_fill_untracks_order_witness :
  Py.dict_get
    (Engine.pending_orders
       (snd (Engine._on_fill
               (World.mk_fill (World.mk_contract "MSFT" 2) 7) exhausted_state)))
    "7" = None.
Proof.
  refine (proj1 (on_fill_untracks_order
                   (World.mk_fill (World.mk_contract "MSFT" 2) 7) exhausted_state _)).
  apply NoDup_singleton.
Defined.

(** The sweep over the exhausted order keeps the one object. *)
Lemma sweep_replaces_each_order_at_most_once_witness :
  length (Engine.objects
            (snd (Engine.check_and_resubmit_orders late_gateway default_config
                    exhausted_state))) = 1%nat.
Proof.
  refine (proj1 (sweep_replaces_each_order_at_most_once late_gateway default_config
                   exhausted_state _)).
  split; simpl.
  - apply NoDup_singleton.
  - intros k a Hin. apply list_elem_of_singleton in Hin. injection Hin as -> ->.
    exists exhausted_order. split; reflexivity.
Defined.

(** After one BUY alert the AAPL record is the flat one read before the order. *)
Lemma reachable_positions_well_formed_witness :
  well_formed_position "AAPL" (Engine.mk_position_info "AAPL" Engine.FLAT 0 (Py.Fin 0) 0).
Proof.
  refine (reachable_positions_well_formed
            (steady_gateway quiet_ticker 7 0 tuesday_5am) default_config
            pre_market_manager [Engine.OpAlert buy_aapl] tt "AAPL" _ _).
  reflexivity.
Defined.

(** ** The order on the wire (src/trading_engine.py, src/ibkr_client.py) *)

Section Wire.
Import Py World Engine.
Context {W : Type} (ib : Gateway W) (cfg : Config)
        (tsm : MarketHours.TradingSessionManager).
Implicit Types s : Sys W.

(** [place_order], answer by answer. *)
Lemma place_order_eq intent acct c action quantity order_type limit_price (e : Env W) :
  let order := mk_order 0 (upper action) quantity order_type acct
                 (match order_type, limit_price with
                  | Some t, Some p =>
                      if String.eqb t "LMT" && truthy p then Some p else None
                  | _, _ => None
                  end) in
  let w := snd (isConnected ib (world e)) in
  IBKR.place_order ib intent acct c action quantity order_type limit_price e
  = if fst (isConnected ib (world e))
    then match fst (placeOrder ib c order w) with
         | Ok trade =>
             (Some trade,
              mk_env (snd (placeOrder ib c order w))
                (calls e ++ [IsConnected; PlaceOrder intent c order true])
                (logs e ++ [(INFO, OrderPlaced (orderId (tr_order trade)) action
                                     (con_symbol c) quantity order_type limit_price)]))
         | Exc =>
             (None,
              mk_env (snd (placeOrder ib c order w))
                (calls e ++ [IsConnected; PlaceOrder intent c order false])
                (logs e ++ [(ERROR, ErrorPlacingOrder)]))
         end
    else (None, mk_env w (calls e ++ [IsConnected]) (logs e ++ [(ERROR, NotConnected)])).
Proof.
  intros order w. unfold IBKR.place_order, IBKR.bind. rewrite is_connected_run.
  subst w. destruct (isConnected ib (world e)) as [conn w]; simpl.
  destruct conn; simpl; [|reflexivity].
  unfold IBKR.oracle, IBKR.call, IBKR.log, IBKR.ret; simpl. fold order.
  destruct (placeOrder ib c order w) as [[trade|] w']; simpl;
    rewrite <- app_assoc; reflexivity.
Qed.

Lemma is_limit_LMT order_type : is_limit order_type = true -> order_type = Some "LMT".
Proof.
  destruct order_type as [t|]; simpl; [|discriminate].
  intros H. apply String.eqb_eq in H. congruence.
Qed.

(** Client code run by the engine: the environment after it is the one the
    client returns, and nothing else changes. *)
Lemma post_lift {A} (m : @IBKR.M W A) s (Q : A -> Sys W -> Prop) :
  (forall x e, m (env s) = (x, e) ->
               Q x (mk_sys e (positions s) (objects s) (pending_orders s) (tasks s))) ->
  post (lift m) s Q.
Proof.
  intros H. unfold post, lift. destruct (m (env s)) as [x e] eqn:E. apply H. reflexivity.
Qed.

Lemma post_log l msg s (Q : unit -> Sys W -> Prop) :
  Q tt (mk_sys (mk_env (world (env s)) (calls (env s)) (logs (env s) ++ [(l, msg)]))
          (positions s) (objects s) (pending_orders s) (tasks s)) ->
  post (log l msg) s Q.
Proof. intros H. exact H. Qed.

Lemma post_clock {A} (f : W -> A * W) s (Q : A -> Sys W -> Prop) :
  Q (fst (f (world (env s))))
    (mk_sys (mk_env (snd (f (world (env s)))) (calls (env s)) (logs (env s)))
       (positions s) (objects s) (pending_orders s) (tasks s)) ->
  post (clock f) s Q.
Proof.
  intros H. unfold post, clock, lift, IBKR.oracle.
  destruct (f (world (env s))) as [x w]. exact H.
Qed.

(** One run of the executor for a limit order, answer by answer: either
    no order is built, or the order built from this run's quote goes to the
    gateway and, if accepted, is tracked under the id of the gateway's
    answer. *)
Lemma execute_trade_limit_run symbol action quantity trading_decision s :
  is_limit (MarketHours.recommended_order_type trading_decision) = true ->
  let r := _execute_trade ib cfg symbol action quantity trading_decision s in
  let side := _convert_action_to_ibkr action in
  (fst r = false
   /\ exists added, added_calls s (snd r) added
                    /\ forall i c o acc, PlaceOrder i c o acc ∉ added)
  \/ exists c e1 market_price e2 e3 answer,
       IBKR.get_contract ib symbol (env s) = (Some c, e1)
       /\ IBKR.get_market_price ib c e1 = (Some market_price, e2)
       /\ fst (isConnected ib (world e2)) = true
       /\ let limit := execute_limit_price side market_price in
          let o := limit_order cfg side quantity limit in
          IBKR.place_order ib (Some (length (objects s))) (client_account cfg) c side
            quantity (Some "LMT") (Some limit) e2 = (answer, e3)
          /\ fst (placeOrder ib c o (snd (isConnected ib (world e2))))
             = match answer with Some trade => Ok trade | None => Exc end
          /\ added_calls s (snd r)
               (approach symbol true c
                ++ [IsConnected;
                    PlaceOrder (Some (length (objects s))) c o
                      (match answer with Some _ => true | None => false end)])
          /\ match answer with
             | Some trade =>
                 fst r = true
                 /\ positions (snd r) = positions s /\ tasks (snd r) = tasks s
                 /\ objects (snd r)
                    = objects s
                      ++ [mk_pending (str_of_int (orderId (tr_order trade))) symbol
                            action quantity (Some limit) (fst (utcnow ib (world e3)))
                            0 None]
                 /\ pending_orders (snd r)
                    = dict_set (pending_orders s)
                        (str_of_int (orderId (tr_order trade))) (length (objects s))
             | None => fst r = false /\ same_books s (snd r)
             end.
Proof.
  intros Hl r side. pose proof (is_limit_LMT _ Hl) as Hot.
  set (Q := fun (x : bool) (s' : Sys W) =>
    (x = false
     /\ exists added, added_calls s s' added
                      /\ forall i c o acc, PlaceOrder i c o acc ∉ added)
    \/ exists c e1 market_price e2 e3 answer,
         IBKR.get_contract ib symbol (env s) = (Some c, e1)
         /\ IBKR.get_market_price ib c e1 = (Some market_price, e2)
         /\ fst (isConnected ib (world e2)) = true
         /\ let limit := execute_limit_price side market_price in
            let o := limit_order cfg side quantity limit in
            IBKR.place_order ib (Some (length (objects s))) (client_account cfg) c side
              quantity (Some "LMT") (Some limit) e2 = (answer, e3)
            /\ fst (placeOrder ib c o (snd (isConnected ib (world e2))))
               = match answer with Some trade => Ok trade | None => Exc end
            /\ added_calls s s'
                 (approach symbol true c
                  ++ [IsConnected;
                      PlaceOrder (Some (length (objects s))) c o
                        (match answer with Some _ => true | None => false end)])
            /\ match answer with
               | Some trade =>
                   x = true
                   /\ positions s' = positions s /\ tasks s' = tasks s
                   /\ objects s'
                      = objects s
                        ++ [mk_pending (str_of_int (orderId (tr_order trade))) symbol
                              action quantity (Some limit) (fst (utcnow ib (world e3)))
                              0 None]
                   /\ pending_orders s'
                      = dict_set (pending_orders s)
                          (str_of_int (orderId (tr_order trade))) (length (objects s))
               | None => x = false /\ same_books s s'
               end).
  change (post (_execute_trade ib cfg symbol action quantity trading_decision) s Q).
  unfold _execute_trade. rewrite Hot. simpl is_limit. cbv iota.
  apply post_bind, post_lift. intros contract e1 Ec.
  pose proof (get_contract_calls ib symbol (env s)) as Hc1. rewrite Ec in Hc1.
  simpl in Hc1.
  assert (Hstop : forall e, calls e = calls e1 ->
            Q false (mk_sys e (positions s) (objects s) (pending_orders s) (tasks s))).
  { intros e He. left. split; [reflexivity|]. exists [QualifyContracts symbol].
    split; [unfold added_calls; simpl; rewrite He; exact Hc1|].
    intros i c o acc Hin. apply list_elem_of_singleton in Hin. discriminate. }
  destruct contract as [c|].
  2:{ apply post_bind, post_log, post_ret, Hstop. reflexivity. }
  destruct (max_position_size cfg <? quantity).
  { apply post_bind, post_log, post_ret, Hstop. reflexivity. }
  apply post_bind, post_bind, post_lift. simpl env. intros market_price e2 Em.
  pose proof (get_market_price_calls ib c e1) as Hc2. rewrite Em in Hc2.
  simpl in Hc2.
  assert (Hc02 : calls e2 = calls (env s) ++ approach symbol true c).
  { rewrite Hc2, Hc1, <- app_assoc. reflexivity. }
  destruct market_price as [market_price|].
  2:{ apply post_bind, post_log, post_ret, post_ret. left. split; [reflexivity|].
      exists (approach symbol true c). split; [exact Hc02|].
      intros i c' o acc Hin. simpl in Hin. set_solver. }
  apply post_ret, post_bind, post_get, post_bind, post_lift. simpl env. simpl objects.
  fold side. intros answer e3 Eplace.
  pose proof (place_order_eq (Some (length (objects s))) (client_account cfg) c side
                quantity (Some "LMT")
                (Some (execute_limit_price side market_price)) e2) as Hp.
  simpl in Hp.
  change (if truthy (execute_limit_price side market_price)
          then Some (execute_limit_price side market_price) else None)
    with (price_on_order (execute_limit_price side market_price)) in Hp.
  fold (limit_order cfg side quantity (execute_limit_price side market_price)) in Hp.
  rewrite Eplace in Hp.
  destruct (fst (isConnected ib (world e2))) eqn:Econn.
  2:{ injection Hp as -> ->. apply post_ret. left. split; [reflexivity|].
      exists (approach symbol true c ++ [IsConnected]). split.
      - unfold added_calls. simpl. rewrite Hc02, <- app_assoc. reflexivity.
      - intros i c' o acc Hin. simpl in Hin. set_solver. }
  set (o := limit_order cfg side quantity (execute_limit_price side market_price)) in *.
  destruct (fst (placeOrder ib c o (snd (isConnected ib (world e2))))) as [trade|] eqn:Egw;
    injection Hp as -> ->.
  - apply post_bind. unfold _track_pending_order.
    apply post_bind, post_clock. simpl env. simpl world.
    apply post_bind, post_get. apply post_bind. unfold post at 1. simpl.
    apply post_bind. unfold post at 1. simpl.
    apply post_log, post_ret. right.
    exists c, e1, market_price, e2. eexists _, (Some trade).
    split; [exact Ec|]. split; [exact Em|]. split; [exact Econn|]. simpl.
    split; [exact Eplace|]. split; [exact Egw|]. split.
    + unfold added_calls. simpl. rewrite Hc02, <- app_assoc. reflexivity.
    + repeat split.
  - apply post_ret. right.
    exists c, e1, market_price, e2. eexists _, None.
    split; [exact Ec|]. split; [exact Em|]. split; [exact Econn|]. simpl.
    split; [exact Eplace|]. split; [exact Egw|]. split.
    + unfold added_calls. simpl. rewrite Hc02, <- app_assoc. reflexivity.
    + repeat split.
Qed.


Lemma get_open_orders_eq (e : Env W) :
  fst (IBKR.get_open_orders ib e) = listed_open ib (world e)
  /\ calls (snd (IBKR.get_open_orders ib e)) = calls e ++ listing ib (world e).
Proof.
  unfold IBKR.get_open_orders, IBKR.bind, listed_open, listing. rewrite is_connected_run.
  destruct (isConnected ib (world e)) as [conn w0]. simpl.
  destruct conn; simpl; [|auto].
  unfold IBKR.oracle, IBKR.ret, IBKR.log. simpl.
  destruct (openTrades ib w0) as [[ts|] w1]; simpl;
    rewrite <- app_assoc; split; reflexivity.
Qed.

Lemma cancel_order_calls trade (e : Env W) :
  calls (snd (IBKR.cancel_order ib trade e)) = calls e ++ [CancelOrder (tr_order trade)].
Proof.
  unfold IBKR.cancel_order, IBKR.bind, IBKR.call, IBKR.oracle, IBKR.log, IBKR.ret.
  simpl. destruct (cancelOrder ib (tr_order trade) (world e)) as [[|] w]; reflexivity.
Qed.

(** One resubmission, answer by answer. *)
Lemma resubmit_order_run (a : nat) s :
  exists added,
    added_calls s (snd (_resubmit_order ib cfg a s)) added
    /\ resubmission ib cfg a s added.
Proof.
  change (post (_resubmit_order ib cfg a) s
            (fun _ s' => exists added,
               added_calls s s' added /\ resubmission ib cfg a s added)).
  unfold _resubmit_order.
  apply post_bind, post_get.
  destruct (objects s !! a) as [po|] eqn:Ea.
  2:{ apply post_ret. exists []. split; [apply added_calls_refl|].
      apply resub_missing. exact Ea. }
  apply post_bind, post_lift. intros contract e1 Ec.
  pose proof (get_contract_calls ib (po_symbol po) (env s)) as Hc1.
  rewrite Ec in Hc1. simpl in Hc1.
  destruct contract as [c|].
  2:{ apply post_log. exists [QualifyContracts (po_symbol po)].
      split; [exact Hc1|]. eapply resub_unqualified; eassumption. }
  apply post_bind, post_lift. simpl env. intros market_price e2 Em.
  pose proof (get_market_price_calls ib c e1) as Hc2. rewrite Em in Hc2.
  simpl in Hc2.
  assert (Hc02 : calls e2 = calls (env s) ++ approach (po_symbol po) true c).
  { rewrite Hc2, Hc1, <- app_assoc. reflexivity. }
  destruct market_price as [market_price|].
  2:{ apply post_log. exists (approach (po_symbol po) true c).
      split; [exact Hc02|]. eapply resub_unpriced; eassumption. }
  apply post_bind, post_lift. simpl env. intros open_orders e3 Eopen.
  destruct (get_open_orders_eq e2) as [Hlisted Hc3]. rewrite Eopen in Hlisted, Hc3.
  simpl in Hlisted, Hc3. subst open_orders.
  set (old := old_order po (listed_open ib (world e2))).
  set (e4 := match old with
             | Some t => snd (IBKR.cancel_order ib t e3)
             | None => e3
             end).
  assert (Hc4 : calls e4 = calls e3 ++ cancellation old).
  { unfold e4. destruct old as [t|]; simpl;
      [apply cancel_order_calls | rewrite app_nil_r; reflexivity]. }
  set (side := _convert_action_to_ibkr (po_action po)).
  set (limit := resubmit_limit_price side market_price).
  set (o := limit_order cfg side (po_quantity po) limit).
  set (placement := if fst (isConnected ib (world e4))
                    then [PlaceOrder (Some a) c o
                            (is_ok (fst (placeOrder ib c o
                                           (snd (isConnected ib (world e4))))))]
                    else []).
  assert (Hres : resubmission ib cfg a s
                   (approach (po_symbol po) true c ++ listing ib (world e2)
                    ++ cancellation old ++ IsConnected :: placement)).
  { eapply resub_attempted with (e4 := e4); try eassumption; try reflexivity.
    unfold e4. rewrite Eopen. reflexivity. }
  assert (Hrest : forall (Q : unit -> Sys W -> Prop),
            (forall s', calls (env s')
                        = calls (env s)
                          ++ approach (po_symbol po) true c ++ listing ib (world e2)
                          ++ cancellation old ++ IsConnected :: placement ->
                        Q tt s') ->
            forall s4, env s4 = e4 -> objects s4 = objects s ->
              post (bind (lift (IBKR.place_order ib (Some a) (client_account cfg) c side
                                  (po_quantity po) (Some "LMT") (Some limit)))
                      (fun new_trade =>
                         match new_trade with
                         | Some new_trade =>
                             bind (clock (utcnow ib))
                               (fun now =>
                                  bind get (fun s =>
                                  bind (set_objects
                                          (<[a := mk_pending
                                                    (str_of_int (orderId (tr_order new_trade)))
                                                    (po_symbol po) (po_action po)
                                                    (po_quantity po) (original_price po)
                                                    (submitted_time po)
                                                    (resubmission_count po + 1) (Some now)]>
                                             (objects s)))
                                    (fun _ =>
                                       if dict_mem (pending_orders s) (trade_id po)
                                       then
                                         bind (set_pending_orders
                                                 (dict_set
                                                    (dict_del (pending_orders s) (trade_id po))
                                                    (str_of_int (orderId (tr_order new_trade)))
                                                    a))
                                           (fun _ =>
                                              log INFO
                                                (OrderResubmitted
                                                   (str_of_int (orderId (tr_order new_trade)))
                                                   (po_symbol po) limit
                                                   (resubmission_count po + 1)))
                                       else log ERROR ErrorResubmittingOrder)))
                         | None => log ERROR (FailedToResubmit (po_symbol po))
                         end)) s4 Q).
  { intros Q HQ s4 He4 Ho4.
    apply post_bind, post_lift. rewrite He4. intros answer e5 Eplace.
    pose proof (place_order_eq (Some a) (client_account cfg) c side (po_quantity po)
                  (Some "LMT") (Some limit) e4) as Hp.
    simpl in Hp.
    change (if truthy limit then Some limit else None) with (price_on_order limit) in Hp.
    fold (limit_order cfg side (po_quantity po) limit) in Hp. fold o in Hp.
    rewrite Eplace in Hp.
    assert (Hc5 : calls e5 = calls e4 ++ IsConnected :: placement).
    { unfold placement. destruct (fst (isConnected ib (world e4)));
        [destruct (fst (placeOrder ib c o _))|]; injection Hp as _ ->; reflexivity. }
    assert (Hall : calls e5
                   = calls (env s)
                     ++ approach (po_symbol po) true c ++ listing ib (world e2)
                     ++ cancellation old ++ IsConnected :: placement).
    { rewrite Hc5, Hc4, Hc3, Hc02, <- !app_assoc. reflexivity. }
    destruct answer as [new_trade|].
    - apply post_bind, post_clock. simpl env. simpl world.
      apply post_bind, post_get. apply post_bind. unfold post at 1. simpl.
      destruct (dict_mem (pending_orders s4) (trade_id po)).
      + apply post_bind. unfold post at 1. simpl. apply post_log, HQ. exact Hall.
      + apply post_log, HQ. exact Hall.
    - apply post_log, HQ. exact Hall. }
  apply post_bind.
  destruct old as [t|] eqn:Eold.
  - unfold old, old_order in Eold. rewrite Eold.
    apply post_bind, post_lift. simpl env. intros b e4' Ecancel. apply post_ret.
    apply Hrest.
    + intros s' Hs'. eexists. split; [exact Hs' | exact Hres].
    + simpl. unfold e4. rewrite Ecancel. reflexivity.
    + reflexivity.
  - unfold old, old_order in Eold. rewrite Eold. apply post_ret.
    apply Hrest.
    + intros s' Hs'. eexists. split; [exact Hs' | exact Hres].
    + reflexivity.
    + reflexivity.
Qed.

(** X19. A limit order the gateway accepts is tracked at once, and as
    what was just sent: the executor qualifies the symbol, takes a quote
    and places the order built from that quote; the PendingOrder it then
    appends to the store carries the order id of the gateway's answer, the
    limit price computed from that quote, the time read right after the
    placement and a resubmission count of 0, and is filed under that id;
    the placement is counted for it; positions and tasks are left alone. *)
Theorem limit_order_tracked_when_accepted symbol action quantity trading_decision s :
  is_limit (MarketHours.recommended_order_type trading_decision) = true ->
  let r := _execute_trade ib cfg symbol action quantity trading_decision s in
  fst r = true ->
  exists c e1 market_price e2 trade e3,
    IBKR.get_contract ib symbol (env s) = (Some c, e1)
    /\ IBKR.get_market_price ib c e1 = (Some market_price, e2)
    /\ let side := _convert_action_to_ibkr action in
       let limit := execute_limit_price side market_price in
       let o := limit_order cfg side quantity limit in
       let po := mk_pending (str_of_int (orderId (tr_order trade))) symbol action
                   quantity (Some limit) (fst (utcnow ib (world e3))) 0 None in
       IBKR.place_order ib (Some (length (objects s))) (client_account cfg) c side
         quantity (Some "LMT") (Some limit) e2 = (Some trade, e3)
       /\ fst (placeOrder ib c o (snd (isConnected ib (world e2)))) = Ok trade
       /\ calls (env (snd r))
          = calls (env s)
            ++ approach symbol true c
            ++ [IsConnected; PlaceOrder (Some (length (objects s))) c o true]
       /\ objects (snd r) = objects s ++ [po]
       /\ pending_orders (snd r)
          = dict_set (pending_orders s) (trade_id po) (length (objects s))
       /\ dict_get (pending_orders (snd r)) (trade_id po) = Some (length (objects s))
       /\ placed_for (snd r) (length (objects s))
          = (placed_for s (length (objects s)) + 1)%nat
       /\ positions (snd r) = positions s
       /\ tasks (snd r) = tasks s.
Proof.
  intros Hl r Hok.
  destruct (execute_trade_limit_run symbol action quantity trading_decision s Hl)
    as [[Hfalse _] | (c & e1 & market_price & e2 & e3 & answer & Ec & Em & Econn & H)].
  { fold r in Hfalse. congruence. }
  fold r in H. simpl in H. destruct H as (Eplace & Egw & Hcalls & Hans).
  destruct answer as [trade|]; [|destruct Hans as [Hfalse _]; congruence].
  destruct Hans as (_ & Hp & Ht & Ho & Hd).
  exists c, e1, market_price, e2, trade, e3.
  split; [exact Ec|]. split; [exact Em|]. simpl.
  split; [exact Eplace|]. split; [exact Egw|]. split; [exact Hcalls|].
  split; [exact Ho|]. split; [exact Hd|].
  split; [rewrite Hd; apply dict_get_set|].
  split; [|split; assumption].
  unfold placed_for. unfold added_calls in Hcalls. rewrite Hcalls, placed_app.
  unfold placed. simpl. rewrite Nat.eqb_refl. simpl. lia.
Qed.

(** X27. One resubmission talks to the gateway in a fixed order, and the
    answers of the gateway decide what it sends: the qualification; the
    quote and its release; the listing of the open orders; the
    cancellation of the first listed order that carries the tracked id,
    and no cancellation when none does; the connectivity check; and, when
    connected, the LMT replacement for the object's quantity and side at
    the price computed from this quote.  A missing contract or quote stops
    it before anything is listed or cancelled; once the quote is in, the
    replacement is attempted whether or not a cancellation was sent or
    succeeded. *)
Theorem resubmit_order_call_protocol (a : nat) s :
  exists added,
    added_calls s (snd (_resubmit_order ib cfg a s)) added
    /\ resubmission ib cfg a s added.
Proof. apply resubmit_order_run. Qed.

Lemma upper_ascii_idem (c : ascii) : upper_ascii (upper_ascii c) = upper_ascii c.
Proof.
  destruct c as [[] [] [] [] [] [] [] []]; reflexivity.
Qed.

Lemma upper_idem (text : string) : upper (upper text) = upper text.
Proof.
  induction text as [|c text IH]; simpl; [reflexivity|].
  rewrite upper_ascii_idem, IH. reflexivity.
Qed.

(** The side is in upper case already. *)
Lemma upper_side (text : string) :
  upper (_convert_action_to_ibkr text) = _convert_action_to_ibkr text.
Proof.
  unfold _convert_action_to_ibkr.
  repeat (match goal with
          | |- context [if ?b then _ else _] => destruct b; [reflexivity|]
          end).
  apply upper_idem.
Qed.

Lemma added_calls_unique s s' added added' :
  added_calls s s' added -> added_calls s s' added' -> added = added'.
Proof.
  unfold added_calls. intros H1 H2. rewrite H1 in H2.
  apply app_inv_head in H2. exact H2.
Qed.

(** The approach to an order places none. *)
Lemma place_order_after_approach i c o acc symbol limit c0 tail :
  PlaceOrder i c o acc ∈ approach symbol limit c0 ++ tail ->
  PlaceOrder i c o acc ∈ tail.
Proof.
  rewrite elem_of_app. intros [H | H]; [exfalso | exact H].
  unfold approach in H. apply elem_of_cons in H as [H | H]; [discriminate|].
  destruct limit; [|inversion H].
  apply elem_of_cons in H as [H | H]; [discriminate|].
  apply elem_of_cons in H as [H | H]; [discriminate | inversion H].
Qed.

Lemma place_order_last i c o acc i0 c0 o0 acc0 :
  PlaceOrder i c o acc ∈ [IsConnected; PlaceOrder i0 c0 o0 acc0] ->
  i = i0 /\ c = c0 /\ o = o0 /\ acc = acc0.
Proof.
  intros H. apply elem_of_cons in H as [H | H]; [discriminate|].
  apply list_elem_of_singleton in H. injection H as -> -> -> ->. auto.
Qed.

(** The order of an execution is the one the executor built. *)
Lemma execution_order symbol action quantity order_type s s' ok added i c o acc :
  execution cfg symbol action quantity order_type s s' ok added ->
  PlaceOrder i c o acc ∈ added ->
  order_sent cfg action quantity order_type o.
Proof.
  intros [B | c0 El B | c0 B | c0 o0 B Hs Hn | c0 o0 El B Hs Hn
          | c0 o0 po El Hs Hf Hp Ht Ho Hd] Hin.
  - apply list_elem_of_singleton in Hin. discriminate.
  - rewrite <- (app_nil_r (approach symbol true c0)) in Hin.
    apply place_order_after_approach in Hin. inversion Hin.
  - apply place_order_after_approach, list_elem_of_singleton in Hin. discriminate.
  - apply place_order_after_approach, place_order_last in Hin as (_ & _ & -> & _).
    exact Hs.
  - apply place_order_after_approach, place_order_last in Hin as (_ & _ & -> & _).
    exact Hs.
  - apply place_order_after_approach, place_order_last in Hin as (_ & _ & -> & _).
    exact Hs.
Qed.

(** The order of a resubmission is the replacement built from its quote. *)
Lemma resubmission_order (a : nat) s added i c o acc :
  resubmission ib cfg a s added ->
  PlaceOrder i c o acc ∈ added ->
  exists po e1 market_price e2,
    objects s !! a = Some po
    /\ IBKR.get_contract ib (po_symbol po) (env s) = (Some c, e1)
    /\ IBKR.get_market_price ib c e1 = (Some market_price, e2)
    /\ o = limit_order cfg (_convert_action_to_ibkr (po_action po)) (po_quantity po)
             (resubmit_limit_price (_convert_action_to_ibkr (po_action po))
                market_price).
Proof.
  intros [Ea | po e1 Ea Ec | po c0 e1 e2 Ea Ec Em
          | po c0 e1 e2 e4 market_price old o0 placement Ea Ec Em Eold E4 Eo Epl] Hin.
  - set_solver.
  - set_solver.
  - simpl in Hin. set_solver.
  - assert (Hpl : PlaceOrder i c o acc ∈ placement).
    { unfold listing, cancellation in Hin.
      destruct (fst (isConnected ib (world e2))); destruct old; simpl in Hin;
        set_solver. }
    rewrite Epl in Hpl. destruct (fst (isConnected ib (world e4))); [|set_solver].
    apply list_elem_of_singleton in Hpl. injection Hpl as -> -> -> ->.
    exists po, e1, market_price, e2. auto.
Qed.

(** X11. However the action is capitalised, BUY and COVER go out as BUY
    orders and SELL and SHORT as SELL orders; any other text is passed on
    in upper case.  This is the action of every order the executor or a
    resubmission hands to the gateway. *)
Theorem convert_action_sides (text : string) :
  let side := _convert_action_to_ibkr text in
  (forall a, upper text = Signal.name a ->
             side = match a with
                    | Signal.BUY | Signal.COVER => "BUY"
                    | Signal.SELL | Signal.SHORT => "SELL"
                    end%string)
  /\ ((forall a, upper text <> Signal.name a) -> side = upper text)
  /\ (forall symbol quantity trading_decision s added i c o acc,
        added_calls s
          (snd (_execute_trade ib cfg symbol text quantity trading_decision s)) added ->
        PlaceOrder i c o acc ∈ added ->
        World.action o = side)
  /\ (forall a s po added i c o acc,
        objects s !! a = Some po -> po_action po = text ->
        added_calls s (snd (_resubmit_order ib cfg a s)) added ->
        PlaceOrder i c o acc ∈ added ->
        World.action o = side).
Proof.
  intros side. split; [|split; [|split]].
  - intros a H. apply upper_name_cases. exact H.
  - intros H. unfold side, _convert_action_to_ibkr.
    destruct (String.eqb_spec (upper text) "BUY") as [E|_];
      [destruct (H Signal.BUY E)|].
    destruct (String.eqb_spec (upper text) "SELL") as [E|_];
      [destruct (H Signal.SELL E)|].
    destruct (String.eqb_spec (upper text) "SHORT") as [E|_];
      [destruct (H Signal.SHORT E)|].
    destruct (String.eqb_spec (upper text) "COVER") as [E|_];
      [destruct (H Signal.COVER E)|].
    reflexivity.
  - intros symbol quantity trading_decision s added i c o acc Hadded Hin.
    destruct (execute_trade_run ib cfg symbol text quantity trading_decision s)
      as (added' & Hadded' & Hexec).
    rewrite (added_calls_unique _ _ _ _ Hadded Hadded') in Hin.
    destruct (execution_order _ _ _ _ _ _ _ _ _ _ _ _ Hexec Hin) as (Hact & _).
    rewrite Hact. apply upper_side.
  - intros a s po added i c o acc Ea Hact Hadded Hin.
    destruct (resubmit_order_run a s) as (added' & Hadded' & Hres).
    rewrite (added_calls_unique _ _ _ _ Hadded Hadded') in Hin.
    destruct (resubmission_order _ _ _ _ _ _ _ Hres Hin)
      as (po' & e1 & market_price & e2 & Ea' & _ & _ & ->).
    assert (po' = po) by congruence. subst po'. simpl.
    rewrite Hact. apply upper_side.
Qed.

(** C6, amended. The limit price is computed in binary floating point, by
    the same expression on placement and on every resubmission: the quote
    times the double 1 + 0.001 (BUY side) or 1 - 0.001 (other side),
    rounded by [round(x, 2)].  For a quote q between 2^-1000 and 2^1000 it
    is a double nearest to K/100 (no double is nearer, and it is within
    2^-53 of K/100 in relative terms) for a whole number K >= 0 of cents,
    and K/100 lies within half a cent, plus q/2^50 for the rounding of the
    product, of q x 1.001 or q x 0.999; so the limit is within
    0.001 q + 0.005 + (1 + q)/2^49 of the quote.  When K = 0 the price is
    0.0, which is false in Python.  For a quote that is the double of a
    whole number of cents the BUY-side limit is at least the quote and the
    SELL-side limit at most the quote.  What the executor and a
    resubmission put on the order they hand to the gateway is this price,
    computed from the quote they have just obtained, and no price at all
    when it is 0.0. *)
Theorem limit_price_buffer (q : Q) (side : string) :
  (Float64.pow2 (-1000) <= q <= Float64.pow2 1000)%Q ->
  (exists K : Z,
     0 <= K
     /\ execute_limit_price side (Fin q) = Fin (Float64.RN (inject_Z K / 100))
     /\ is_double (Float64.RN (inject_Z K / 100))
     /\ (forall d, is_double d ->
                   (Qabs (Float64.RN (inject_Z K / 100) - inject_Z K / 100)
                    <= Qabs (d - inject_Z K / 100))%Q)
     /\ (Qabs (Float64.RN (inject_Z K / 100) - inject_Z K / 100)
         <= inject_Z K / 100 * Float64.pow2 (-53))%Q
     /\ (Qabs (inject_Z K / 100 - buffered side q)
         <= (1 # 200) + q * Float64.pow2 (-50))%Q
     /\ (Qabs (Float64.RN (inject_Z K / 100) - q)
         <= q * (1 # 1000) + (1 # 200) + (1 + q) * Float64.pow2 (-49))%Q
     /\ (truthy (execute_limit_price side (Fin q)) = false <-> K = 0)
     /\ (forall cents : Z,
           (q == Float64.RN (inject_Z cents / 100))%Q ->
           if String.eqb side "BUY"
           then (q <= Float64.RN (inject_Z K / 100))%Q
           else (Float64.RN (inject_Z K / 100) <= q)%Q))
  /\ resubmit_limit_price side (Fin q) = execute_limit_price side (Fin q)
  /\ (forall symbol action quantity trading_decision s added i c o acc,
        is_limit (MarketHours.recommended_order_type trading_decision) = true ->
        added_calls s
          (snd (_execute_trade ib cfg symbol action quantity trading_decision s))
          added ->
        PlaceOrder i c o acc ∈ added ->
        exists e1 market_price e2,
          IBKR.get_contract ib symbol (env s) = (Some c, e1)
          /\ IBKR.get_market_price ib c e1 = (Some market_price, e2)
          /\ lmtPrice o
             = price_on_order
                 (execute_limit_price (_convert_action_to_ibkr action) market_price))
  /\ (forall a s added i c o acc,
        added_calls s (snd (_resubmit_order ib cfg a s)) added ->
        PlaceOrder i c o acc ∈ added ->
        exists po e1 market_price e2,
          objects s !! a = Some po
          /\ IBKR.get_contract ib (po_symbol po) (env s) = (Some c, e1)
          /\ IBKR.get_market_price ib c e1 = (Some market_price, e2)
          /\ lmtPrice o
             = price_on_order
                 (resubmit_limit_price (_convert_action_to_ibkr (po_action po))
                    market_price)).
Proof.
  intros [Hlo Hhi]. split; [|split; [reflexivity|split]].
  - exists (limit_cents side q).
    destruct (limit_cents_near side q Hlo) as [HK Hnear].
    destruct (RN_cents _ HK) as [Hdouble Hzero].
    assert (Hq : (0 < q)%Q) by (pose proof (pow2_pos (-1000)); lra).
    assert (Hk0 : (0 <= inject_Z (limit_cents side q) / 100)%Q).
    { unfold Qdiv. apply Qmult_le_0_compat; [|discriminate].
      change 0%Q with (inject_Z 0). rewrite <- Zle_Qle. exact HK. }
    assert (Hkhi : (inject_Z (limit_cents side q) / 100 < Float64.pow2 1023)%Q).
    { assert (E : (Float64.pow2 1023 == Float64.pow2 1000 * 8388608)%Q)
        by (change 8388608%Q with (Float64.pow2 23); rewrite <- pow2_add; reflexivity).
      assert (H1 : (1 <= Float64.pow2 1000)%Q)
        by (change 1%Q with (Float64.pow2 0); apply pow2_le; lia).
      rewrite E. revert Hnear. unfold buffered.
      change (Float64.pow2 (-50)) with (1 # 1125899906842624)%Q.
      generalize (inject_Z (limit_cents side q) / 100)%Q. intros k Hnear.
      destruct (String.eqb side "BUY");
        apply Qabs_Qle_condition in Hnear as [Hn1 Hn2]; lra. }
    split; [exact HK|]. split; [apply execute_limit_price_cents|].
    split; [apply RN_is_double; assumption|].
    split.
    { intros d Hd. destruct (Qle_lt_or_eq _ _ Hk0) as [Hpos | Hz].
      - apply RN_nearest; assumption.
      - assert (E0 : (Float64.RN (inject_Z (limit_cents side q) / 100)
                      - inject_Z (limit_cents side q) / 100 == 0)%Q).
        { rewrite (RN_zero _ (Qeq_sym _ _ Hz)). rewrite <- Hz. reflexivity. }
        rewrite E0. apply Qabs_nonneg. }
    split; [exact Hdouble|]. split; [exact Hnear|]. split; [|split].
    + revert Hdouble Hnear. unfold buffered.
      change (Float64.pow2 (-53)) with (1 # 9007199254740992)%Q.
      change (Float64.pow2 (-50)) with (1 # 1125899906842624)%Q.
      change (Float64.pow2 (-49)) with (1 # 562949953421312)%Q.
      generalize (Float64.RN (inject_Z (limit_cents side q) / 100)).
      generalize (inject_Z (limit_cents side q) / 100)%Q.
      intros k L Hdouble Hnear.
      apply Qabs_Qle_condition in Hdouble as [Hd1 Hd2].
      destruct (String.eqb side "BUY");
        apply Qabs_Qle_condition in Hnear as [Hn1 Hn2];
        apply Qabs_Qle_condition; split; lra.
    + rewrite execute_limit_price_cents. simpl. rewrite <- Hzero.
      destruct (Z.eqb_spec (Qnum (Float64.RN (inject_Z (limit_cents side q) / 100))) 0);
        simpl; split; congruence.
    + intros cents Hcents.
      pose proof (limit_cents_whole side q cents Hlo Hcents) as Hside.
      assert (Hc0 : (0 < Float64.RN (inject_Z cents / 100))%Q)
        by (rewrite <- Hcents; exact Hq).
      assert (Hcpos : (0 < inject_Z cents / 100)%Q).
      { apply Qnot_le_lt. intros Hle.
        destruct (Qle_lt_or_eq _ _ Hle) as [Hneg | Hz];
          [|rewrite (RN_zero _ Hz) in Hc0; lra].
        revert Hc0. unfold Float64.RN. rewrite Qred_correct.
        assert (Hn : Qnum (inject_Z cents / 100) < 0).
        { revert Hneg. unfold Qlt. simpl. lia. }
        destruct (Z.leb_spec 0 (Qnum (inject_Z cents / 100))); [lia|].
        set (x := Qabs (inject_Z cents / 100)).
        assert (0 <= inject_Z (round_half_even (x / Float64.ulp x)) * Float64.ulp x)%Q.
        { apply Qmult_le_0_compat; [|apply Qlt_le_weak, ulp_pos].
          change 0%Q with (inject_Z 0). rewrite <- Zle_Qle.
          apply round_half_even_ge. change (inject_Z 0) with 0%Q.
          apply Qle_shift_div_l; [apply ulp_pos|].
          rewrite Qmult_0_l. apply Qabs_nonneg. }
        lra. }
      assert (Hle : (q <= Float64.RN (inject_Z cents / 100))%Q)
        by (rewrite Hcents; apply Qle_refl).
      assert (Hge : (Float64.RN (inject_Z cents / 100) <= q)%Q)
        by (rewrite Hcents; apply Qle_refl).
      destruct (String.eqb side "BUY").
      * eapply Qle_trans; [exact Hle|]. apply RN_monotone; [exact Hcpos|].
        unfold Qdiv. apply Qmult_le_compat_r; [|discriminate].
        rewrite <- Zle_Qle. exact Hside.
      * eapply Qle_trans; [|exact Hge].
        destruct (Z.eq_dec (limit_cents side q) 0) as [E0 | Hne].
        { rewrite E0. apply Qlt_le_weak. exact Hc0. }
        apply RN_monotone.
        -- unfold Qdiv. apply Qmult_lt_0_compat; [|reflexivity].
           change 0%Q with (inject_Z 0). rewrite <- Zlt_Qlt. lia.
        -- unfold Qdiv. apply Qmult_le_compat_r; [|discriminate].
           rewrite <- Zle_Qle. exact Hside.
  - intros symbol action quantity trading_decision s added i c o acc Hl Hadded Hin.
    destruct (execute_trade_limit_run symbol action quantity trading_decision s Hl)
      as [(_ & added' & Hadded' & Hnone)
         | (c' & e1 & market_price & e2 & e3 & answer & Ec & Em & Econn & H)].
    { rewrite (added_calls_unique _ _ _ _ Hadded Hadded') in Hin.
      destruct (Hnone _ _ _ _ Hin). }
    cbv zeta in H. destruct H as (_ & _ & Hadded' & _).
    rewrite (added_calls_unique _ _ _ _ Hadded Hadded') in Hin.
    apply place_order_after_approach, place_order_last in Hin as (_ & -> & -> & _).
    exists e1, market_price, e2. auto.
  - intros a s added i c o acc Hadded Hin.
    destruct (resubmit_order_run a s) as (added' & Hadded' & Hres).
    rewrite (added_calls_unique _ _ _ _ Hadded Hadded') in Hin.
    destruct (resubmission_order _ _ _ _ _ _ _ Hres Hin)
      as (po & e1 & market_price & e2 & Ea & Ec & Em & ->).
    exists po, e1, market_price, e2. auto.
Qed.

End Wire.

(** A limit BUY of 100 AAPL the gateway accepts is tracked as the only
    object, under the id of the gateway's answer and at the limit computed
    from the quote. *)
Lemma limit_order_tracked_when_accepted_witness :
  exists trade market_price now,
    Engine.objects
      (snd (Engine._execute_trade (steady_gateway quiet_ticker 7 0 tuesday_5am)
              default_config "AAPL" "buy" 100 extended_decision
              (Engine.init default_config tt)))
    = [Engine.mk_pending (Py.str_of_int (World.orderId (World.tr_order trade)))
         "AAPL" "buy" 100 (Some (Engine.execute_limit_price "BUY" market_price))
         now 0 None].
Proof.
  destruct (limit_order_tracked_when_accepted
              (steady_gateway quiet_ticker 7 0 tuesday_5am) default_config
              "AAPL" "buy" 100 extended_decision (Engine.init default_config tt)
              eq_refl eq_refl)
    as (c & e1 & market_price & e2 & trade & e3 & _ & _ & _ & _ & _ & Hobj & _).
  exists trade, market_price, (fst (World.utcnow (steady_gateway quiet_ticker 7 0 tuesday_5am)
                                      (World.world e3))).
  exact Hobj.
Defined.

(** A quote of 150.00: the BUY-side limit is the double of a whole number
    of cents within half a cent of 150.15. *)
Lemma limit_price_buffer_witness :
  exists K : Z,
    0 <= K
    /\ Engine.execute_limit_price "BUY" (Py.Fin 150)
       = Py.Fin (Float64.RN (inject_Z K / 100))
    /\ (Qabs (inject_Z K / 100 - buffered "BUY" 150)
        <= (1 # 200) + 150 * Float64.pow2 (-50))%Q.
Proof.
  assert (Hrange : (Float64.pow2 (-1000) <= 150 <= Float64.pow2 1000)%Q)
    by (split; vm_compute; discriminate).
  destruct (proj1 (limit_price_buffer (steady_gateway quiet_ticker 7 0 tuesday_5am)
                     default_config 150 "BUY" Hrange))
    as (K & H0 & H1 & _ & _ & _ & H2 & _).
  exists K. split; [exact H0|]. split; [exact H1 | exact H2].
Defined.

(** C6 as stated fails.  At the quote 1.001953125 (513/512, a double) the
    buffered price 1.002955... rounds down to 1.00: the BUY-side limit is
    below the quote, and its relative distance from the quote, about
    0.00195, exceeds 0.001 by far more than a rounding unit.  At the quote
    15.0 the code emits 15.01 (the double product is just below 15.015),
    where banker's rounding of 15 x 1.001 = 15.015 gives 15.02; at the
    quote 35.0 it emits 34.97 on the SELL side, where banker's rounding of
    35 x 0.999 = 34.965 gives 34.96. *)
Lemma limit_price_buffer_counterexample :
  Engine.execute_limit_price "BUY" (Py.Fin (513 # 512)) = Py.Fin 1
  /\ (1 < 513 # 512)%Q
  /\ ((1 # 1000) + (1 # 2000) < Qabs (1 - (513 # 512)) / (513 # 512))%Q
  /\ Engine.execute_limit_price "BUY" (Py.Fin 15)
     = Py.Fin (8449878800853893 # 562949953421312)
  /\ (limit_buy 15 == 1502 # 100)%Q
  /\ ((8449878800853893 # 562949953421312) < 1502 # 100)%Q
  /\ Engine.execute_limit_price "SELL" (Py.Fin 35)
     = Py.Fin (1230397491946455 # 35184372088832)
  /\ (limit_sell 35 == 3496 # 100)%Q
  /\ (3496 # 100 < 1230397491946455 # 35184372088832)%Q.
Proof. repeat split. Qed.
